(** * docker_network: a shallow embedding of the reconciliation engine

    Source: [lib/ansible/modules/cloud/docker/docker_network.py].

    Python values are modelled by small inductive types, dictionaries by
    insertion-ordered association lists (Python 3.7 iteration order), the
    Docker client by an abstract record of operations over a world state,
    and the methods of [DockerNetworkManager] by a state-and-exception monad
    that keeps the manager, the world and the log of client calls. *)

From Stdlib Require Import String Ascii List Bool Arith ZArith Lia DecimalString.
Import ListNotations.
Local Open Scope string_scope.
Local Open Scope list_scope.

Set Implicit Arguments.

(* ===================================================================== *)
(** ** Python values and exceptions *)
(* ===================================================================== *)

(** The double quote character, used by the error message of
    [get_ip_version]. *)
Definition dquote : string := String (ascii_of_nat 34) EmptyString.

(** Line feed, the only character Python's [$] tolerates after a match. *)
Definition LF : ascii := ascii_of_nat 10.

(** Scalars that may occur as keys and values of the raw [driver_options]
    dictionary (floats are left out: their [str] is not modelled). *)
Inductive scalar : Type :=
| SNone
| SBool (b : bool)
| SInt (z : Z)
| SStr (s : string).

(** An ordered dictionary with string keys. *)
Definition dict (V : Type) : Type := list (string * V).

(** Values stored in IPAM pool dictionaries: [None], a string, or a
    string-to-string mapping ([aux_addresses]). *)
Inductive pyval : Type :=
| PyNone
| PyStr (s : string)
| PyDict (d : dict string).

(** Uncaught Python exceptions. *)
Inductive exn : Type :=
| ValueError (msg : string)
| TypeError (msg : string)
| KeyError (key : string)
| NotFound (what : string)
| APIError (what : string).

(** Result of a computation: a value, a clean module failure
    ([client.fail(msg)]), or an uncaught exception. *)
Inductive outcome (A : Type) : Type :=
| Ok (a : A)
| Fail (msg : string)
| Raise (e : exn).
Arguments Ok {A} a.
Arguments Fail {A} msg.
Arguments Raise {A} e.

(* --------------------------------------------------------------------- *)
(** *** Dictionary primitives *)

Section Dict.
Variable V : Type.

(** [d.get(k)] *)
Fixpoint dict_get (k : string) (d : dict V) : option V :=
  match d with
  | [] => None
  | (k', v) :: d' => if String.eqb k k' then Some v else dict_get k d'
  end.

(** [k in d] *)
Definition dict_mem (k : string) (d : dict V) : bool :=
  match dict_get k d with Some _ => true | None => false end.

(** [d[k] = v]: overwrite in place when the key exists, append otherwise. *)
Fixpoint dict_set (k : string) (v : V) (d : dict V) : dict V :=
  match d with
  | [] => [(k, v)]
  | (k', v') :: d' =>
      if String.eqb k k' then (k', v) :: d' else (k', v') :: dict_set k v d'
  end.

Definition dict_keys (d : dict V) : list string := map fst d.
Definition dict_values (d : dict V) : list V := map snd d.
End Dict.

(** [==] on string-to-string dictionaries: same size and every item of the
    left one found with an equal value in the right one. *)
Definition dict_eqb (d1 d2 : dict string) : bool :=
  Nat.eqb (length d1) (length d2) &&
  forallb (fun kv => match dict_get (fst kv) d2 with
                     | Some v => String.eqb (snd kv) v
                     | None => false
                     end) d1.

(** [==] on pool values. *)
Definition py_eqb (a b : pyval) : bool :=
  match a, b with
  | PyNone, PyNone => true
  | PyStr s, PyStr t => String.eqb s t
  | PyDict d, PyDict e => dict_eqb d e
  | _, _ => false
  end.

(** Truth value of a pool value: [None], [''] and [{}] are false. *)
Definition py_truthy (v : pyval) : bool :=
  match v with
  | PyNone => false
  | PyStr s => negb (String.eqb s "")
  | PyDict d => match d with [] => false | _ => true end
  end.

(** [str(v)] on scalars. *)
Definition py_str (v : scalar) : string :=
  match v with
  | SNone => "None"
  | SBool true => "True"
  | SBool false => "False"
  | SInt z => NilZero.string_of_int (Z.to_int z)
  | SStr s => s
  end.

(** ['%s' % n] for an index. *)
Definition str_of_nat (n : nat) : string := NilZero.string_of_uint (Nat.to_uint n).

(** [s.lower()] on ASCII. *)
Definition lower_ascii (c : ascii) : ascii :=
  let n := nat_of_ascii c in
  if Nat.leb 65 n && Nat.leb n 90 then ascii_of_nat (n + 32) else c.

Fixpoint lower (s : string) : string :=
  match s with
  | EmptyString => EmptyString
  | String c s' => String (lower_ascii c) (lower s')
  end.

(* ===================================================================== *)
(** ** Regular expressions (the fragment used by the two CIDR patterns) *)
(* ===================================================================== *)

Module Re.

Inductive regex : Type :=
| Void
| Eps
| Cls (ranges : list (ascii * ascii))
| Cat (r s : regex)
| Alt (r s : regex)
| Star (r : regex).

Definition in_range (c : ascii) (rg : ascii * ascii) : bool :=
  Nat.leb (nat_of_ascii (fst rg)) (nat_of_ascii c) &&
  Nat.leb (nat_of_ascii c) (nat_of_ascii (snd rg)).

Definition in_class (c : ascii) (ranges : list (ascii * ascii)) : bool :=
  existsb (in_range c) ranges.

Fixpoint nullable (r : regex) : bool :=
  match r with
  | Void => false
  | Eps => true
  | Cls _ => false
  | Cat r s => nullable r && nullable s
  | Alt r s => nullable r || nullable s
  | Star _ => true
  end.

(** Brzozowski derivative. *)
Fixpoint deriv (c : ascii) (r : regex) : regex :=
  match r with
  | Void => Void
  | Eps => Void
  | Cls rs => if in_class c rs then Eps else Void
  | Cat r s =>
      if nullable r then Alt (Cat (deriv c r) s) (deriv c s)
      else Cat (deriv c r) s
  | Alt r s => Alt (deriv c r) (deriv c s)
  | Star r => Cat (deriv c r) (Star r)
  end.

(** The whole string is in the language of [r]. *)
Fixpoint fullmatch (r : regex) (s : string) : bool :=
  match s with
  | EmptyString => nullable r
  | String c s' => fullmatch (deriv c r) s'
  end.

(** Derived forms. *)
Definition chr (c : ascii) : regex := Cls [(c, c)].
Definition rng (lo hi : ascii) : regex := Cls [(lo, hi)].
Definition opt (r : regex) : regex := Alt r Eps.
Definition plus (r : regex) : regex := Cat r (Star r).

(** [r{n}] *)
Fixpoint rep (n : nat) (r : regex) : regex :=
  match n with
  | O => Eps
  | S n' => Cat r (rep n' r)
  end.

(** [r{0,n}] *)
Fixpoint upto (n : nat) (r : regex) : regex :=
  match n with
  | O => Eps
  | S n' => opt (Cat r (upto n' r))
  end.

(** [r{lo,hi}] *)
Definition rep_range (lo hi : nat) (r : regex) : regex :=
  Cat (rep lo r) (upto (hi - lo) r).

(** The string without its last character when that is a line feed. *)
Fixpoint chop_final_newline (s : string) : option string :=
  match s with
  | EmptyString => None
  | String c EmptyString => if Ascii.eqb c LF then Some EmptyString else None
  | String c s' =>
      match chop_final_newline s' with
      | Some t => Some (String c t)
      | None => None
      end
  end.

(** [re.compile('^' r '$').match(s)]: [r] matches a prefix of [s] that
    ends at the end of [s] or just before a final line feed. *)
Definition py_match (r : regex) (s : string) : bool :=
  fullmatch r s ||
  match chop_final_newline s with
  | Some t => fullmatch r t
  | None => false
  end.

End Re.

(* ===================================================================== *)
(** ** ConfigNormalizer *)
(* ===================================================================== *)

Inductive ip_version : Type := ipv4 | ipv6.

Definition ip_version_eqb (a b : ip_version) : bool :=
  match a, b with
  | ipv4, ipv4 => true
  | ipv6, ipv6 => true
  | _, _ => false
  end.

Definition digit : Re.regex := Re.rng "0"%char "9"%char.

(** [CIDR_IPV4 = ^([0-9]{1,3}\.){3}[0-9]{1,3}/([0-9]|[1-2][0-9]|3[0-2])$] *)
Definition CIDR_IPV4 : Re.regex :=
  Re.Cat (Re.rep 3 (Re.Cat (Re.rep_range 1 3 digit) (Re.chr "."%char)))
    (Re.Cat (Re.rep_range 1 3 digit)
       (Re.Cat (Re.chr "/"%char)
          (Re.Alt digit
             (Re.Alt (Re.Cat (Re.rng "1"%char "2"%char) digit)
                     (Re.Cat (Re.chr "3"%char) (Re.rng "0"%char "2"%char)))))).

(** [CIDR_IPV6 = ^[0-9a-fA-F:]+/([0-9]|[1-9][0-9]|1[0-2][0-9])$] *)
Definition CIDR_IPV6 : Re.regex :=
  Re.Cat (Re.plus (Re.Cls [("0"%char, "9"%char); ("a"%char, "f"%char);
                           ("A"%char, "F"%char); (":"%char, ":"%char)]))
    (Re.Cat (Re.chr "/"%char)
       (Re.Alt digit
          (Re.Alt (Re.Cat (Re.rng "1"%char "9"%char) digit)
                  (Re.Cat (Re.chr "1"%char) (Re.Cat (Re.rng "0"%char "2"%char) digit))))).

(** [get_ip_version(cidr)].  Matching a pattern against a value that is
    not a string raises [TypeError]. *)
Definition get_ip_version (cidr : pyval) : outcome ip_version :=
  match cidr with
  | PyStr s =>
      if Re.py_match CIDR_IPV4 s then Ok ipv4
      else if Re.py_match CIDR_IPV6 s then Ok ipv6
      else Raise (ValueError (dquote ++ s ++ dquote ++ " is not a valid CIDR"))
  | _ => Raise (TypeError "expected string or bytes-like object")
  end.

(** [get_driver_options(driver_options)] *)
Definition get_driver_options (driver_options : option (list (scalar * scalar)))
  : dict string :=
  match driver_options with
  | None => []
  | Some items =>
      fold_left
        (fun result kv =>
           let v := match snd kv with
                    | SBool true => "true"
                    | SBool false => "false"
                    | v => py_str v
                    end in
           dict_set (py_str (fst kv)) v result)
        items []
  end.

(* ===================================================================== *)
(** ** Data model *)
(* ===================================================================== *)

(** A pool of the [ipam_config] option, and a pool of the inspection
    output: dictionaries from field name to value. *)
Definition pool : Type := dict pyval.

(** [net['IPAM']]: the driver and the list of pools ([Config] may be
    [None]). *)
Record ipam : Type := mk_ipam {
  ipam_Driver : string;
  ipam_Config : option (list pool)
}.

(** The inspection output of a network.  Optional keys are [None] when the
    key is missing.  [Containers] maps a container id to its name. *)
Record network : Type := mk_network {
  Id : string;
  Name : string;
  Driver : string;
  Options : option (dict string);
  IPAM : option ipam;
  EnableIPv6 : option bool;
  Internal : option bool;
  Scope : option string;
  Attachable : option bool;
  Containers : option (dict string)
}.

Inductive state_choice : Type := StPresent | StAbsent.

(** [client.module.params]: the validated module arguments. *)
Record module_params : Type := mk_params {
  p_network_name : string;
  p_connected : list string;
  p_state : state_choice;
  p_driver : option string;
  p_driver_options : option (list (scalar * scalar));
  p_force : bool;
  p_appends : bool;
  p_ipam_driver : option string;
  p_ipam_options : pool;
  p_ipam_config : option (list pool);
  p_enable_ipv6 : option bool;
  p_internal : option bool;
  p_debug : bool;
  p_scope : option string;
  p_attachable : option bool
}.

(** [TaskParameters]: the attributes of [self.parameters].  [driver_options]
    holds the normalized mapping once [__init__] has run. *)
Record TaskParameters : Type := mk_task {
  network_name : string;
  connected : list string;
  state : state_choice;
  driver : option string;
  driver_options : option (dict string);
  force : bool;
  appends : bool;
  ipam_driver : option string;
  ipam_options : pool;
  ipam_config : option (list pool);
  enable_ipv6 : option bool;
  internal : option bool;
  debug : bool;
  scope : option string;
  attachable : option bool
}.

(** Truth value of an optional string: [None] and [''] are false. *)
Definition str_truthy (o : option string) : bool :=
  match o with
  | Some s => negb (String.eqb s "")
  | None => false
  end.

(** Truth value of an optional list or dictionary. *)
Definition list_truthy {A : Type} (o : option (list A)) : bool :=
  match o with
  | Some (_ :: _) => true
  | _ => false
  end.

(** [container_names_in_network(network)] *)
Definition container_names_in_network (net : network) : list string :=
  if list_truthy (Containers net)
  then match Containers net with
       | Some cs => dict_values cs
       | None => []
       end
  else [].

(* --------------------------------------------------------------------- *)
(** *** DifferenceTracker *)

(** Values that are recorded as the [parameter] or [active] side of a
    difference. *)
Inductive diffval : Type :=
| DVal (v : pyval)
| DBool (b : bool)
| DIpam (i : ipam)
| DPools (l : list pool).

Definition DNone : diffval := DVal PyNone.
Definition DStr (s : string) : diffval := DVal (PyStr s).
Definition DOptStr (o : option string) : diffval :=
  match o with Some s => DStr s | None => DNone end.
Definition DOptBool (o : option bool) : diffval :=
  match o with Some b => DBool b | None => DNone end.

Record Difference : Type := mk_diff {
  d_name : string;
  d_parameter : diffval;
  d_active : diffval
}.

Module DifferenceTracker.

(** Modelled from the spec: the class [DifferenceTracker] of
    [ansible.module_utils.docker_common] is not part of the sources.  It
    accumulates (name, parameter, active) entries in order. *)
Definition t : Type := list Difference.

(** Modelled from the spec: a fresh tracker holds no difference. *)
Definition new : t := [].

(** Modelled from the spec: [add] appends a difference unconditionally. *)
Definition add (name : string) (parameter active : diffval) (tr : t) : t :=
  tr ++ [mk_diff name parameter active].

(** Modelled from the spec: [empty] tells whether no difference was
    recorded. *)
Definition empty (tr : t) : bool :=
  match tr with [] => true | _ => false end.

(** Modelled from the spec: [merge] concatenates the other tracker's
    entries after the receiver's. *)
Definition merge (tr other : t) : t := tr ++ other.

(** Modelled from the spec: the rendering of the entries for the result,
    in order. *)
Definition get_legacy_docker_diffs (tr : t) : list Difference := tr.

(** Modelled from the spec: the before snapshot maps each name to the
    active value, the after snapshot to the desired one. *)
Definition get_before_after (tr : t) : dict diffval * dict diffval :=
  (fold_left (fun d x => dict_set (d_name x) (d_active x) d) tr [],
   fold_left (fun d x => dict_set (d_name x) (d_parameter x) d) tr []).

End DifferenceTracker.

(* --------------------------------------------------------------------- *)
(** *** The exception monad of pure helpers *)

Definition obind {A B : Type} (o : outcome A) (f : A -> outcome B) : outcome B :=
  match o with
  | Ok a => f a
  | Fail m => Fail m
  | Raise e => Raise e
  end.

(** [try: ... except ValueError as e: self.client.fail(str(e))] *)
Definition except_ValueError_fail {A : Type} (o : outcome A) : outcome A :=
  match o with
  | Raise (ValueError m) => Fail m
  | _ => o
  end.

(** [d[k]], raising [KeyError] on a missing key. *)
Definition dict_item {V : Type} (k : string) (d : dict V) : outcome V :=
  match dict_get k d with
  | Some v => Ok v
  | None => Raise (KeyError k)
  end.

(* ===================================================================== *)
(** ** ConfigComparator: [has_different_config] *)
(* ===================================================================== *)

Import DifferenceTracker.

(** The per-key loop over [self.parameters.driver_options.items()]. *)
Definition driver_options_differences
  (opts : dict string) (net_options : dict string) (differences : t) : t :=
  fold_left
    (fun diffs kv =>
       let '(key, value) := kv in
       if negb (dict_mem key net_options) ||
          negb (match dict_get key net_options with
                | Some v => String.eqb value v
                | None => false
                end)
       then add ("driver_options." ++ key) (DStr value)
                (DOptStr (dict_get key net_options)) diffs
       else diffs)
    opts differences.

(** The inner loop [for net_ipam_config in net['IPAM']['Config']]. *)
Fixpoint scan_net_configs (ip : ip_version) (net_pools : list pool)
  (net_config : pool) : outcome pool :=
  match net_pools with
  | [] => Ok net_config
  | net_ipam_config :: rest =>
      obind (dict_item "Subnet" net_ipam_config) (fun subnet =>
      obind (get_ip_version subnet) (fun v =>
      scan_net_configs ip rest
        (if ip_version_eqb ip v then net_ipam_config else net_config)))
  end.

(** The [try] block: classify the desired subnet, then scan the observed
    pools. *)
Definition find_net_config (ipam_pool : pool) (net_pools : list pool)
  : outcome pool :=
  except_ValueError_fail
    (obind (dict_item "subnet" ipam_pool) (fun subnet =>
     obind (get_ip_version subnet) (fun ip =>
     scan_net_configs ip net_pools []))).

(** [for net_key in net_config: if key == net_key.lower(): ... break] *)
Fixpoint find_camelkey (key : string) (net_keys : list string) : option string :=
  match net_keys with
  | [] => None
  | net_key :: rest =>
      if String.eqb key (lower net_key) then Some net_key
      else find_camelkey key rest
  end.

(** The loop over [ipam_config.items()] for the pool at index [idx]. *)
Definition pool_differences (idx : nat) (ipam_pool : pool) (net_config : pool)
  (differences : t) : t :=
  fold_left
    (fun diffs kv =>
       let '(key, value) := kv in
       match value with
       | PyNone => diffs
       | _ =>
           let camelkey := find_camelkey key (dict_keys net_config) in
           let active :=
             match camelkey with
             | Some ck => if str_truthy (Some ck) then dict_get ck net_config else None
             | None => None
             end in
           if negb (str_truthy camelkey) ||
              negb (match camelkey with
                    | Some ck =>
                        match dict_get ck net_config with
                        | Some v => py_eqb v value
                        | None => false
                        end
                    | None => false
                    end)
           then add ("ipam_config[" ++ str_of_nat idx ++ "]." ++ key)
                    (DVal value)
                    (match active with Some v => DVal v | None => DNone end)
                    diffs
           else diffs
       end)
    ipam_pool differences.

(** [for idx, ipam_config in enumerate(self.parameters.ipam_config)] *)
Fixpoint ipam_config_differences (idx : nat) (pools : list pool)
  (net_pools : list pool) (differences : t) : outcome t :=
  match pools with
  | [] => Ok differences
  | ipam_pool :: rest =>
      obind (find_net_config ipam_pool net_pools) (fun net_config =>
      ipam_config_differences (S idx) rest net_pools
        (pool_differences idx ipam_pool net_config differences))
  end.

Definition opt_bool_neq (desired : option bool) (active : bool) : bool :=
  match desired with
  | Some b => negb (Bool.eqb b active)
  | None => false
  end.

Definition get_default {A : Type} (o : option A) (d : A) : A :=
  match o with Some a => a | None => d end.

(** The [driver] rule. *)
Definition compare_driver (p : TaskParameters) (net : network) (differences : t) : t :=
  match driver p with
  | Some d =>
      if str_truthy (Some d) && negb (String.eqb d (Driver net))
      then add "driver" (DStr d) (DStr (Driver net)) differences
      else differences
  | None => differences
  end.

(** The [driver_options] rule. *)
Definition compare_driver_options (p : TaskParameters) (net : network)
  (differences : t) : t :=
  match driver_options p with
  | Some (o :: os) =>
      if negb (list_truthy (Options net))
      then add "driver_options" (DVal (PyDict (o :: os)))
               (match Options net with
                | Some d => DVal (PyDict d)
                | None => DNone
                end) differences
      else driver_options_differences (o :: os)
             (get_default (Options net) []) differences
  | _ => differences
  end.

(** The [ipam_driver] rule. *)
Definition compare_ipam_driver (p : TaskParameters) (net : network)
  (differences : t) : t :=
  match ipam_driver p with
  | Some d =>
      if str_truthy (Some d) &&
         match IPAM net with
         | None => true
         | Some i => negb (String.eqb (ipam_Driver i) d)
         end
      then add "ipam_driver" (DStr d)
               (match IPAM net with Some i => DIpam i | None => DNone end)
               differences
      else differences
  | None => differences
  end.

(** The [ipam_config] rule, the only one that can fail. *)
Definition compare_ipam_config (p : TaskParameters) (net : network)
  (differences : t) : outcome t :=
  match ipam_config p with
  | Some (c :: cs) =>
      match IPAM net with
      | Some (mk_ipam _ (Some (n :: ns))) =>
          ipam_config_differences 0 (c :: cs) (n :: ns) differences
      | Some (mk_ipam _ active) =>
          Ok (add "ipam_config" (DPools (c :: cs))
                  (match active with Some l => DPools l | None => DNone end)
                  differences)
      | None =>
          Ok (add "ipam_config" (DPools (c :: cs)) DNone differences)
      end
  | _ => Ok differences
  end.

(** The [enable_ipv6], [internal], [scope] and [attachable] rules. *)
Definition compare_flags (p : TaskParameters) (net : network)
  (differences : t) : t :=
  let differences :=
    if opt_bool_neq (enable_ipv6 p) (get_default (EnableIPv6 net) false)
    then add "enable_ipv6" (DOptBool (enable_ipv6 p))
             (DBool (get_default (EnableIPv6 net) false)) differences
    else differences in
  let differences :=
    if opt_bool_neq (internal p) (get_default (Internal net) false)
    then add "internal" (DOptBool (internal p)) (DOptBool (Internal net))
             differences
    else differences in
  let differences :=
    match scope p with
    | Some sc =>
        if negb (match Scope net with
                 | Some a => String.eqb sc a
                 | None => false
                 end)
        then add "scope" (DStr sc) (DOptStr (Scope net)) differences
        else differences
    | None => differences
    end in
  if opt_bool_neq (attachable p) (get_default (Attachable net) false)
  then add "attachable" (DOptBool (attachable p)) (DOptBool (Attachable net))
           differences
  else differences.

(** [has_different_config(self, net)]: the pair of the flag and the
    tracker, a clean failure on a malformed CIDR, or an exception. *)
Definition has_different_config (p : TaskParameters) (net : network)
  : outcome (bool * t) :=
  let differences := new in
  let differences := compare_driver p net differences in
  let differences := compare_driver_options p net differences in
  let differences := compare_ipam_driver p net differences in
  obind (compare_ipam_config p net differences) (fun differences =>
  let differences := compare_flags p net differences in
  Ok (negb (empty differences), differences)).

(* ===================================================================== *)
(** ** The collaborator: the Docker client *)
(* ===================================================================== *)

(** The keyword arguments of [client.create_network]. *)
Record create_params : Type := mk_create_params {
  cp_driver : option string;
  cp_options : option (dict string);
  cp_ipam : option (option string * list pool);
  cp_enable_ipv6 : option bool;
  cp_internal : option bool;
  cp_scope : option string;
  cp_attachable : option bool
}.

(** The calls made on the client, in the order they are made. *)
Inductive call : Type :=
| CInspect (name_or_id : string)
| CCreate (name : string) (params : create_params)
| CRemove (name : string)
| CConnect (container name : string)
| CDisconnect (container name : string).

(** Versions as [LooseVersion] compares them: component by component. *)
Definition version : Type := list nat.

Fixpoint version_ltb (a b : version) : bool :=
  match a, b with
  | [], [] => false
  | [], _ :: _ => true
  | _ :: _, [] => false
  | x :: a', y :: b' =>
      if Nat.ltb x y then true
      else if Nat.ltb y x then false
      else version_ltb a' b'
  end.

Definition version_geb (a b : version) : bool := negb (version_ltb a b).

(** The operations of the remote API over an abstract world state.  Every
    operation may raise; a mutating one returns the next world. *)
Record DockerAPI (world : Type) : Type := mk_api {
  inspect_network : world -> string -> exn + network;
  create_network_call : world -> string -> create_params -> exn + (string * world);
  remove_network_call : world -> string -> exn + world;
  connect_container_to_network : world -> string -> string -> exn + world;
  disconnect_container_from_network : world -> string -> string -> exn + world
}.

(** What [AnsibleDockerClient] exposes besides the API calls. *)
Record AnsibleDockerClient : Type := mk_client {
  params : module_params;
  client_check_mode : bool;
  module_diff : bool;
  docker_py_version : version;
  docker_api_version : version;
  docker_api_version_str : string;
  docker_version : string
}.

(* ===================================================================== *)
(** ** The manager and its monad *)
(* ===================================================================== *)

Record diff_result_t : Type := mk_diff_result {
  dr_before : option (dict diffval);
  dr_after : option (dict diffval);
  dr_differences : option (list Difference)
}.

(** [self.results]; a key that is not set is [None]. *)
Record results_t : Type := mk_results {
  changed : bool;
  actions : option (list string);
  ansible_facts : option (option network);
  r_diff : option diff_result_t
}.

Record manager : Type := mk_manager {
  parameters : TaskParameters;
  check_mode : bool;
  results : results_t;
  diff : bool;
  diff_tracker : DifferenceTracker.t;
  diff_result : diff_result_t;
  existing_network : option network
}.

Definition set_results (r : results_t) (m : manager) : manager :=
  mk_manager (parameters m) (check_mode m) r (diff m) (diff_tracker m)
             (diff_result m) (existing_network m).
Definition set_parameters (p : TaskParameters) (m : manager) : manager :=
  mk_manager p (check_mode m) (results m) (diff m) (diff_tracker m)
             (diff_result m) (existing_network m).
Definition set_diff_tracker (t : DifferenceTracker.t) (m : manager) : manager :=
  mk_manager (parameters m) (check_mode m) (results m) (diff m) t
             (diff_result m) (existing_network m).
Definition set_diff_result (d : diff_result_t) (m : manager) : manager :=
  mk_manager (parameters m) (check_mode m) (results m) (diff m) (diff_tracker m)
             d (existing_network m).
Definition set_existing_network (n : option network) (m : manager) : manager :=
  mk_manager (parameters m) (check_mode m) (results m) (diff m) (diff_tracker m)
             (diff_result m) n.

Definition set_changed (b : bool) (r : results_t) : results_t :=
  mk_results b (actions r) (ansible_facts r) (r_diff r).
Definition set_actions (a : option (list string)) (r : results_t) : results_t :=
  mk_results (changed r) a (ansible_facts r) (r_diff r).
Definition set_ansible_facts (f : option (option network)) (r : results_t) : results_t :=
  mk_results (changed r) (actions r) f (r_diff r).
Definition set_r_diff (d : option diff_result_t) (r : results_t) : results_t :=
  mk_results (changed r) (actions r) (ansible_facts r) d.

Definition set_connected (c : list string) (p : TaskParameters) : TaskParameters :=
  mk_task (network_name p) c (state p) (driver p) (driver_options p) (force p)
          (appends p) (ipam_driver p) (ipam_options p) (ipam_config p)
          (enable_ipv6 p) (internal p) (debug p) (scope p) (attachable p).
Definition set_ipam_config (c : option (list pool)) (p : TaskParameters) : TaskParameters :=
  mk_task (network_name p) (connected p) (state p) (driver p) (driver_options p)
          (force p) (appends p) (ipam_driver p) (ipam_options p) c
          (enable_ipv6 p) (internal p) (debug p) (scope p) (attachable p).
Definition set_driver_options (o : option (dict string)) (p : TaskParameters) : TaskParameters :=
  mk_task (network_name p) (connected p) (state p) (driver p) o
          (force p) (appends p) (ipam_driver p) (ipam_options p) (ipam_config p)
          (enable_ipv6 p) (internal p) (debug p) (scope p) (attachable p).

Section Manager.

Variable world : Type.
Variable api : DockerAPI world.

(** The machine state of a pass: the manager object, the remote world and
    the log of client calls. *)
Record st : Type := mk_st {
  mgr : manager;
  remote : world;
  calls : list call
}.

(** Computations keep the state reached when they fail or raise. *)
Definition M (A : Type) : Type := st -> outcome A * st.

Definition ret {A : Type} (a : A) : M A := fun s => (Ok a, s).

Definition bind {A B : Type} (c : M A) (f : A -> M B) : M B :=
  fun s =>
    match c s with
    | (Ok a, s') => f a s'
    | (Fail m, s') => (Fail m, s')
    | (Raise e, s') => (Raise e, s')
    end.

Definition fail {A : Type} (msg : string) : M A := fun s => (Fail msg, s).
Definition raise {A : Type} (e : exn) : M A := fun s => (Raise e, s).

Definition lift {A : Type} (o : outcome A) : M A := fun s => (o, s).

Definition self : M manager := fun s => (Ok (mgr s), s).

Definition update (f : manager -> manager) : M unit :=
  fun s => (Ok tt, mk_st (f (mgr s)) (remote s) (calls s)).

Definition when (b : bool) (c : M unit) : M unit :=
  if b then c else ret tt.

(** [for x in l: body(x)] *)
Fixpoint for_each {A : Type} (l : list A) (body : A -> M unit) : M unit :=
  match l with
  | [] => ret tt
  | x :: l' => bind (body x) (fun _ => for_each l' body)
  end.

(** A reading call: logged, the world is unchanged. *)
Definition client_read (c : call) (f : world -> exn + network) : M network :=
  fun s =>
    let s' := mk_st (mgr s) (remote s) (calls s ++ [c]) in
    match f (remote s) with
    | inr n => (Ok n, s')
    | inl e => (Raise e, s')
    end.

(** A mutating call: logged, the world advances when it succeeds. *)
Definition client_write {A : Type} (c : call) (f : world -> exn + (A * world))
  : M A :=
  fun s =>
    match f (remote s) with
    | inr (a, w) => (Ok a, mk_st (mgr s) w (calls s ++ [c]))
    | inl e => (Raise e, mk_st (mgr s) (remote s) (calls s ++ [c]))
    end.

Definition unit_call (r : exn + world) : exn + (unit * world) :=
  match r with
  | inr w => inr (tt, w)
  | inl e => inl e
  end.

End Manager.

Arguments ret {world A} a.
Arguments fail {world A} msg.
Arguments raise {world A} e.
Arguments lift {world A} o.
Arguments self {world}.
Arguments update {world} f.

Declare Scope m_scope.
Delimit Scope m_scope with M.
Notation "x <- c ;; k" := (bind c (fun x => k))
  (at level 61, c at next level, right associativity) : m_scope.
Notation "c ;;; k" := (bind c (fun _ => k))
  (at level 61, right associativity) : m_scope.

(* ===================================================================== *)
(** ** DockerNetworkManager *)
(* ===================================================================== *)

(** ['%s' % v] for an optional string. *)
Definition fmt_opt (o : option string) : string :=
  match o with Some s => s | None => "None" end.

Definition fmt_version (v : version) : string :=
  String.concat "." (map str_of_nat v).

(** The version check of one option that carries both minimal versions and
    neither [detect_usage] nor [usage_msg] nor a default. *)
Definition minimal_version_check (client : AnsibleDockerClient)
  (option_name : string) (used : bool) (py_min api_min : version)
  : outcome unit :=
  let support_docker_py := version_geb (docker_py_version client) py_min in
  let support_docker_api := version_geb (docker_api_version client) api_min in
  if support_docker_py && support_docker_api then Ok tt
  else if used then
    let usg := ("set " ++ option_name ++ " option")%string in
    if negb support_docker_api then
      Fail ("docker API version is " ++ docker_api_version_str client ++
            ". Minimum version required is " ++ fmt_version api_min ++
            " to " ++ usg ++ ".")
    else if version_ltb py_min [2; 0; 0] then
      Fail ("docker-py version is " ++ docker_version client ++
            ". Minimum version required is " ++ fmt_version py_min ++
            " to " ++ usg ++ ". " ++
            "Consider switching to the 'docker' package if you do not require Python 2.6 support.")
    else if version_ltb (docker_py_version client) [2; 0; 0] then
      Fail ("docker-py version is " ++ docker_version client ++
            ". Minimum version required is " ++ fmt_version py_min ++
            " to " ++ usg ++ ". " ++
            "You have to switch to the Python 'docker' package. First uninstall 'docker-py' before " ++
            "installing 'docker' to avoid a broken installation.")
    else
      Fail ("docker version is " ++ docker_version client ++
            ". Minimum version required is " ++ fmt_version py_min ++
            " to " ++ usg ++ ".")
  else Ok tt.

Definition is_some {A : Type} (o : option A) : bool :=
  match o with Some _ => true | None => false end.

(** [_get_minimal_versions]: only [scope] and [attachable] carry minimal
    versions; every other option is supported. *)
Definition _get_minimal_versions (client : AnsibleDockerClient) : outcome unit :=
  obind (minimal_version_check client "scope"
           (is_some (p_scope (params client))) [2; 6; 0] [1; 30]) (fun _ =>
  minimal_version_check client "attachable"
    (is_some (p_attachable (params client))) [2; 0; 0] [1; 26]).

(** [TaskParameters(client)]: every module argument becomes an attribute.
    The raw [driver_options] stay raw until [__init__] normalizes them;
    an empty or missing mapping is kept as it is. *)
Definition TaskParameters_init (mp : module_params) : TaskParameters :=
  mk_task (p_network_name mp) (p_connected mp) (p_state mp) (p_driver mp)
          (match p_driver_options mp with
           | None => None
           | Some [] => Some []
           | Some (kv :: items) => Some (get_driver_options (Some (kv :: items)))
           end)
          (p_force mp) (p_appends mp) (p_ipam_driver mp) (p_ipam_options mp)
          (p_ipam_config mp) (p_enable_ipv6 mp) (p_internal mp) (p_debug mp)
          (p_scope mp) (p_attachable mp).

Section Methods.

Variable world : Type.
Variable api : DockerAPI world.

Local Open Scope m_scope.

(** [self.results['actions'].append(a)] *)
Definition append_action (a : string) : M world unit :=
  m <- self ;;
  match actions (results m) with
  | Some l => update (set_results (set_actions (Some (l ++ [a])) (results m)))
  | None => raise (KeyError "actions")
  end.

(** [self.results['changed'] = True] *)
Definition mark_changed : M world unit :=
  update (fun m => set_results (set_changed true (results m)) m).

(** [self.diff_tracker.add(name, parameter=p, active=a)] *)
Definition track (name : string) (p a : diffval) : M world unit :=
  update (fun m => set_diff_tracker (DifferenceTracker.add name p a (diff_tracker m)) m).

(** [get_existing_network]: [NotFound] is a normal outcome. *)
Definition get_existing_network : M world (option network) :=
  m <- self ;;
  fun s =>
    match client_read (CInspect (network_name (parameters m)))
            (fun w => inspect_network api w (network_name (parameters m))) s with
    | (Ok n, s') => (Ok (Some n), s')
    | (Raise (NotFound _), s') => (Ok None, s')
    | (Raise e, s') => (Raise e, s')
    | (Fail msg, s') => (Fail msg, s')
    end.

(** The [params] dictionary built by [create_network]. *)
Definition build_create_params (p : TaskParameters) : create_params :=
  let ipam_pools := match ipam_config p with Some l => l | None => [] end in
  mk_create_params (driver p) (driver_options p)
    (if str_truthy (ipam_driver p) || list_truthy (Some ipam_pools)
     then Some (ipam_driver p, ipam_pools) else None)
    (enable_ipv6 p) (internal p) (scope p) (attachable p).

Definition create_network : M world unit :=
  m <- self ;;
  when (negb (is_some (existing_network m)))
    (let p := parameters m in
     let params := build_create_params p in
     when (negb (check_mode m))
       (resp_id <- client_write (CCreate (network_name p) params)
                     (fun w => create_network_call api w (network_name p) params) ;;
        n <- client_read (CInspect resp_id)
               (fun w => inspect_network api w resp_id) ;;
        update (set_existing_network (Some n))) ;;;
     append_action ("Created network " ++ network_name p ++
                    " with driver " ++ fmt_opt (driver p)) ;;;
     mark_changed).

Definition disconnect_container (container_name : string) : M world unit :=
  m <- self ;;
  when (negb (check_mode m))
    (client_write (CDisconnect container_name (network_name (parameters m)))
       (fun w => unit_call (disconnect_container_from_network api w
                              container_name (network_name (parameters m))))) ;;;
  append_action ("Disconnected container " ++ container_name) ;;;
  mark_changed ;;;
  track ("connected." ++ container_name) (DBool false) (DBool true).

Definition disconnect_all_containers : M world unit :=
  m <- self ;;
  n <- client_read (CInspect (network_name (parameters m)))
         (fun w => inspect_network api w (network_name (parameters m))) ;;
  match Containers n with
  | Some (c :: cs) =>
      for_each (dict_values (c :: cs)) disconnect_container
  | _ => ret tt
  end.

Definition remove_network : M world unit :=
  m <- self ;;
  when (is_some (existing_network m))
    (disconnect_all_containers ;;;
     when (negb (check_mode m))
       (client_write (CRemove (network_name (parameters m)))
          (fun w => unit_call (remove_network_call api w
                                 (network_name (parameters m))))) ;;;
     append_action ("Removed network " ++ network_name (parameters m)) ;;;
     mark_changed).

(** [container_name in container_names_in_network(self.existing_network)];
    subscripting [None] raises [TypeError]. *)
Definition is_container_connected (container_name : string) : M world bool :=
  m <- self ;;
  match existing_network m with
  | Some n =>
      ret (existsb (String.eqb container_name) (container_names_in_network n))
  | None => raise (TypeError "'NoneType' object is not subscriptable")
  end.

Definition connect_containers : M world unit :=
  m <- self ;;
  for_each (connected (parameters m)) (fun name =>
    c <- is_container_connected name ;;
    when (negb c)
      (m <- self ;;
       when (negb (check_mode m))
         (client_write (CConnect name (network_name (parameters m)))
            (fun w => unit_call (connect_container_to_network api w
                                   name (network_name (parameters m))))) ;;;
       append_action ("Connected container " ++ name) ;;;
       mark_changed ;;;
       track ("connected." ++ name) (DBool true) (DBool false))).

Definition disconnect_missing : M world unit :=
  m <- self ;;
  match existing_network m with
  | None => ret tt
  | Some n =>
      match Containers n with
      | Some (c :: cs) =>
          for_each (dict_values (c :: cs)) (fun name =>
            m <- self ;;
            when (negb (existsb (String.eqb name) (connected (parameters m))))
              (disconnect_container name))
      | _ => ret tt
      end
  end.

Definition present : M world unit :=
  m <- self ;;
  dd <- match existing_network m with
        | Some n => lift (has_different_config (parameters m) n)
        | None => ret (false, DifferenceTracker.new)
        end ;;
  let '(different, differences) := dd in
  track "exists" (DBool true) (DBool (is_some (existing_network m))) ;;;
  when (force (parameters m) || different)
    (remove_network ;;;
     update (set_existing_network None)) ;;;
  create_network ;;;
  connect_containers ;;;
  when (negb (appends (parameters m))) disconnect_missing ;;;
  when (diff m || check_mode m || debug (parameters m))
    (update (fun m =>
       set_diff_tracker (DifferenceTracker.merge (diff_tracker m) differences)
         (set_diff_result
            (mk_diff_result (dr_before (diff_result m)) (dr_after (diff_result m))
               (Some (DifferenceTracker.get_legacy_docker_diffs differences)))
            m))) ;;;
  when (negb (check_mode m) && negb (debug (parameters m)))
    (m <- self ;;
     match actions (results m) with
     | Some _ => update (set_results (set_actions None (results m)))
     | None => raise (KeyError "actions")
     end) ;;;
  facts <- get_existing_network ;;
  update (fun m => set_results (set_ansible_facts (Some facts) (results m)) m).

Definition absent : M world unit :=
  m <- self ;;
  track "exists" (DBool false) (DBool (is_some (existing_network m))) ;;;
  remove_network.

(** The legacy [ipam_options] block is used when one of its fields is
    set. *)
Definition ipam_options_used (o : pool) : outcome bool :=
  obind (dict_item "subnet" o) (fun a =>
  if py_truthy a then Ok true else
  obind (dict_item "iprange" o) (fun b =>
  if py_truthy b then Ok true else
  obind (dict_item "gateway" o) (fun c =>
  if py_truthy c then Ok true else
  obind (dict_item "aux_addresses" o) (fun d =>
  Ok (py_truthy d))))).

(** The first statements of [DockerNetworkManager.__init__] once the
    attributes are set: the version check, the fetch of the existing network
    and the seeding of [connected]. *)
Definition init_prologue (client : AnsibleDockerClient) : M world unit :=
  lift (_get_minimal_versions client) ;;;
  e <- get_existing_network ;;
  update (set_existing_network e) ;;;
  m <- self ;;
  when (match connected (parameters m) with [] => true | _ => false end
        && is_some (existing_network m))
    (update (fun m =>
       set_parameters
         (set_connected
            (match existing_network m with
             | Some n => container_names_in_network n
             | None => []
             end) (parameters m)) m)).

(** The rest of [__init__]: the legacy IPAM block, the dispatch on [state]
    and the assembly of the diff. *)
Definition init_dispatch : M world unit :=
  m <- self ;;
  used <- lift (ipam_options_used (ipam_options (parameters m))) ;;
  when used
    (update (fun m =>
       set_parameters
         (set_ipam_config (Some [ipam_options (parameters m)]) (parameters m)) m)) ;;;
  m <- self ;;
  match state (parameters m) with
  | StPresent => present
  | StAbsent => absent
  end ;;;
  m <- self ;;
  when (diff m || check_mode m || debug (parameters m))
    (when (diff m)
       (update (fun m =>
          let ba := DifferenceTracker.get_before_after (diff_tracker m) in
          set_diff_result
            (mk_diff_result (Some (fst ba)) (Some (snd ba))
               (dr_differences (diff_result m))) m)) ;;;
     update (fun m =>
       set_results (set_r_diff (Some (diff_result m)) (results m)) m)).

(** [DockerNetworkManager.__init__], after the attributes are set. *)
Definition init_body (client : AnsibleDockerClient) : M world unit :=
  init_prologue client ;;; init_dispatch.

(** The manager object as [__init__] first sets it up. *)
Definition new_manager (client : AnsibleDockerClient) : manager :=
  mk_manager (TaskParameters_init (params client)) (client_check_mode client)
    (mk_results false (Some []) None None)
    (module_diff client) DifferenceTracker.new
    (mk_diff_result None None None) None.

(** [cm = DockerNetworkManager(client)] followed by
    [client.module.exit_json( **cm.results )]: the outcome carries the
    results handed to [exit_json]; the state keeps the world and the log
    of calls. *)
Definition main (client : AnsibleDockerClient) (w : world)
  : outcome results_t * st world :=
  (init_body client ;;; m <- self ;; ret (results m))
    (mk_st (new_manager client) w []).

End Methods.

Arguments append_action {world} a.
Arguments mark_changed {world}.
Arguments track {world} name p a.
Arguments is_container_connected {world} container_name.

(* ===================================================================== *)
(** ** A reference daemon *)
(* ===================================================================== *)

(** An instance of the collaborator on which the manager can be run: the
    world is the list of networks the daemon holds.  It plays the role of
    the Docker daemon in the examples below; the general theorems do not
    depend on it. *)
Module Daemon.

Definition world : Type := list network.

Definition named (s : string) (n : network) : bool :=
  String.eqb s (Name n) || String.eqb s (Id n).

Definition inspect (w : world) (s : string) : exn + network :=
  match find (named s) w with
  | Some n => inr n
  | None => inl (NotFound s)
  end.

(** The daemon reports pools under its own capitalized field names and
    leaves out the fields that were not given. *)
Definition observed_key (k : string) : string :=
  if String.eqb k "subnet" then "Subnet"
  else if String.eqb k "iprange" then "IPRange"
  else if String.eqb k "gateway" then "Gateway"
  else if String.eqb k "aux_addresses" then "AuxiliaryAddresses"
  else k.

Definition observed_pool (p : pool) : pool :=
  map (fun kv => (observed_key (fst kv), snd kv))
      (filter (fun kv => match snd kv with PyNone => false | _ => true end) p).

Definition with_containers (cs : option (dict string)) (n : network) : network :=
  mk_network (Id n) (Name n) (Driver n) (Options n) (IPAM n) (EnableIPv6 n)
             (Internal n) (Scope n) (Attachable n) cs.

Definition create (w : world) (name : string) (cp : create_params)
  : exn + (string * world) :=
  match find (named name) w with
  | Some _ => inl (APIError ("network with name " ++ name ++ " already exists"))
  | None =>
      let id := ("id-" ++ name)%string in
      let n :=
        mk_network id name
          (match cp_driver cp with Some d => d | None => "bridge" end)
          (Some (match cp_options cp with Some o => o | None => [] end))
          (Some (match cp_ipam cp with
                 | Some (d, pools) =>
                     mk_ipam (match d with Some x => x | None => "default" end)
                             (Some (map observed_pool pools))
                 | None => mk_ipam "default" (Some [])
                 end))
          (Some (match cp_enable_ipv6 cp with Some b => b | None => false end))
          (Some (match cp_internal cp with Some b => b | None => false end))
          (Some (match cp_scope cp with Some s => s | None => "local" end))
          (Some (match cp_attachable cp with Some b => b | None => false end))
          (Some []) in
      inr (id, w ++ [n])
  end.

Definition remove (w : world) (name : string) : exn + world :=
  match find (named name) w with
  | Some n =>
      match Containers n with
      | Some (_ :: _) => inl (APIError ("network " ++ name ++ " has active endpoints"))
      | _ => inr (filter (fun x => negb (named name x)) w)
      end
  | None => inl (NotFound name)
  end.

Definition update_network (name : string) (f : network -> network) (w : world)
  : world :=
  map (fun n => if named name n then f n else n) w.

Definition connect (w : world) (container name : string) : exn + world :=
  match find (named name) w with
  | Some n =>
      let cs := match Containers n with Some cs => cs | None => [] end in
      if existsb (String.eqb container) (dict_values cs)
      then inl (APIError ("endpoint " ++ container ++ " already exists"))
      else inr (update_network name
                  (with_containers (Some (cs ++ [(("id-" ++ container)%string, container)]))) w)
  | None => inl (NotFound name)
  end.

Definition disconnect (w : world) (container name : string) : exn + world :=
  match find (named name) w with
  | Some n =>
      let cs := match Containers n with Some cs => cs | None => [] end in
      if existsb (String.eqb container) (dict_values cs)
      then inr (update_network name
                  (with_containers
                     (Some (filter (fun kv => negb (String.eqb container (snd kv))) cs))) w)
      else inl (APIError ("container " ++ container ++ " is not connected"))
  | None => inl (NotFound name)
  end.

Definition api : DockerAPI world :=
  mk_api inspect create remove connect disconnect.

(** A client of a recent SDK and daemon. *)
Definition client (mp : module_params) (check diff_mode : bool) : AnsibleDockerClient :=
  mk_client mp check diff_mode [3; 7; 0] [1; 40] "1.40" "3.7.0".

(** The [ipam_options] default once the argument spec has filled in the
    sub-options. *)
Definition no_ipam_options : pool :=
  [("subnet", PyNone); ("iprange", PyNone); ("gateway", PyNone);
   ("aux_addresses", PyNone)].

(** Module arguments with every default applied. *)
Definition defaults (name : string) : module_params :=
  mk_params name [] StPresent (Some "bridge") (Some []) false false None
            no_ipam_options None None None false None None.

Definition with_connected (c : list string) (mp : module_params) : module_params :=
  mk_params (p_network_name mp) c (p_state mp) (p_driver mp)
    (p_driver_options mp) (p_force mp) (p_appends mp) (p_ipam_driver mp)
    (p_ipam_options mp) (p_ipam_config mp) (p_enable_ipv6 mp) (p_internal mp)
    (p_debug mp) (p_scope mp) (p_attachable mp).

Definition with_state (s : state_choice) (mp : module_params) : module_params :=
  mk_params (p_network_name mp) (p_connected mp) s (p_driver mp)
    (p_driver_options mp) (p_force mp) (p_appends mp) (p_ipam_driver mp)
    (p_ipam_options mp) (p_ipam_config mp) (p_enable_ipv6 mp) (p_internal mp)
    (p_debug mp) (p_scope mp) (p_attachable mp).

Definition with_force (b : bool) (mp : module_params) : module_params :=
  mk_params (p_network_name mp) (p_connected mp) (p_state mp) (p_driver mp)
    (p_driver_options mp) b (p_appends mp) (p_ipam_driver mp)
    (p_ipam_options mp) (p_ipam_config mp) (p_enable_ipv6 mp) (p_internal mp)
    (p_debug mp) (p_scope mp) (p_attachable mp).

Definition with_driver (d : option string) (mp : module_params) : module_params :=
  mk_params (p_network_name mp) (p_connected mp) (p_state mp) d
    (p_driver_options mp) (p_force mp) (p_appends mp) (p_ipam_driver mp)
    (p_ipam_options mp) (p_ipam_config mp) (p_enable_ipv6 mp) (p_internal mp)
    (p_debug mp) (p_scope mp) (p_attachable mp).

(** A bridge network [net1] with containers [a] and [b]. *)
Definition net1 : network :=
  mk_network "id-net1" "net1" "bridge" (Some [])
    (Some (mk_ipam "default" (Some [[("Subnet", PyStr "172.18.0.0/16");
                                     ("Gateway", PyStr "172.18.0.1")]])))
    (Some false) (Some false) (Some "local") (Some false)
    (Some [("id-a", "a"); ("id-b", "b")]).

Definition with_debug (b : bool) (mp : module_params) : module_params :=
  mk_params (p_network_name mp) (p_connected mp) (p_state mp) (p_driver mp)
    (p_driver_options mp) (p_force mp) (p_appends mp) (p_ipam_driver mp)
    (p_ipam_options mp) (p_ipam_config mp) (p_enable_ipv6 mp) (p_internal mp)
    b (p_scope mp) (p_attachable mp).

(** The results of a pass that returned. *)
Definition results_of (r : outcome results_t * st world) : results_t :=
  match fst r with
  | Ok res => res
  | _ => mk_results false None None None
  end.

Definition with_appends (b : bool) (mp : module_params) : module_params :=
  mk_params (p_network_name mp) (p_connected mp) (p_state mp) (p_driver mp)
    (p_driver_options mp) (p_force mp) b (p_ipam_driver mp)
    (p_ipam_options mp) (p_ipam_config mp) (p_enable_ipv6 mp) (p_internal mp)
    (p_debug mp) (p_scope mp) (p_attachable mp).

(** A manager in additive mode that found [net1] and wants [a] and [c]
    connected. *)
Definition sync_state : st world :=
  mk_st (set_existing_network (Some net1)
           (new_manager
              (client (with_appends true
                         (with_connected ["a"; "c"] (defaults "net1")))
                      false false)))
        [net1] [CInspect "net1"].

(** What a pass hands back: the changed flag, the action log, and the
    driver and members of the network in the facts. *)
Definition summary (r : outcome results_t * st world)
  : outcome (bool * option (list string) * option (string * list string)) :=
  match fst r with
  | Ok res =>
      Ok (changed res, actions res,
          match ansible_facts res with
          | Some (Some n) => Some (Driver n, container_names_in_network n)
          | _ => None
          end)
  | Fail m => Fail m
  | Raise e => Raise e
  end.

End Daemon.

(* ===================================================================== *)
(** ** Notions used to state the properties *)
(* ===================================================================== *)

(** *** Normalization and comparison *)

(** A normalized mapping handed back as raw input: every key and value is
    a string. *)
Definition as_raw (d : dict string) : list (scalar * scalar) :=
  map (fun kv => (SStr (fst kv), SStr (snd kv))) d.

(** One iteration of the loop of [get_driver_options]. *)
Definition driver_option_step (result : dict string) (kv : scalar * scalar)
  : dict string :=
  dict_set (py_str (fst kv))
    (match snd kv with
     | SBool true => "true"
     | SBool false => "false"
     | v => py_str v
     end) result.

(** The family of an observed pool, as the scan computes it. *)
Definition net_family (np : pool) : outcome ip_version :=
  obind (dict_item "Subnet" np) get_ip_version.

(** The observed pool has a well-formed subnet of family [ip]. *)
Definition same_family (ip : ip_version) (np : pool) : bool :=
  match net_family np with
  | Ok v => ip_version_eqb ip v
  | _ => false
  end.

(** The observed pool has a well-formed subnet. *)
Definition classified (np : pool) : Prop := exists v, net_family np = Ok v.

(** The difference [d] is about a field whose desired value is set in [p],
    and carries that value as its [parameter]. *)
Inductive desired_value_set (p : TaskParameters) : Difference -> Prop :=
| dvs_driver d a :
    driver p = Some d -> d <> "" ->
    desired_value_set p (mk_diff "driver" (DStr d) a)
| dvs_driver_options o a :
    driver_options p = Some o -> o <> [] ->
    desired_value_set p (mk_diff "driver_options" (DVal (PyDict o)) a)
| dvs_driver_option o k v a :
    driver_options p = Some o -> In (k, v) o ->
    desired_value_set p (mk_diff ("driver_options." ++ k) (DStr v) a)
| dvs_ipam_driver d a :
    ipam_driver p = Some d -> d <> "" ->
    desired_value_set p (mk_diff "ipam_driver" (DStr d) a)
| dvs_ipam_config pools a :
    ipam_config p = Some pools -> pools <> [] ->
    desired_value_set p (mk_diff "ipam_config" (DPools pools) a)
| dvs_pool_field pools idx ipam_pool k v a :
    ipam_config p = Some pools -> nth_error pools idx = Some ipam_pool ->
    In (k, v) ipam_pool -> v <> PyNone ->
    desired_value_set p
      (mk_diff ("ipam_config[" ++ str_of_nat idx ++ "]." ++ k) (DVal v) a)
| dvs_enable_ipv6 b a :
    enable_ipv6 p = Some b ->
    desired_value_set p (mk_diff "enable_ipv6" (DBool b) a)
| dvs_internal b a :
    internal p = Some b ->
    desired_value_set p (mk_diff "internal" (DBool b) a)
| dvs_scope s a :
    scope p = Some s ->
    desired_value_set p (mk_diff "scope" (DStr s) a)
| dvs_attachable b a :
    attachable p = Some b ->
    desired_value_set p (mk_diff "attachable" (DBool b) a).

(** No comparable field of the desired spec is set. *)
Definition all_unset (p : TaskParameters) : Prop :=
  str_truthy (driver p) = false /\
  list_truthy (driver_options p) = false /\
  str_truthy (ipam_driver p) = false /\
  list_truthy (ipam_config p) = false /\
  enable_ipv6 p = None /\ internal p = None /\
  scope p = None /\ attachable p = None.

(** The tracker only holds differences about fields that are set. *)
Definition sound_for (p : TaskParameters) (differences : DifferenceTracker.t) : Prop :=
  Forall (desired_value_set p) differences.

(** *** CIDR classification in the specification's reading *)

Module CidrSpec.

Definition is_digit (c : ascii) : bool :=
  Nat.leb 48 (nat_of_ascii c) && Nat.leb (nat_of_ascii c) 57.

Definition is_hex_or_colon (c : ascii) : bool :=
  is_digit c ||
  (Nat.leb 97 (nat_of_ascii c) && Nat.leb (nat_of_ascii c) 102) ||
  (Nat.leb 65 (nat_of_ascii c) && Nat.leb (nat_of_ascii c) 70) ||
  Ascii.eqb c ":".

Fixpoint all_chars (f : ascii -> bool) (s : string) : bool :=
  match s with
  | EmptyString => true
  | String c s' => f c && all_chars f s'
  end.

(** The pieces of [s] between the occurrences of [sep]. *)
Fixpoint split_on (sep : ascii) (s : string) : list string :=
  match s with
  | EmptyString => [EmptyString]
  | String c s' =>
      if Ascii.eqb c sep then EmptyString :: split_on sep s'
      else match split_on sep s' with
           | piece :: pieces => String c piece :: pieces
           | [] => [String c EmptyString]
           end
  end.

(** The value of a string of decimal digits. *)
Fixpoint decimal_value (acc : nat) (s : string) : nat :=
  match s with
  | EmptyString => acc
  | String c s' => decimal_value (10 * acc + (nat_of_ascii c - 48)) s'
  end.

(** A group of one to three digits. *)
Definition digit_group (s : string) : bool :=
  all_chars is_digit s && Nat.leb 1 (String.length s) && Nat.leb (String.length s) 3.

(** A prefix length written in decimal, without sign or leading zero, that
    is at most [bound]. *)
Definition prefix_length_upto (bound : nat) (s : string) : bool :=
  digit_group s &&
  match s with
  | String "0" (String _ _) => false
  | _ => true
  end &&
  Nat.leb (decimal_value 0 s) bound.

(** The classification in the words of the specification: four
    dot-separated groups of one to three digits with a prefix length from
    0 to 32 are IPv4; a string of hexadecimal digits and colons with a
    prefix length from 0 to 128 is IPv6; anything else is invalid. *)
Definition classifyCidr (cidr : string) : option ip_version :=
  match split_on "/" cidr with
  | [address; prefix_length] =>
      if match split_on "." address with
         | [a; b; c; d] =>
             digit_group a && digit_group b && digit_group c && digit_group d
         | _ => false
         end && prefix_length_upto 32 prefix_length
      then Some ipv4
      else if all_chars is_hex_or_colon address &&
              Nat.leb 1 (String.length address) &&
              prefix_length_upto 128 prefix_length
      then Some ipv6
      else None
  | _ => None
  end.

End CidrSpec.

(** *** Membership plan and ordering of calls *)

(** The membership plan in the words of the specification: the desired
    members that are not observed, in the order given, and, unless the
    mode is additive, the observed members that are not desired. *)
Definition planMembership (desiredMembers observedMembers : list string)
  (additive : bool) : list string * list string :=
  (filter (fun x => negb (existsb (String.eqb x) observedMembers)) desiredMembers,
   if additive then []
   else filter (fun x => negb (existsb (String.eqb x) desiredMembers)) observedMembers).

(** A mutating call, as opposed to an inspection. *)
Definition is_mutation (c : call) : bool :=
  match c with CInspect _ => false | _ => true end.

(** The mutating calls of a log, in order. *)
Definition mutations (l : list call) : list call := filter is_mutation l.

(** In the log [l] every call that satisfies [Q] comes after some call that
    satisfies [P]. *)
Definition precedes (P Q : call -> Prop) (l : list call) : Prop :=
  forall l1 y l2, l = l1 ++ y :: l2 -> Q y -> exists x, In x l1 /\ P x.

Definition removes_network (c : call) : Prop :=
  match c with CRemove _ => True | _ => False end.
Definition creates_network (c : call) : Prop :=
  match c with CCreate _ _ => True | _ => False end.
Definition connects_member (c : call) : Prop :=
  match c with CConnect _ _ => True | _ => False end.

(** Disconnect-before-delete for every member in [members],
    delete-before-create and create-before-connect. *)
Definition recreation_order (name : string) (members : list string)
  (l : list call) : Prop :=
  (forall c, In c members ->
             precedes (eq (CDisconnect c name)) removes_network l) /\
  precedes (eq (CRemove name)) creates_network l /\
  precedes creates_network connects_member l.

(** The mutating calls of a recreation, in order. *)
Definition recreation_plan (name : string) (members : list string)
  (cp : create_params) (cs ds : list string) : list call :=
  map (fun c => CDisconnect c name) members ++ [CRemove name] ++
  [CCreate name cp] ++
  map (fun c => CConnect c name) cs ++ map (fun c => CDisconnect c name) ds.

(** *** Runs of the manager *)

Section Contracts.
Variable world : Type.
Variable api : DockerAPI world.

(** What a run from [s] to [s'] did: the client calls [evs] it made, the
    entries [acts] it appended to the action log, and what it left alone. *)
Record effect (s s' : st world) (evs : list call) (acts : list string) : Prop :=
  mk_effect {
    eff_calls : calls s' = calls s ++ evs;
    eff_parameters : parameters (mgr s') = parameters (mgr s);
    eff_check_mode : check_mode (mgr s') = check_mode (mgr s);
    eff_diff : diff (mgr s') = diff (mgr s);
    eff_actions : forall l, actions (results (mgr s)) = Some l ->
                            actions (results (mgr s')) = Some (l ++ acts);
    eff_changed : changed (results (mgr s')) =
                  changed (results (mgr s)) ||
                  match acts with [] => false | _ => true end;
    eff_facts : ansible_facts (results (mgr s')) = ansible_facts (results (mgr s))
  }.

(** The run did not touch [self.existing_network]. *)
Definition same_network (s s' : st world) : Prop :=
  existing_network (mgr s') = existing_network (mgr s).

(** The action log is still in the results. *)
Definition has_actions (s : st world) : Prop :=
  exists l, actions (results (mgr s)) = Some l.

(** The result of a loop that acts on the elements [planned], making the
    call [ev x] and logging [msg x] for each: either it went through all of
    them, or a call raised; the failed call is in the log of calls, its
    entry is not in the action log. *)
Definition loop_result {A : Type} (ev : A -> call) (msg : A -> string)
  (planned : list A) (s : st world) (o : outcome unit) (s' : st world) : Prop :=
  same_network s s' /\
  ((o = Ok tt /\
    effect s s' (if check_mode (mgr s) then [] else map ev planned)
                (map msg planned)) \/
   (exists e done x rest,
       o = Raise e /\ check_mode (mgr s) = false /\
       planned = done ++ x :: rest /\
       effect s s' (map ev (done ++ [x])) (map msg done))).

(** The result of one such action. *)
Definition step_result (ev : call) (msg : string)
  (s : st world) (o : outcome unit) (s' : st world) : Prop :=
  same_network s s' /\
  ((o = Ok tt /\
    effect s s' (if check_mode (mgr s) then [] else [ev]) [msg]) \/
   (exists e, o = Raise e /\ check_mode (mgr s) = false /\ effect s s' [ev] [])).

(** The mutating calls [evs] and log entries [acts] of a run stay within
    the plan ([ideal], [ideal_acts]): they are a prefix of it, nothing is
    called in check mode, and a run that returns carried the plan out. *)
Definition within (chk : bool) (o : outcome unit)
  (evs : list call) (acts : list string)
  (ideal : list call) (ideal_acts : list string) : Prop :=
  (if chk then mutations evs = [] else exists k, ideal = mutations evs ++ k) /\
  (exists k, ideal_acts = acts ++ k) /\
  (o = Ok tt -> (chk = false -> mutations evs = ideal) /\ acts = ideal_acts).

(** The run of [c] from [s] stays within the plan and, when it returns,
    ends in a state that satisfies [P]. *)
Definition contract (c : M world unit) (s : st world)
  (ideal : list call) (ideal_acts : list string) (P : st world -> Prop) : Prop :=
  exists evs acts,
    effect s (snd (c s)) evs acts /\
    within (check_mode (mgr s)) (fst (c s)) evs acts ideal ideal_acts /\
    (fst (c s) = Ok tt -> P (snd (c s))).

End Contracts.

Section Plans.
Variable world : Type.
Variable api : DockerAPI world.

Implicit Types s : st world.

(** The state invariant of the membership loops: the parameters and the
    network the decisions are taken on do not move. *)
Definition pinned (p : TaskParameters) (en : option network) s : Prop :=
  parameters (mgr s) = p /\ existing_network (mgr s) = en.

(** The state once a reading call has been logged. *)
Definition logged (c : call) s : st world :=
  mk_st (mgr s) (remote s) (calls s ++ [c]).

(** The two statements of [present] that synchronize the membership. *)
Definition membership_sync : M world unit :=
  bind self (fun m =>
  bind (connect_containers api) (fun _ =>
  when (negb (appends (parameters m))) (disconnect_missing api))).

(** The statements of [present] from the recreation test to
    [disconnect_missing]. *)
Definition reconcile (m : manager) (different : bool) : M world unit :=
  bind (when (force (parameters m) || different)
          (bind (remove_network api) (fun _ => update (set_existing_network None))))
    (fun _ =>
  bind (create_network api) (fun _ =>
  bind (connect_containers api) (fun _ =>
  when (negb (appends (parameters m))) (disconnect_missing api)))).

(** The last statements of [present]: the differences for the diff, the
    removal of the action log, and the facts. *)
Definition report (m : manager) (differences : DifferenceTracker.t) : M world unit :=
  bind (when (diff m || check_mode m || debug (parameters m))
          (update (fun m =>
             set_diff_tracker (DifferenceTracker.merge (diff_tracker m) differences)
               (set_diff_result
                  (mk_diff_result (dr_before (diff_result m)) (dr_after (diff_result m))
                     (Some (DifferenceTracker.get_legacy_docker_diffs differences)))
                  m))))
    (fun _ =>
  bind (when (negb (check_mode m) && negb (debug (parameters m)))
          (bind self (fun m =>
           match actions (results m) with
           | Some _ => update (set_results (set_actions None (results m)))
           | None => raise (KeyError "actions")
           end)))
    (fun _ =>
  bind (get_existing_network api) (fun facts =>
  update (fun m => set_results (set_ansible_facts (Some facts) (results m)) m)))).

(** The comparison [present] starts with. *)
Definition compare_existing (m : manager) : outcome (bool * DifferenceTracker.t) :=
  match existing_network m with
  | Some n => has_different_config (parameters m) n
  | None => Ok (false, DifferenceTracker.new)
  end.

Definition msg_disconnected (c : string) : string := "Disconnected container " ++ c.
Definition msg_connected (c : string) : string := "Connected container " ++ c.
Definition msg_removed (name : string) : string := "Removed network " ++ name.
Definition msg_created (name : string) (drv : option string) : string :=
  "Created network " ++ name ++ " with driver " ++ fmt_opt drv.

(** What [remove_network] is to do in state [s]: nothing without an
    existing network or when the inspection fails; otherwise disconnect
    every container the inspection reports, then remove. *)
Definition remove_plan s : list string :=
  match existing_network (mgr s) with
  | None => []
  | Some _ =>
      match inspect_network api (remote s) (network_name (parameters (mgr s))) with
      | inl _ => []
      | inr n => container_names_in_network n
      end
  end.

Definition removes s : bool :=
  match existing_network (mgr s) with
  | None => false
  | Some _ =>
      match inspect_network api (remote s) (network_name (parameters (mgr s))) with
      | inl _ => false
      | inr n => true
      end
  end.

Definition create_plan s : list call :=
  match existing_network (mgr s) with
  | None => [CCreate (network_name (parameters (mgr s)))
               (build_create_params (parameters (mgr s)))]
  | Some _ => []
  end.

Definition create_log s : list string :=
  match existing_network (mgr s) with
  | None => [msg_created (network_name (parameters (mgr s)))
               (driver (parameters (mgr s)))]
  | Some _ => []
  end.

Definition connect_plan s : list string :=
  match existing_network (mgr s) with
  | Some net =>
      filter (fun x => negb (existsb (String.eqb x) (container_names_in_network net)))
             (connected (parameters (mgr s)))
  | None => []
  end.

Definition disconnect_plan s : list string :=
  match existing_network (mgr s) with
  | Some net =>
      filter (fun x => negb (existsb (String.eqb x) (connected (parameters (mgr s)))))
             (container_names_in_network net)
  | None => []
  end.

(** The desired members once [__init__] has seeded them. *)
Definition seeded_connected (mp : module_params) (e : option network) : list string :=
  match p_connected mp, e with
  | [], Some n => container_names_in_network n
  | c, _ => c
  end.

(** The parameters once [__init__] has seeded [connected] and folded the
    legacy IPAM block into [ipam_config]. *)
Definition ready_parameters (mp : module_params) (e : option network)
  (legacy : bool) : TaskParameters :=
  let p := set_connected (seeded_connected mp e) (TaskParameters_init mp) in
  if legacy then set_ipam_config (Some [ipam_options p]) p else p.

(** The state in which [__init__] dispatches on [state]. *)
Definition ready_state (client : AnsibleDockerClient) (w : world)
  (e : option network) (legacy : bool) : st world :=
  mk_st
    (mk_manager (ready_parameters (params client) e legacy)
       (client_check_mode client)
       (mk_results false (Some []) None None)
       (module_diff client) DifferenceTracker.new
       (mk_diff_result None None None) e)
    w [CInspect (p_network_name (params client))].

(** The last statements of [__init__]. *)
Definition assemble_diff : M world unit :=
  bind self (fun m =>
  when (diff m || check_mode m || debug (parameters m))
    (bind (when (diff m)
             (update (fun m =>
                let ba := DifferenceTracker.get_before_after (diff_tracker m) in
                set_diff_result
                  (mk_diff_result (Some (fst ba)) (Some (snd ba))
                     (dr_differences (diff_result m))) m)))
       (fun _ =>
     update (fun m =>
       set_results (set_r_diff (Some (diff_result m)) (results m)) m)))).

(** From the outcome of [present] or [absent] to the results handed to
    [exit_json]. *)
Definition finish (r : outcome unit * st world) : outcome results_t * st world :=
  match r with
  | (Ok _, s) => bind assemble_diff (fun _ => bind self (fun m => ret (results m))) s
  | (Fail msg, s) => (Fail msg, s)
  | (Raise e, s) => (Raise e, s)
  end.

(** What the first inspection tells about the network. *)
Definition found (r : exn + network) : outcome (option network) :=
  match r with
  | inr n => Ok (Some n)
  | inl (NotFound _) => Ok None
  | inl e => Raise e
  end.

(** The state once [present] has recorded [exists]. *)
Definition tracked_exists (desired : bool) s : st world :=
  mk_st (set_diff_tracker
           (DifferenceTracker.add "exists" (DBool desired)
              (DBool (is_some (existing_network (mgr s)))) (diff_tracker (mgr s)))
           (mgr s))
        (remote s) (calls s).

(** The comparator is asked about the ready parameters and reports a
    difference, or [force] is set. *)
Definition recreation_requested (client : AnsibleDockerClient) (net : network) : Prop :=
  p_force (params client) = true \/
  exists legacy differences,
    ipam_options_used (p_ipam_options (params client)) = Ok legacy /\
    has_different_config (ready_parameters (params client) (Some net) legacy) net
    = Ok (true, differences).

End Plans.

Arguments assemble_diff {world}.

(** *** Languages, invariants and plans of whole passes *)

(** **** Patterns and CIDR strings *)

Module ReSem.

(** The language of a pattern. *)
Inductive matches : Re.regex -> string -> Prop :=
| m_eps : matches Re.Eps EmptyString
| m_cls c ranges :
    Re.in_class c ranges = true -> matches (Re.Cls ranges) (String c EmptyString)
| m_cat r1 r2 a b :
    matches r1 a -> matches r2 b -> matches (Re.Cat r1 r2) (a ++ b)
| m_alt_l r1 r2 a : matches r1 a -> matches (Re.Alt r1 r2) a
| m_alt_r r1 r2 a : matches r2 a -> matches (Re.Alt r1 r2) a
| m_star_nil r : matches (Re.Star r) EmptyString
| m_star_app r a b :
    matches r a -> matches (Re.Star r) b -> matches (Re.Star r) (a ++ b).

End ReSem.

Import ReSem.

Module CidrLang.

(** [a.b.c.d/p]: four groups of one to three digits and a prefix length
    from 0 to 32 in decimal without leading zero. *)
Definition ipv4_cidr (t : string) : Prop :=
  exists a b c d p,
    t = (a ++ "." ++ b ++ "." ++ c ++ "." ++ d ++ "/" ++ p)%string /\
    CidrSpec.digit_group a = true /\ CidrSpec.digit_group b = true /\
    CidrSpec.digit_group c = true /\ CidrSpec.digit_group d = true /\
    CidrSpec.prefix_length_upto 32 p = true.

(** [address/p]: a non-empty string of hexadecimal digits and colons and a
    prefix length from 0 to [bound] in decimal without leading zero. *)
Definition ipv6_cidr_upto (bound : nat) (t : string) : Prop :=
  exists address p,
    t = (address ++ "/" ++ p)%string /\
    address <> EmptyString /\
    CidrSpec.all_chars CidrSpec.is_hex_or_colon address = true /\
    CidrSpec.prefix_length_upto bound p = true.

(** [s] satisfies [P], or is a string that satisfies [P] followed by one
    line feed. *)
Definition maybe_with_line_feed (P : string -> Prop) (s : string) : Prop :=
  P s \/ exists t, s = (t ++ String LF EmptyString)%string /\ P t.

(** [c in s] *)
Fixpoint contains (c : ascii) (s : string) : bool :=
  match s with
  | EmptyString => false
  | String c' s' => Ascii.eqb c c' || contains c s'
  end.

End CidrLang.

Import CidrLang.

(** [[0-9]|[1-2][0-9]|3[0-2]] *)
Definition prefix_32 : Re.regex :=
  Re.Alt digit
    (Re.Alt (Re.Cat (Re.rng "1"%char "2"%char) digit)
            (Re.Cat (Re.chr "3"%char) (Re.rng "0"%char "2"%char))).

(** [[0-9]|[1-9][0-9]|1[0-2][0-9]] *)
Definition prefix_129 : Re.regex :=
  Re.Alt digit
    (Re.Alt (Re.Cat (Re.rng "1"%char "9"%char) digit)
            (Re.Cat (Re.chr "1"%char) (Re.Cat (Re.rng "0"%char "2"%char) digit))).

(** Case analysis on a character, and on a decimal digit known to be in a
    list. *)
Ltac each_ascii c :=
  destruct c as [[|] [|] [|] [|] [|] [|] [|] [|]].

Ltac each_digit :=
  repeat match goal with
         | H : In _ (_ :: _) |- _ => destruct H as [<- | H]
         | H : In _ [] |- _ => destruct H
         end.

(** **** Versions, invariants and results *)

(** The installed SDK and the daemon's API are at least the given
    versions. *)
Definition supports (client : AnsibleDockerClient) (py_min api_min : version) : bool :=
  version_geb (docker_py_version client) py_min &&
  version_geb (docker_api_version client) api_min.

(** The state in which [__init__] starts. *)
Definition initial_state {world : Type} (client : AnsibleDockerClient) (w : world)
  : st world :=
  mk_st (new_manager client) w [].

(** Compares versions component by component. *)
Ltac by_components :=
  cbn [version_ltb];
  repeat match goal with
         | |- context [Nat.ltb ?x ?y] => destruct (Nat.ltb_spec x y)
         end;
  intros; try reflexivity; try discriminate; try lia.

(** The manager object keeps the property [I] along every run of [c]. *)
Definition preserves {world A : Type} (I : manager -> Prop) (c : M world A) : Prop :=
  forall s, I (mgr s) -> I (mgr (snd (c s))).

(** The parts of the manager that only the last statements of [present]
    and of [__init__] write: with the modes and the [debug] option, the
    [diff] entry of the results is not set and the diff itself is empty. *)
Definition diff_pending (chk df dbg : bool) (m : manager) : Prop :=
  check_mode m = chk /\ diff m = df /\ debug (parameters m) = dbg /\
  r_diff (results m) = None /\
  diff_result m = mk_diff_result None None None.

(** Solves a goal about fields of the manager from hypotheses about
    them. *)
Ltac by_fields := unfold diff_pending in *; simpl; intuition congruence.

(** A daemon that cannot be reached: every call raises [APIError]. *)
Module Outage.

Definition error : exn := APIError "500 Server Error".

Definition api : DockerAPI unit :=
  mk_api (fun _ _ => inl error) (fun _ _ _ => inl error) (fun _ _ => inl error)
         (fun _ _ _ => inl error) (fun _ _ _ => inl error).

End Outage.

(** Module arguments that set [scope], and a client whose daemon speaks an
    API older than [scope] needs. *)
Definition swarm_scoped (name : string) : module_params :=
  mk_params name [] StPresent (Some "overlay") (Some []) false false None
            Daemon.no_ipam_options None None None false (Some "swarm") None.

Definition old_client (mp : module_params) : AnsibleDockerClient :=
  mk_client mp false false [2; 6; 0] [1; 25] "1.25" "2.6.0".

(** The call connects a container to, or disconnects one from, the network
    [name]. *)
Definition membership_call (name : string) (c : call) : Prop :=
  exists x, c = CConnect x name \/ c = CDisconnect x name.

(** The mutating calls of the removal of a network with the given members,
    and the entries it logs. *)
Definition removal_plan (name : string) (members : list string) : list call :=
  map (fun c => CDisconnect c name) members ++ [CRemove name].

Definition removal_log (name : string) (members : list string) : list string :=
  map msg_disconnected members ++ [msg_removed name].

Definition is_nil {A : Type} (l : list A) : bool :=
  match l with [] => true | _ => false end.

(** Clients of the reference daemon used in the examples: the removal of
    [net1], and a pass that wants [a] and [c] connected to it. *)
Definition absent_client (check : bool) : AnsibleDockerClient :=
  Daemon.client (Daemon.with_state StAbsent (Daemon.defaults "net1")) check false.

Definition members_client (check : bool) : AnsibleDockerClient :=
  Daemon.client (Daemon.with_connected ["a"; "c"] (Daemon.defaults "net1")) check false.

(** **** Comparison of options and pools *)

(** The observed options hold the desired item. *)
Definition option_matches (net_options : dict string) (kv : string * string) : bool :=
  match dict_get (fst kv) net_options with
  | Some v => String.eqb (snd kv) v
  | None => false
  end.

(** The field names of a pool in the inspection output of the daemon. *)
Definition docker_pool_keys : list string :=
  ["Subnet"; "IPRange"; "Gateway"; "AuxiliaryAddresses"].

(** Every observed pool of the network uses the daemon's field names. *)
Definition docker_pools (net : network) : Prop :=
  forall i nps np,
    IPAM net = Some i -> ipam_Config i = Some nps -> In np nps ->
    incl (dict_keys np) docker_pool_keys.

(** The comparison returned and found the network equal to the desired
    configuration. *)
Definition finds_equal (o : outcome (bool * DifferenceTracker.t)) : bool :=
  match o with
  | Ok (false, _) => true
  | _ => false
  end.

(** A desired pool with auxiliary addresses, module arguments that ask
    for it, and a network that has exactly this pool. *)
Definition aux_pool : pool :=
  [("subnet", PyStr "10.0.0.0/24"); ("iprange", PyNone); ("gateway", PyNone);
   ("aux_addresses", PyDict [("host1", "10.0.0.5")])].

Definition with_ipam_config (c : option (list pool)) (mp : module_params)
  : module_params :=
  mk_params (p_network_name mp) (p_connected mp) (p_state mp) (p_driver mp)
    (p_driver_options mp) (p_force mp) (p_appends mp) (p_ipam_driver mp)
    (p_ipam_options mp) c (p_enable_ipv6 mp) (p_internal mp)
    (p_debug mp) (p_scope mp) (p_attachable mp).

Definition with_pools (pools : list pool) (n : network) : network :=
  mk_network (Id n) (Name n) (Driver n) (Options n)
    (Some (mk_ipam "default" (Some pools)))
    (EnableIPv6 n) (Internal n) (Scope n) (Attachable n) (Containers n).

Definition aux_net : network :=
  with_pools [Daemon.observed_pool aux_pool] Daemon.net1.

(** Module arguments whose pool has a subnet that is not a CIDR. *)
Definition malformed_pool : pool :=
  [("subnet", PyStr "10.0.0.0"); ("iprange", PyNone); ("gateway", PyNone);
   ("aux_addresses", PyNone)].

(** *** Proof tactics *)

(** Opens a state into its components. *)
Ltac open_state s :=
  let p := fresh "p" in let chk := fresh "chk" in
  let ch := fresh "ch" in let ac := fresh "ac" in
  let fa := fresh "fa" in let rd := fresh "rd" in
  let df := fresh "df" in let tr := fresh "tr" in
  let dr := fresh "dr" in let en := fresh "en" in
  let w := fresh "w" in let cl := fresh "cl" in
  destruct s as [[p chk [ch ac fa rd] df tr dr en] w cl].

(** Proves an [effect] between two states that are given explicitly. *)
Ltac effect_by_computation :=
  constructor; simpl; auto;
  try (now rewrite app_nil_r);
  try (now rewrite orb_true_r);
  try (now rewrite orb_false_r);
  try (now rewrite <- app_assoc);
  try (intros ? Heq; inversion Heq; subst; now rewrite ?app_nil_r).

(* ===================================================================== *)
(** ** Properties of the dictionary primitives *)
(* ===================================================================== *)

Section DictFacts.
Variable V : Type.

Lemma dict_get_set_same (k : string) (v : V) (d : dict V) :
  dict_get k (dict_set k v d) = Some v.
Proof.
  induction d as [|[k' v'] d IH]; simpl.
  - now rewrite String.eqb_refl.
  - destruct (String.eqb k k') eqn:E; simpl; rewrite E; auto.
Qed.

Lemma dict_get_set_other (k k' : string) (v : V) (d : dict V) :
  k <> k' -> dict_get k' (dict_set k v d) = dict_get k' d.
Proof.
  intros Hne. induction d as [|[k0 v0] d IH]; simpl.
  - destruct (String.eqb k' k) eqn:E; auto.
    apply String.eqb_eq in E. congruence.
  - destruct (String.eqb k k0) eqn:E; simpl.
    + apply String.eqb_eq in E. subst k0.
      destruct (String.eqb k' k) eqn:E'; auto.
      apply String.eqb_eq in E'. congruence.
    + now rewrite IH.
Qed.

Lemma dict_set_fresh (k : string) (v : V) (d : dict V) :
  ~ In k (dict_keys d) -> dict_set k v d = d ++ [(k, v)].
Proof.
  induction d as [|[k' v'] d IH]; simpl; intros Hn; auto.
  destruct (String.eqb k k') eqn:E.
  - apply String.eqb_eq in E. subst. tauto.
  - rewrite IH; auto.
Qed.

Lemma dict_keys_set (k : string) (v : V) (d : dict V) :
  dict_keys (dict_set k v d) =
  if existsb (String.eqb k) (dict_keys d) then dict_keys d
  else dict_keys d ++ [k].
Proof.
  induction d as [|[k' v'] d IH]; simpl; auto.
  destruct (String.eqb k k') eqn:E; simpl; auto.
  rewrite IH. destruct (existsb (String.eqb k) (dict_keys d)); auto.
Qed.

Lemma existsb_eqb_In (k : string) (l : list string) :
  existsb (String.eqb k) l = true <-> In k l.
Proof.
  rewrite existsb_exists. split.
  - intros [x [Hin He]]. apply String.eqb_eq in He. now subst.
  - intros H. exists k. split; auto. apply String.eqb_refl.
Qed.

Lemma existsb_eqb_not_In (k : string) (l : list string) :
  existsb (String.eqb k) l = false <-> ~ In k l.
Proof.
  rewrite <- existsb_eqb_In. destruct (existsb (String.eqb k) l); split; intros;
    try congruence; try tauto.
Qed.

Lemma dict_set_NoDup (k : string) (v : V) (d : dict V) :
  NoDup (dict_keys d) -> NoDup (dict_keys (dict_set k v d)).
Proof.
  intros Hd. rewrite dict_keys_set.
  destruct (existsb (String.eqb k) (dict_keys d)) eqn:E; auto.
  apply existsb_eqb_not_In in E.
  apply NoDup_app; auto.
  - constructor; [simpl; tauto | constructor].
  - intros x Hx [Hy|[]]. subst. tauto.
Qed.

End DictFacts.

(* ===================================================================== *)
(** ** ConfigNormalizer: driver options *)
(* ===================================================================== *)

Lemma get_driver_options_fold (items : list (scalar * scalar)) :
  get_driver_options (Some items) = fold_left driver_option_step items [].
Proof. reflexivity. Qed.

Lemma driver_options_fold_NoDup (items : list (scalar * scalar)) (acc : dict string) :
  NoDup (dict_keys acc) ->
  NoDup (dict_keys (fold_left driver_option_step items acc)).
Proof.
  revert acc. induction items as [|kv items IH]; simpl; intros acc Hacc; auto.
  apply IH. unfold driver_option_step. now apply dict_set_NoDup.
Qed.

Lemma driver_options_fold_raw (d acc : dict string) :
  NoDup (dict_keys (acc ++ d)) ->
  fold_left driver_option_step (as_raw d) acc = acc ++ d.
Proof.
  revert acc. induction d as [|[k v] d IH]; simpl; intros acc Hnd.
  - now rewrite app_nil_r.
  - unfold driver_option_step at 2. simpl.
    assert (Hfresh : ~ In k (dict_keys acc)).
    { unfold dict_keys in *. rewrite map_app in Hnd. simpl in Hnd.
      apply NoDup_remove_2 in Hnd. intros Hin. apply Hnd.
      apply in_or_app. now left. }
    rewrite dict_set_fresh by exact Hfresh.
    rewrite IH; rewrite <- app_assoc; simpl; auto.
Qed.

Lemma driver_options_fold_keeps (items : list (scalar * scalar))
  (acc : dict string) (k : string) :
  (forall kv, In kv items -> py_str (fst kv) <> k) ->
  dict_get k (fold_left driver_option_step items acc) = dict_get k acc.
Proof.
  revert acc. induction items as [|kv items IH]; simpl; intros acc Hk; auto.
  rewrite IH by (intros; apply Hk; now right).
  unfold driver_option_step. apply dict_get_set_other. apply Hk. now left.
Qed.

(** C9.  Normalizing the output of [get_driver_options] gives the same
    mapping again; a value that is the boolean [True] or [False] comes out
    as the string [true] or [false] under its stringified key (the last
    item with that key decides, as for every dictionary store); and [None]
    gives the empty mapping. *)
Theorem get_driver_options_idempotent :
  (forall raw, get_driver_options (Some (as_raw (get_driver_options raw)))
               = get_driver_options raw) /\
  (forall before after k b,
      (forall kv, In kv after -> py_str (fst kv) <> py_str k) ->
      dict_get (py_str k)
        (get_driver_options (Some (before ++ (k, SBool b) :: after)))
      = Some (if b then "true" else "false")) /\
  get_driver_options None = [].
Proof.
  split; [|split].
  - intros raw. rewrite get_driver_options_fold.
    rewrite driver_options_fold_raw; auto.
    destruct raw as [items|]; simpl; [|constructor].
    apply driver_options_fold_NoDup. constructor.
  - intros before after k b Hafter.
    rewrite get_driver_options_fold, fold_left_app. simpl.
    rewrite driver_options_fold_keeps by exact Hafter.
    unfold driver_option_step at 1. simpl.
    destruct b; apply dict_get_set_same.
  - reflexivity.
Qed.

Lemma get_driver_options_idempotent_witness :
  dict_get "com.docker.network.bridge.enable_icc"
    (get_driver_options
       (Some [(SStr "mtu", SInt 1500);
              (SStr "com.docker.network.bridge.enable_icc", SBool true);
              (SInt 7, SBool false)]))
  = Some "true".
Proof.
  apply (proj1 (proj2 get_driver_options_idempotent)
           [(SStr "mtu", SInt 1500)] [(SInt 7, SBool false)]
           (SStr "com.docker.network.bridge.enable_icc") true).
  intros kv [H|[]]. subst kv. vm_compute. discriminate.
Defined.

(* ===================================================================== *)
(** ** ConfigComparator: matching of IPAM pools *)
(* ===================================================================== *)

Lemma last_cons_default {A : Type} (a d : A) (l : list A) :
  last (a :: l) d = last l a.
Proof.
  revert a d. induction l as [|b l IH]; intros a d; auto.
  change (last (a :: b :: l) d) with (last (b :: l) d).
  rewrite (IH b d), (IH b a). reflexivity.
Qed.

Lemma scan_net_configs_last (ip : ip_version) (net_pools : list pool) :
  Forall classified net_pools ->
  forall net_config,
    scan_net_configs ip net_pools net_config
    = Ok (last (filter (same_family ip) net_pools) net_config).
Proof.
  induction 1 as [|np rest [v Hv] _ IH]; intros net_config; simpl; auto.
  unfold same_family. unfold net_family in Hv |- *.
  destruct (dict_item "Subnet" np) as [subnet| |]; simpl in *; try discriminate.
  rewrite Hv. simpl. rewrite IH.
  destruct (ip_version_eqb ip v); auto.
  now rewrite last_cons_default.
Qed.

(** C8.  When the desired pool's subnet classifies as family [ip] and every
    observed pool has a well-formed subnet, the pool the desired one is
    compared with, field by field, is the last observed pool of family
    [ip] (the empty dictionary when there is none). *)
Theorem last_observed_pool_of_family_wins
  (idx : nat) (ipam_pool : pool) (rest net_pools : list pool)
  (differences : DifferenceTracker.t) (subnet : pyval) (ip : ip_version) :
  dict_get "subnet" ipam_pool = Some subnet ->
  get_ip_version subnet = Ok ip ->
  Forall classified net_pools ->
  find_net_config ipam_pool net_pools
  = Ok (last (filter (same_family ip) net_pools) []) /\
  ipam_config_differences idx (ipam_pool :: rest) net_pools differences
  = ipam_config_differences (S idx) rest net_pools
      (pool_differences idx ipam_pool
         (last (filter (same_family ip) net_pools) []) differences).
Proof.
  intros Hsub Hip Hall.
  assert (Hfind : find_net_config ipam_pool net_pools
                  = Ok (last (filter (same_family ip) net_pools) [])).
  { unfold find_net_config, dict_item. rewrite Hsub. simpl. rewrite Hip. simpl.
    now rewrite scan_net_configs_last. }
  split; [exact Hfind|]. simpl. now rewrite Hfind.
Qed.

Lemma last_observed_pool_of_family_wins_witness :
  find_net_config [("subnet", PyStr "10.0.0.0/24")]
    [[("Subnet", PyStr "172.18.0.0/16")];
     [("Subnet", PyStr "fd00::/64")];
     [("Subnet", PyStr "10.0.0.0/24")]]
  = Ok [("Subnet", PyStr "10.0.0.0/24")].
Proof.
  refine (proj1 (@last_observed_pool_of_family_wins 0
                  [("subnet", PyStr "10.0.0.0/24")] []
                  [[("Subnet", PyStr "172.18.0.0/16")];
                   [("Subnet", PyStr "fd00::/64")];
                   [("Subnet", PyStr "10.0.0.0/24")]]
                  [] (PyStr "10.0.0.0/24") ipv4 eq_refl _ _)).
  - vm_compute. reflexivity.
  - repeat constructor; eexists; vm_compute; reflexivity.
Defined.

(* --------------------------------------------------------------------- *)
(** *** A desired pool without a subnet *)

Lemma ipam_config_differences_no_subnet
  (before : list pool) (ipam_pool : pool) (after net_pools : list pool) :
  dict_get "subnet" ipam_pool = Some PyNone ->
  Forall (fun q => exists nc, find_net_config q net_pools = Ok nc) before ->
  forall idx differences,
    ipam_config_differences idx (before ++ ipam_pool :: after) net_pools differences
    = Raise (TypeError "expected string or bytes-like object").
Proof.
  intros Hsub. induction 1 as [|q before [nc Hq] _ IH]; intros idx differences; simpl.
  - unfold find_net_config, dict_item. rewrite Hsub. reflexivity.
  - rewrite Hq. simpl. apply IH.
Qed.

(** C10.  When the observed network has at least one IPAM pool, a desired
    pool whose [subnet] is [None] makes the comparator raise [TypeError]
    (which the [except ValueError] handler does not turn into a clean
    failure), provided the matching of the pools before it went through. *)
Theorem subnetless_pool_raises_TypeError
  (p : TaskParameters) (net : network) (ipam_driver_name : string)
  (n : pool) (ns before : list pool) (ipam_pool : pool) (after : list pool) :
  ipam_config p = Some (before ++ ipam_pool :: after) ->
  dict_get "subnet" ipam_pool = Some PyNone ->
  IPAM net = Some (mk_ipam ipam_driver_name (Some (n :: ns))) ->
  Forall (fun q => exists nc, find_net_config q (n :: ns) = Ok nc) before ->
  has_different_config p net
  = Raise (TypeError "expected string or bytes-like object") /\
  (forall msg, has_different_config p net <> Fail msg) /\
  (forall r, has_different_config p net <> Ok r).
Proof.
  intros Hcfg Hsub Hipam Hbefore.
  assert (H : has_different_config p net
              = Raise (TypeError "expected string or bytes-like object")).
  { unfold has_different_config, compare_ipam_config. rewrite Hcfg, Hipam.
    destruct (before ++ ipam_pool :: after) as [|c cs] eqn:E.
    - destruct before; discriminate.
    - rewrite <- E.
      rewrite (@ipam_config_differences_no_subnet before ipam_pool after
                 (n :: ns) Hsub Hbefore).
      reflexivity. }
  rewrite H. repeat split; intros; discriminate.
Qed.

Lemma subnetless_pool_raises_TypeError_witness :
  has_different_config
    (TaskParameters_init
       (mk_params "net1" [] StPresent (Some "bridge") (Some []) false false None
          Daemon.no_ipam_options
          (Some [[("subnet", PyStr "172.18.0.0/16"); ("iprange", PyNone);
                  ("gateway", PyNone); ("aux_addresses", PyNone)];
                 [("subnet", PyNone); ("iprange", PyNone);
                  ("gateway", PyStr "10.0.0.1"); ("aux_addresses", PyNone)]])
          None None false None None))
    Daemon.net1
  = Raise (TypeError "expected string or bytes-like object").
Proof.
  refine (proj1 (@subnetless_pool_raises_TypeError _ Daemon.net1 "default"
                   [("Subnet", PyStr "172.18.0.0/16"); ("Gateway", PyStr "172.18.0.1")]
                   []
                   [[("subnet", PyStr "172.18.0.0/16"); ("iprange", PyNone);
                     ("gateway", PyNone); ("aux_addresses", PyNone)]]
                   [("subnet", PyNone); ("iprange", PyNone);
                    ("gateway", PyStr "10.0.0.1"); ("aux_addresses", PyNone)]
                   [] _ _ _ _)).
  - reflexivity.
  - reflexivity.
  - reflexivity.
  - constructor; [|constructor]. eexists. vm_compute. reflexivity.
Defined.

(* ===================================================================== *)
(** ** ConfigComparator: unspecified is not different *)
(* ===================================================================== *)

Section Unspecified.
Variable p : TaskParameters.
Variable net : network.

Lemma sound_add name parameter active differences :
  sound_for p differences ->
  desired_value_set p (mk_diff name parameter active) ->
  sound_for p (DifferenceTracker.add name parameter active differences).
Proof.
  intros Hs Hd. unfold sound_for, DifferenceTracker.add.
  apply Forall_app. split; auto.
Qed.

Lemma str_truthy_nonempty (d : string) :
  str_truthy (Some d) = true -> d <> "".
Proof.
  simpl. intros H E. subst d. discriminate.
Qed.

Lemma compare_driver_sound differences :
  sound_for p differences -> sound_for p (compare_driver p net differences).
Proof.
  intros Hs. unfold compare_driver.
  destruct (driver p) as [d|] eqn:Hd; auto.
  destruct (str_truthy (Some d)) eqn:Ht; simpl; auto.
  destruct (negb (String.eqb d (Driver net))); auto.
  apply sound_add; auto. apply dvs_driver; auto.
  now apply str_truthy_nonempty.
Qed.

Lemma driver_options_differences_sound o items net_options differences :
  driver_options p = Some o -> incl items o ->
  sound_for p differences ->
  sound_for p (driver_options_differences items net_options differences).
Proof.
  intros Ho. unfold driver_options_differences.
  revert differences.
  induction items as [|[k v] items IH]; simpl; intros differences Hincl Hs; auto.
  apply IH.
  - intros x Hx. apply Hincl. now right.
  - match goal with |- sound_for p (if ?c then _ else _) => destruct c end; auto.
    apply sound_add; auto. eapply dvs_driver_option; eauto.
    apply Hincl. now left.
Qed.

Lemma compare_driver_options_sound differences :
  sound_for p differences -> sound_for p (compare_driver_options p net differences).
Proof.
  intros Hs. unfold compare_driver_options.
  destruct (driver_options p) as [[|o os]|] eqn:Ho; auto.
  destruct (negb (list_truthy (Options net))).
  - apply sound_add; auto. apply dvs_driver_options; auto. discriminate.
  - eapply driver_options_differences_sound; eauto. apply incl_refl.
Qed.

Lemma compare_ipam_driver_sound differences :
  sound_for p differences -> sound_for p (compare_ipam_driver p net differences).
Proof.
  intros Hs. unfold compare_ipam_driver.
  destruct (ipam_driver p) as [d|] eqn:Hd; auto.
  destruct (str_truthy (Some d)) eqn:Ht; simpl; auto.
  match goal with |- sound_for p (if ?c then _ else _) => destruct c end; auto.
  apply sound_add; auto. apply dvs_ipam_driver; auto.
  now apply str_truthy_nonempty.
Qed.

Lemma pool_differences_sound pools idx ipam_pool items net_config differences :
  ipam_config p = Some pools -> nth_error pools idx = Some ipam_pool ->
  incl items ipam_pool ->
  sound_for p differences ->
  sound_for p (pool_differences idx items net_config differences).
Proof.
  intros Hp Hn. unfold pool_differences.
  revert differences.
  induction items as [|[k v] items IH]; simpl; intros differences Hincl Hs; auto.
  apply IH.
  - intros x Hx. apply Hincl. now right.
  - assert (Hin : In (k, v) ipam_pool) by (apply Hincl; now left).
    destruct v; auto;
      match goal with |- sound_for p (if ?c then _ else _) => destruct c end; auto;
      apply sound_add; auto;
      eapply dvs_pool_field; eauto; discriminate.
Qed.

Lemma ipam_config_differences_sound pools net_pools :
  ipam_config p = Some pools ->
  forall items idx differences r,
    (forall i q, nth_error items i = Some q -> nth_error pools (idx + i) = Some q) ->
    sound_for p differences ->
    ipam_config_differences idx items net_pools differences = Ok r ->
    sound_for p r.
Proof.
  intros Hp. induction items as [|q items IH]; simpl; intros idx differences r Hnth Hs Hr.
  - now inversion Hr; subst.
  - destruct (find_net_config q net_pools) as [nc| |]; simpl in Hr; try discriminate.
    eapply IH; [| |exact Hr].
    + intros i q' Hq'. replace (S idx + i) with (idx + S i) by lia.
      apply Hnth. exact Hq'.
    + specialize (Hnth 0 q eq_refl). rewrite Nat.add_0_r in Hnth.
      apply (@pool_differences_sound pools idx q q nc differences Hp Hnth);
        auto using incl_refl.
Qed.

Lemma compare_ipam_config_sound differences r :
  sound_for p differences ->
  compare_ipam_config p net differences = Ok r -> sound_for p r.
Proof.
  intros Hs. unfold compare_ipam_config.
  destruct (ipam_config p) as [[|c cs]|] eqn:Hc;
    try (intros H; inversion H; subst; exact Hs).
  assert (Hwhole : forall a,
             sound_for p (DifferenceTracker.add "ipam_config" (DPools (c :: cs)) a differences)).
  { intros a. apply sound_add; auto. apply dvs_ipam_config; auto. discriminate. }
  destruct (IPAM net) as [[drv [[|n ns]|]]|];
    try (intros H; inversion H; subst; apply Hwhole).
  intros H. eapply ipam_config_differences_sound; eauto.
  intros i q Hq. exact Hq.
Qed.

Lemma flag_sound name (desired : option bool) (active : bool) (a : diffval)
  differences :
  (forall b, desired = Some b -> desired_value_set p (mk_diff name (DBool b) a)) ->
  sound_for p differences ->
  sound_for p (if opt_bool_neq desired active
         then DifferenceTracker.add name (DOptBool desired) a differences
         else differences).
Proof.
  intros Hd Hs. destruct desired as [b|]; simpl; auto.
  destruct (negb (Bool.eqb b active)); auto.
  apply sound_add; auto.
Qed.

Lemma compare_flags_sound differences :
  sound_for p differences -> sound_for p (compare_flags p net differences).
Proof.
  intros Hs. unfold compare_flags.
  apply flag_sound; [intros b Hb; now constructor|].
  destruct (scope p) as [sc|] eqn:Hsc.
  - match goal with |- sound_for p (if ?c then _ else _) => destruct c end.
    + apply sound_add; [|now constructor].
      apply flag_sound; [intros b Hb; now constructor|].
      apply flag_sound; [intros b Hb; now constructor|]. exact Hs.
    + apply flag_sound; [intros b Hb; now constructor|].
      apply flag_sound; [intros b Hb; now constructor|]. exact Hs.
  - apply flag_sound; [intros b Hb; now constructor|].
    apply flag_sound; [intros b Hb; now constructor|]. exact Hs.
Qed.

End Unspecified.

(** C5.  Every difference the comparator returns is about a field whose
    desired value is set (for a pool field: a value that is not [None]),
    and on a spec where no field is set the comparator returns, for every
    observed network, the flag [False] and no difference. *)
Theorem unspecified_is_not_different (p : TaskParameters) (net : network) :
  (forall different differences,
      has_different_config p net = Ok (different, differences) ->
      Forall (desired_value_set p) differences) /\
  (all_unset p -> has_different_config p net = Ok (false, [])).
Proof.
  split.
  - intros different differences. unfold has_different_config.
    destruct (compare_ipam_config p net _) as [r| |] eqn:Hr; simpl; try discriminate.
    intros H. inversion H; subst. apply compare_flags_sound.
    eapply compare_ipam_config_sound; [|exact Hr].
    apply compare_ipam_driver_sound, compare_driver_options_sound,
      compare_driver_sound. constructor.
  - intros (Hd & Ho & Hi & Hc & H6 & Hint & Hsc & Hat).
    unfold has_different_config, compare_driver, compare_driver_options,
      compare_ipam_driver, compare_ipam_config, compare_flags.
    rewrite H6, Hint, Hsc, Hat.
    destruct (driver p) as [d|]; [rewrite Hd|];
      (destruct (driver_options p) as [[|o os]|]; try discriminate);
      (destruct (ipam_driver p) as [i|]; [rewrite Hi|]);
      (destruct (ipam_config p) as [[|c cs]|]; try discriminate);
      reflexivity.
Qed.

Lemma unspecified_is_not_different_witness :
  has_different_config
    (mk_task "net1" [] StPresent None (Some []) false false None
       Daemon.no_ipam_options None None None false None None)
    Daemon.net1
  = Ok (false, []).
Proof.
  apply (proj2 (unspecified_is_not_different
                  (mk_task "net1" [] StPresent None (Some []) false false None
                     Daemon.no_ipam_options None None None false None None)
                  Daemon.net1)).
  repeat split; reflexivity.
Defined.

(* ===================================================================== *)
(** ** Reasoning about runs of the manager *)
(* ===================================================================== *)


Section ContractFacts.
Variable world : Type.
Variable api : DockerAPI world.

Implicit Types s : st world.

Lemma effect_refl s : effect s s [] [].
Proof.
  constructor; auto.
  - now rewrite app_nil_r.
  - intros l Hl. now rewrite app_nil_r.
  - now rewrite orb_false_r.
Qed.

Lemma effect_trans s s1 s2 e1 e2 a1 a2 :
  effect s s1 e1 a1 -> effect s1 s2 e2 a2 ->
  effect s s2 (e1 ++ e2) (a1 ++ a2).
Proof.
  intros [c1 p1 k1 d1 ac1 ch1 f1] [c2 p2 k2 d2 ac2 ch2 f2].
  constructor; try congruence.
  - rewrite c2, c1. now rewrite app_assoc.
  - intros l Hl. rewrite (ac2 _ (ac1 _ Hl)). now rewrite app_assoc.
  - rewrite ch2, ch1. destruct a1, a2; simpl;
      rewrite ?orb_false_r, ?orb_true_r; auto.
Qed.

Lemma effect_has_actions s s' evs acts :
  effect s s' evs acts -> has_actions s -> has_actions s'.
Proof.
  intros E [l Hl]. exists (l ++ acts). now apply (eff_actions E).
Qed.

Lemma same_network_trans s s1 s2 :
  same_network s s1 -> same_network s1 s2 -> same_network s s2.
Proof. unfold same_network. congruence. Qed.

Lemma mutations_app l1 l2 :
  mutations (l1 ++ l2) = mutations l1 ++ mutations l2.
Proof. apply filter_app. Qed.

Lemma mutations_map {A : Type} (ev : A -> call) (l : list A) :
  (forall x, is_mutation (ev x) = true) ->
  mutations (map ev l) = map ev l.
Proof.
  intros H. induction l as [|x l IH]; simpl; auto.
  rewrite H. now rewrite IH.
Qed.

(** Sequencing of runs. *)
Lemma bind_run {A B : Type} (c : M world A) (f : A -> M world B) s :
  bind c f s =
  match c s with
  | (Ok a, s') => f a s'
  | (Fail m, s') => (Fail m, s')
  | (Raise e, s') => (Raise e, s')
  end.
Proof. reflexivity. Qed.

Lemma bind_self {B : Type} (f : manager -> M world B) s :
  bind self f s = f (mgr s) s.
Proof. reflexivity. Qed.

Lemma for_each_cons {A : Type} (x : A) (l : list A) (body : A -> M world unit) s :
  for_each (x :: l) body s =
  match body x s with
  | (Ok _, s') => for_each l body s'
  | (Fail m, s') => (Fail m, s')
  | (Raise e, s') => (Raise e, s')
  end.
Proof. reflexivity. Qed.

(** A loop whose body acts on the selected elements, one action each. *)
Lemma for_each_loop {A : Type} (body : A -> M world unit)
  (ev : A -> call) (msg : A -> string) (sel : A -> bool)
  (Inv : st world -> Prop) :
  (forall s s' evs acts,
      Inv s -> effect s s' evs acts -> same_network s s' -> Inv s') ->
  (forall x s, Inv s -> has_actions s ->
      if sel x
      then step_result (ev x) (msg x) s (fst (body x s)) (snd (body x s))
      else body x s = (Ok tt, s)) ->
  forall l s, Inv s -> has_actions s ->
    loop_result ev msg (filter sel l) s
      (fst (for_each l body s)) (snd (for_each l body s)).
Proof.
  intros Hinv Hbody. induction l as [|x l IH]; intros s HI Ha.
  - simpl. split; [reflexivity|]. left. split; auto.
    destruct (check_mode (mgr s)); apply effect_refl.
  - rewrite for_each_cons. specialize (Hbody x s HI Ha). simpl filter.
    destruct (sel x).
    + destruct Hbody as [Hnet [[Ho E]|[e [Ho [Hchk E]]]]].
      * destruct (body x s) as [o s1]. simpl in *. subst o.
        assert (HI1 : Inv s1) by (eapply Hinv; eauto).
        assert (Ha1 : has_actions s1) by (eapply effect_has_actions; eauto).
        specialize (IH s1 HI1 Ha1).
        destruct IH as [Hnet' [[Ho' E']|[e [done [y [rest [Ho' [Hchk' [Hpl E']]]]]]]]].
        -- split; [eapply same_network_trans; eauto|]. left. split; auto.
           rewrite (eff_check_mode E) in E'.
           pose proof (effect_trans E E') as ET.
           destruct (check_mode (mgr s)); exact ET.
        -- split; [eapply same_network_trans; eauto|]. right.
           rewrite (eff_check_mode E) in Hchk'. rewrite Hchk' in E.
           exists e, (x :: done), y, rest.
           split; [auto|split; [auto|split]].
           ++ simpl. now rewrite Hpl.
           ++ exact (effect_trans E E').
      * destruct (body x s) as [o s1]. simpl in *. subst o.
        split; auto. right. exists e, [], x, (filter sel l).
        split; [auto|split; [auto|split]]; auto.
    + rewrite Hbody. apply IH; auto.
Qed.

(** What a loop result says in terms of the plan. *)
Lemma loop_result_contract {A : Type} (ev : A -> call) (msg : A -> string)
  (planned : list A) (c : M world unit) s :
  (forall x, is_mutation (ev x) = true) ->
  loop_result ev msg planned s (fst (c s)) (snd (c s)) ->
  contract c s (map ev planned) (map msg planned) (same_network s).
Proof.
  intros Hmut [Hnet [[Ho E]|[e [done [x [rest [Ho [Hchk [Hpl E]]]]]]]]].
  - exists (if check_mode (mgr s) then [] else map ev planned), (map msg planned).
    split; [exact E|]. split; [|auto].
    unfold within. destruct (check_mode (mgr s)) eqn:Hc; simpl.
    + repeat split; auto; try discriminate. exists []. now rewrite app_nil_r.
    + rewrite mutations_map by auto.
      repeat split; auto; exists []; now rewrite app_nil_r.
  - exists (map ev (done ++ [x])), (map msg done).
    split; [exact E|]. split; [|intros H; congruence].
    unfold within. rewrite Hchk. rewrite mutations_map by auto.
    subst planned. repeat split.
    + exists (map ev rest).
      rewrite <- map_app. now rewrite <- app_assoc.
    + exists (map msg (x :: rest)). now rewrite map_app.
    + rewrite Ho in H. discriminate.
    + rewrite Ho in H. discriminate.
Qed.

(** Plans compose along sequencing. *)
Lemma contract_seq (c1 c2 : M world unit) s
  (i1 i2 : list call) (a1 a2 : list string) (P Q : st world -> Prop) :
  contract c1 s i1 a1 P ->
  (forall s1, c1 s = (Ok tt, s1) -> P s1 -> contract c2 s1 i2 a2 Q) ->
  contract (bind c1 (fun _ => c2)) s (i1 ++ i2) (a1 ++ a2) Q.
Proof.
  intros [evs [acts [E [[Hm [Hp Hok]] HP]]]] H2.
  unfold contract. rewrite bind_run. destruct (c1 s) as [[[]|m|e] s1] eqn:Hc1; simpl in *.
  - specialize (H2 s1 eq_refl (HP eq_refl)).
    destruct H2 as [evs2 [acts2 [E2 [[Hm2 [Hp2 Hok2]] HQ]]]].
    destruct (Hok eq_refl) as [Hev Hac].
    exists (evs ++ evs2), (acts ++ acts2).
    split; [exact (effect_trans E E2)|]. split; [|exact HQ].
    rewrite (eff_check_mode E) in Hm2, Hok2.
    unfold within. rewrite mutations_app. repeat split.
    + destruct (check_mode (mgr s)) eqn:Hc.
      * now rewrite Hm, Hm2.
      * destruct Hm2 as [k Hk]. exists k.
        rewrite (Hev eq_refl), Hk. now rewrite app_assoc.
    + destruct Hp2 as [k Hk]. exists k. rewrite Hac, Hk. now rewrite app_assoc.
    + intros Hc. destruct (Hok2 H) as [Hev2 _].
      now rewrite (Hev Hc), (Hev2 Hc).
    + destruct (Hok2 H) as [_ Hac2]. now rewrite Hac, Hac2.
  - exists evs, acts. split; [exact E|]. split; [|discriminate].
    unfold within. repeat split; try discriminate.
    + destruct (check_mode (mgr s)); auto.
      destruct Hm as [k Hk]. exists (k ++ i2). rewrite Hk. now rewrite app_assoc.
    + destruct Hp as [k Hk]. exists (k ++ a2). rewrite Hk. now rewrite app_assoc.
  - exists evs, acts. split; [exact E|]. split; [|discriminate].
    unfold within. repeat split; try discriminate.
    + destruct (check_mode (mgr s)); auto.
      destruct Hm as [k Hk]. exists (k ++ i2). rewrite Hk. now rewrite app_assoc.
    + destruct Hp as [k Hk]. exists (k ++ a2). rewrite Hk. now rewrite app_assoc.
Qed.

End ContractFacts.

Section MethodFacts.
Variable world : Type.
Variable api : DockerAPI world.

Implicit Types s : st world.

Lemma disconnect_container_step (x : string) s :
  has_actions s ->
  step_result (CDisconnect x (network_name (parameters (mgr s))))
    ("Disconnected container " ++ x) s
    (fst (disconnect_container api x s)) (snd (disconnect_container api x s)).
Proof.
  intros [l Hl]. open_state s. simpl in Hl. subst ac.
  unfold step_result, same_network, disconnect_container, bind, self, when,
    client_write, unit_call, append_action, mark_changed, track, update, ret, raise.
  simpl. destruct chk; simpl.
  - split; auto. left. split; auto. effect_by_computation.
  - destruct (disconnect_container_from_network api w x (network_name p)) as [e|w'];
      simpl; split; auto.
    + right. exists e. split; [auto|split; [auto|effect_by_computation]].
    + left. split; auto. effect_by_computation.
Qed.

Lemma container_names_cases (n : network) :
  container_names_in_network n =
  match Containers n with
  | Some (c :: cs) => dict_values (c :: cs)
  | _ => []
  end.
Proof.
  unfold container_names_in_network. destruct (Containers n) as [[|c cs]|]; reflexivity.
Qed.

Lemma pinned_kept p en s s' evs acts :
  pinned p en s -> effect s s' evs acts -> same_network s s' -> pinned p en s'.
Proof.
  intros [Hp Hn] E Hs. split.
  - now rewrite (eff_parameters E).
  - unfold same_network in Hs. congruence.
Qed.

(** [connect_containers] on an existing network: one connection for each
    desired container that is not among the network's containers. *)
Lemma connect_containers_loop s (net : network) :
  has_actions s -> existing_network (mgr s) = Some net ->
  loop_result
    (fun x => CConnect x (network_name (parameters (mgr s))))
    (fun x => ("Connected container " ++ x)%string)
    (filter (fun x => negb (existsb (String.eqb x) (container_names_in_network net)))
            (connected (parameters (mgr s))))
    s (fst (connect_containers api s)) (snd (connect_containers api s)).
Proof.
  intros Ha Hn.
  change (connect_containers api s) with
    (for_each (connected (parameters (mgr s)))
       (fun name =>
          bind (is_container_connected name) (fun c =>
          when (negb c)
            (bind self (fun m =>
             bind (when (negb (check_mode m))
                     (client_write (CConnect name (network_name (parameters m)))
                        (fun w => unit_call (connect_container_to_network api w
                                     name (network_name (parameters m))))))
               (fun _ =>
             bind (append_action ("Connected container " ++ name)) (fun _ =>
             bind mark_changed (fun _ =>
             track ("connected." ++ name) (DBool true) (DBool false)))))))) s).
  apply for_each_loop with (Inv := pinned (parameters (mgr s)) (Some net)).
  - intros. eapply pinned_kept; eauto.
  - intros x s1 [Hp1 Hn1] [l Hl].
    open_state s1. simpl in Hp1, Hn1, Hl. subst ac en.
    unfold is_container_connected, bind, self, when, ret. simpl.
    destruct (existsb (String.eqb x) (container_names_in_network net)); simpl; auto.
    rewrite <- Hp1.
    unfold step_result, same_network, bind, self, when,
      client_write, unit_call, append_action, mark_changed, track, update, ret, raise.
    simpl. destruct chk; simpl.
    + split; auto. left. split; auto. effect_by_computation.
    + destruct (connect_container_to_network api w x (network_name p)) as [e|w'];
        simpl; split; auto.
      * right. exists e. split; [auto|split; [auto|effect_by_computation]].
      * left. split; auto. effect_by_computation.
  - split; auto.
  - exact Ha.
Qed.

(** [disconnect_missing] on an existing network: one disconnection for
    each container of the network that is not desired. *)
Lemma disconnect_missing_loop s (net : network) :
  has_actions s -> existing_network (mgr s) = Some net ->
  loop_result
    (fun x => CDisconnect x (network_name (parameters (mgr s))))
    (fun x => ("Disconnected container " ++ x)%string)
    (filter (fun x => negb (existsb (String.eqb x) (connected (parameters (mgr s)))))
            (container_names_in_network net))
    s (fst (disconnect_missing api s)) (snd (disconnect_missing api s)).
Proof.
  intros Ha Hn.
  assert (Hrun : disconnect_missing api s =
                 for_each (container_names_in_network net)
                   (fun name =>
                      bind self (fun m =>
                      when (negb (existsb (String.eqb name) (connected (parameters m))))
                        (disconnect_container api name))) s).
  { unfold disconnect_missing, bind at 1, self at 1. simpl. rewrite Hn.
    rewrite container_names_cases.
    destruct (Containers net) as [[|c cs]|]; reflexivity. }
  rewrite Hrun.
  apply for_each_loop with (Inv := pinned (parameters (mgr s)) (Some net)).
  - intros. eapply pinned_kept; eauto.
  - intros x s1 [Hp1 Hn1] Ha1.
    rewrite bind_self, Hp1.
    destruct (existsb (String.eqb x) (connected (parameters (mgr s))));
      [reflexivity|].
    unfold negb, when. rewrite <- Hp1. now apply disconnect_container_step.
  - split; auto.
  - exact Ha.
Qed.

Lemma logged_effect c s :
  effect s (logged c s) [c] [] /\ same_network s (logged c s).
Proof.
  split; [|reflexivity]. constructor; simpl; auto.
  - intros l Hl. now rewrite app_nil_r.
  - now rewrite orb_false_r.
Qed.

Lemma client_read_run (c : call) (f : world -> exn + network) s :
  client_read c f s =
  match f (remote s) with
  | inr n => (Ok n, logged c s)
  | inl e => (Raise e, logged c s)
  end.
Proof. reflexivity. Qed.

(** [disconnect_all_containers]: the fresh inspection, then one
    disconnection for each container it reports. *)
Lemma disconnect_all_containers_run s :
  has_actions s ->
  let name := network_name (parameters (mgr s)) in
  match inspect_network api (remote s) name with
  | inl e =>
      disconnect_all_containers api s = (Raise e, logged (CInspect name) s)
  | inr n =>
      loop_result
        (fun x => CDisconnect x name)
        (fun x => ("Disconnected container " ++ x)%string)
        (container_names_in_network n)
        (logged (CInspect name) s)
        (fst (disconnect_all_containers api s))
        (snd (disconnect_all_containers api s))
  end.
Proof.
  intros Ha name.
  unfold disconnect_all_containers. rewrite bind_self, bind_run, client_read_run.
  fold name.
  destruct (inspect_network api (remote s) name) as [e|n]; [reflexivity|].
  assert (Hrun : (match Containers n with
                  | Some (c :: cs) =>
                      for_each (dict_values (c :: cs)) (disconnect_container api)
                  | _ => ret tt
                  end) (logged (CInspect name) s)
                 = for_each (container_names_in_network n)
                     (disconnect_container api) (logged (CInspect name) s)).
  { rewrite container_names_cases.
    destruct (Containers n) as [[|c cs]|]; reflexivity. }
  rewrite Hrun.
  pose proof (@for_each_loop world string (disconnect_container api)
                (fun x => CDisconnect x name)
                (fun x => ("Disconnected container " ++ x)%string)
                (fun _ => true)
                (pinned (parameters (mgr s)) (existing_network (mgr s)))) as L.
  rewrite <- (filter_true (container_names_in_network n)) at 1.
  apply L.
  - intros. eapply pinned_kept; eauto.
  - intros x s1 [Hp1 Hn1] Ha1. unfold name. rewrite <- Hp1.
    now apply disconnect_container_step.
  - split; reflexivity.
  - destruct Ha as [l Hl]. exists l. exact Hl.
Qed.

End MethodFacts.

(* ===================================================================== *)
(** ** MembershipReconciler *)
(* ===================================================================== *)

Lemma in_absent_filter (x : string) (l others : list string) :
  In x (filter (fun y => negb (existsb (String.eqb y) others)) l) <->
  In x l /\ ~ In x others.
Proof.
  rewrite filter_In, negb_true_iff, existsb_eqb_not_In. tauto.
Qed.

Section Membership.
Variable world : Type.
Variable api : DockerAPI world.

(** [membership_sync] is the tail of [reconcile]: [connect_containers]
    followed by [disconnect_missing] unless [appends] is set. *)
Lemma membership_sync_run (s : st world) :
  membership_sync api s =
  bind (connect_containers api)
    (fun _ => when (negb (appends (parameters (mgr s)))) (disconnect_missing api)) s.
Proof. reflexivity. Qed.

(** C2.  On an existing network the membership statements of [present]
    carry out the plan: a connection is issued (and logged) only for a
    desired container that is not among the observed ones, a disconnection
    only for an observed container that is not desired and only when
    [appends] is off; a run that returns has issued exactly the plan (and
    in check mode logged it without calling the client). *)
Theorem membership_follows_plan (s : st world) (net : network) :
  has_actions s ->
  existing_network (mgr s) = Some net ->
  let p := parameters (mgr s) in
  let observed := container_names_in_network net in
  let toConnect := fst (planMembership (connected p) observed (appends p)) in
  let toDisconnect := snd (planMembership (connected p) observed (appends p)) in
  let o := fst (membership_sync api s) in
  let s' := snd (membership_sync api s) in
  (forall c, In c toConnect -> ~ In c observed) /\
  (forall c, In c toDisconnect -> In c observed /\ ~ In c (connected p)) /\
  (appends p = true -> toDisconnect = []) /\
  exists evs acts,
    effect s s' evs acts /\
    (forall e, In e evs ->
       (exists c, e = CConnect c (network_name p) /\ In c toConnect) \/
       (exists c, e = CDisconnect c (network_name p) /\ In c toDisconnect)) /\
    (forall a, In a acts ->
       (exists c, a = ("Connected container " ++ c)%string /\ In c toConnect) \/
       (exists c, a = ("Disconnected container " ++ c)%string /\ In c toDisconnect)) /\
    (o = Ok tt ->
       acts = map (fun c => ("Connected container " ++ c)%string) toConnect ++
              map (fun c => ("Disconnected container " ++ c)%string) toDisconnect /\
       evs = if check_mode (mgr s) then []
             else map (fun c => CConnect c (network_name p)) toConnect ++
                  map (fun c => CDisconnect c (network_name p)) toDisconnect).
Proof.
  intros Ha Hn p observed toConnect toDisconnect o s'.
  split; [|split; [|split]].
  - intros c Hc. apply in_absent_filter in Hc. tauto.
  - intros c Hc. unfold toDisconnect, planMembership in Hc.
    destruct (appends p); simpl in Hc; [tauto|].
    now apply in_absent_filter in Hc.
  - intros Happ. unfold toDisconnect, planMembership. now rewrite Happ.
  - subst o s'. unfold membership_sync. rewrite bind_self, bind_run. fold p.
    pose proof (@connect_containers_loop world api s net Ha Hn) as L1.
    fold p observed in L1.
    change (filter _ (connected p)) with toConnect in L1.
    destruct (connect_containers api s) as [o1 s1]. cbn [fst snd] in L1.
    destruct L1 as [Hnet1 [[Ho1 E1]|[e [done [x [rest [Ho1 [Hchk [Hpl E1]]]]]]]]].
    + subst o1.
      assert (Ha1 : has_actions s1) by (eapply effect_has_actions; eauto).
      assert (Hn1 : existing_network (mgr s1) = Some net)
        by (unfold same_network in Hnet1; congruence).
      assert (Hconn : forall e,
                 In e (if check_mode (mgr s) then []
                       else map (fun c => CConnect c (network_name p)) toConnect) ->
                 exists c, e = CConnect c (network_name p) /\ In c toConnect).
      { intros e He. destruct (check_mode (mgr s)); [destruct He|].
        apply in_map_iff in He. destruct He as [c [<- Hc]]. eauto. }
      assert (Hmsg : forall a,
                 In a (map (fun c => ("Connected container " ++ c)%string) toConnect) ->
                 exists c, a = ("Connected container " ++ c)%string /\ In c toConnect).
      { intros a Hin. apply in_map_iff in Hin. destruct Hin as [c [<- Hc]]. eauto. }
      unfold toDisconnect, planMembership. simpl snd.
      destruct (appends p) eqn:Happ.
      * simpl. exists (if check_mode (mgr s) then []
                       else map (fun c => CConnect c (network_name p)) toConnect),
                      (map (fun c => ("Connected container " ++ c)%string) toConnect).
        split; [exact E1|]. split; [|split].
        -- intros e He. left. now apply Hconn.
        -- intros a Hin. left. now apply Hmsg.
        -- intros _. rewrite !app_nil_r. destruct (check_mode (mgr s)); auto.
      * cbn [negb when].
        pose proof (@disconnect_missing_loop world api s1 net Ha1 Hn1) as L2.
        unfold loop_result in L2.
        rewrite (eff_parameters E1), (eff_check_mode E1) in L2.
        fold p observed in L2.
        set (toDisc := filter (fun x => negb (existsb (String.eqb x) (connected p)))
                              observed) in *.
        destruct (disconnect_missing api s1) as [o2 s2]. cbn [fst snd] in L2 |- *.
        destruct L2 as [Hnet2 [[Ho2 E2]|[e [done [x [rest [Ho2 [Hchk [Hpl E2]]]]]]]]].
        -- eexists; eexists. split; [exact (effect_trans E1 E2)|].
           split; [|split].
           ++ intros e He. apply in_app_or in He. destruct He as [He|He].
              ** left. now apply Hconn.
              ** right. destruct (check_mode (mgr s)); [destruct He|].
                 apply in_map_iff in He. destruct He as [c [<- Hc]]. eauto.
           ++ intros a Hin. apply in_app_or in Hin. destruct Hin as [Hin|Hin].
              ** left. now apply Hmsg.
              ** right. apply in_map_iff in Hin. destruct Hin as [c [<- Hc]]. eauto.
           ++ intros _. split; auto. destruct (check_mode (mgr s)); auto.
        -- rewrite Hchk in *.
           eexists; eexists. split; [exact (effect_trans E1 E2)|].
           split; [|split].
           ++ intros e' He. apply in_app_or in He. destruct He as [He|He].
              ** left. now apply Hconn.
              ** right. apply in_map_iff in He. destruct He as [c [<- Hc]].
                 exists c. split; auto. rewrite Hpl.
                 apply in_app_or in Hc. apply in_or_app.
                 destruct Hc as [Hc|[Hc|[]]]; [now left|right; now left].
           ++ intros a Hin. apply in_app_or in Hin. destruct Hin as [Hin|Hin].
              ** left. now apply Hmsg.
              ** right. apply in_map_iff in Hin. destruct Hin as [c [<- Hc]].
                 exists c. split; auto. rewrite Hpl. apply in_or_app. now left.
           ++ intros Hok. subst o2. discriminate.
    + subst o1. rewrite Hchk in *.
      eexists; eexists. split; [exact E1|]. split; [|split].
      * intros e' He. left. apply in_map_iff in He. destruct He as [c [<- Hc]].
        exists c. split; auto. rewrite Hpl.
        apply in_app_or in Hc. apply in_or_app.
        destruct Hc as [Hc|[Hc|[]]]; [now left|right; now left].
      * intros a Hin. left. apply in_map_iff in Hin. destruct Hin as [c [<- Hc]].
        exists c. split; auto. rewrite Hpl. apply in_or_app. now left.
      * intros Hok. discriminate.
Qed.

End Membership.

(* ===================================================================== *)
(** ** The stages of [present] *)
(* ===================================================================== *)

Section Stages.
Variable world : Type.
Variable api : DockerAPI world.

Implicit Types s : st world.

Lemma bind_assoc {A B C : Type} (c : M world A) (f : A -> M world B)
  (g : B -> M world C) s :
  bind (bind c f) g s = bind c (fun a => bind (f a) g) s.
Proof.
  unfold bind. destruct (c s) as [[a|m|e] s1]; reflexivity.
Qed.

Lemma bind_ext {A B : Type} (c : M world A) (f g : A -> M world B) s :
  (forall a s1, f a s1 = g a s1) -> bind c f s = bind c g s.
Proof.
  intros H. unfold bind. destruct (c s) as [[a|m|e] s1]; auto.
Qed.

(** [present] runs the comparison, records [exists], reconciles and
    reports. *)
Lemma present_stages s :
  present api s =
  match compare_existing (mgr s) with
  | Ok (different, differences) =>
      bind (track "exists" (DBool true) (DBool (is_some (existing_network (mgr s)))))
        (fun _ => bind (reconcile api (mgr s) different)
                    (fun _ => report api (mgr s) differences)) s
  | Fail msg => (Fail msg, s)
  | Raise e => (Raise e, s)
  end.
Proof.
  unfold present. rewrite bind_self, bind_run. unfold compare_existing.
  assert (Hc : (match existing_network (mgr s) with
                | Some n => lift (has_different_config (parameters (mgr s)) n)
                | None => ret (false, DifferenceTracker.new)
                end) s
               = (match existing_network (mgr s) with
                  | Some n => has_different_config (parameters (mgr s)) n
                  | None => Ok (false, DifferenceTracker.new)
                  end, s)).
  { destruct (existing_network (mgr s)); reflexivity. }
  rewrite Hc.
  destruct (match existing_network (mgr s) with
            | Some n => has_different_config (parameters (mgr s)) n
            | None => Ok (false, DifferenceTracker.new)
            end) as [[different differences]|msg|e]; try reflexivity.
  apply bind_ext. intros _ s1. unfold reconcile, report.
  rewrite bind_assoc. apply bind_ext. intros _ s2.
  rewrite bind_assoc. apply bind_ext. intros _ s3.
  rewrite bind_assoc. apply bind_ext. intros _ s4.
  reflexivity.
Qed.

End Stages.

Section MethodContracts.
Variable world : Type.
Variable api : DockerAPI world.

Implicit Types s : st world.

Lemma prefix_refl {A : Type} (l : list A) : exists k, l = l ++ k.
Proof. exists []. now rewrite app_nil_r. Qed.

Lemma prefix_nil {A : Type} (l : list A) : exists k, l = [] ++ k.
Proof. now exists l. Qed.

(** A computation that does nothing to the logs. *)
Lemma contract_silent (c : M world unit) s (P : st world -> Prop) :
  c s = (Ok tt, s) -> P s -> contract c s [] [] P.
Proof.
  intros Hc HP. exists [], []. rewrite Hc. simpl.
  split; [apply effect_refl|]. split; [|auto].
  unfold within. destruct (check_mode (mgr s)); repeat split; auto;
    apply prefix_refl.
Qed.

(** A computation that stops before it logs anything. *)
Lemma contract_stuck (c : M world unit) s e
  (ideal : list call) (ideal_acts : list string) (P : st world -> Prop) :
  c s = (Raise e, s) -> contract c s ideal ideal_acts P.
Proof.
  intros Hc. exists [], []. rewrite Hc. simpl.
  split; [apply effect_refl|]. split; [|discriminate].
  unfold within. destruct (check_mode (mgr s)); repeat split; auto;
    try discriminate; apply prefix_nil.
Qed.

Lemma step_result_contract (ev : call) (msg : string) (c : M world unit) s :
  is_mutation ev = true ->
  step_result ev msg s (fst (c s)) (snd (c s)) ->
  contract c s [ev] [msg] (same_network s).
Proof.
  intros Hm [Hnet H].
  apply (@loop_result_contract world unit (fun _ => ev) (fun _ => msg) [tt] c s).
  - intros _. exact Hm.
  - split; [exact Hnet|]. destruct H as [[Ho E]|[e [Ho [Hc E]]]].
    + left. split; auto.
    + right. exists e, [], tt, []. repeat split; auto; apply E.
Qed.

(** A plan that starts after an inspection was logged. *)
Lemma contract_after_read (c c0 : M world unit) (r : call) s
  (ideal : list call) (ideal_acts : list string) (P : st world -> Prop) :
  is_mutation r = false ->
  c s = c0 (logged r s) ->
  contract c0 (logged r s) ideal ideal_acts P ->
  contract c s ideal ideal_acts P.
Proof.
  intros Hr Hrun [evs [acts [E [W HP]]]].
  exists (r :: evs), acts. rewrite Hrun.
  destruct (logged_effect r s) as [E0 _].
  split; [exact (effect_trans E0 E)|]. split; [|exact HP].
  unfold within in *. change (check_mode (mgr (logged r s))) with (check_mode (mgr s)) in W.
  unfold mutations in *. simpl. rewrite Hr. exact W.
Qed.

Lemma remove_network_contract s :
  has_actions s ->
  let name := network_name (parameters (mgr s)) in
  contract (remove_network api) s
    (map (fun c => CDisconnect c name) (remove_plan api s) ++
     if removes api s then [CRemove name] else [])
    (map msg_disconnected (remove_plan api s) ++
     if removes api s then [msg_removed name] else [])
    (same_network s).
Proof.
  intros Ha name. unfold remove_plan, removes. fold name.
  assert (Hrun : remove_network api s =
                 when (is_some (existing_network (mgr s)))
                   (bind (disconnect_all_containers api) (fun _ =>
                    bind (when (negb (check_mode (mgr s)))
                            (client_write (CRemove name)
                               (fun w => unit_call (remove_network_call api w name))))
                      (fun _ =>
                    bind (append_action ("Removed network " ++ name)) (fun _ =>
                    mark_changed)))) s) by reflexivity.
  destruct (existing_network (mgr s)) as [nn|] eqn:Hen.
  - simpl in Hrun.
    pose proof (@disconnect_all_containers_run world api s Ha) as D.
    cbv zeta in D. fold name in D.
    destruct (inspect_network api (remote s) name) as [e|n] eqn:Hi.
    + simpl. exists [CInspect name], [].
      unfold contract. rewrite Hrun, bind_run, D. simpl.
      split; [apply logged_effect|]. split; [|discriminate].
      unfold within. destruct (check_mode (mgr s)); repeat split; auto;
        try discriminate; apply prefix_nil.
    + unfold contract. rewrite Hrun. fold (contract
        (bind (disconnect_all_containers api) (fun _ =>
         bind (when (negb (check_mode (mgr s)))
                 (client_write (CRemove name)
                    (fun w => unit_call (remove_network_call api w name))))
           (fun _ => bind (append_action ("Removed network " ++ name))
                       (fun _ => mark_changed)))) s
        (map (fun c => CDisconnect c name) (container_names_in_network n) ++
         [CRemove name])
        (map msg_disconnected (container_names_in_network n) ++ [msg_removed name])
        (same_network s)).
      apply contract_seq with (P := same_network s).
      * apply (@contract_after_read _
                 (for_each (container_names_in_network n) (disconnect_container api))
                 (CInspect name)); [reflexivity| |].
        -- unfold disconnect_all_containers.
           rewrite bind_self, bind_run, client_read_run. fold name. rewrite Hi.
           rewrite container_names_cases.
           destruct (Containers n) as [[|c cs]|]; reflexivity.
        -- assert (Hsame : forall c0 : M world unit,
                      contract c0 (logged (CInspect name) s)
                        (map (fun c => CDisconnect c name) (container_names_in_network n))
                        (map msg_disconnected (container_names_in_network n))
                        (same_network (logged (CInspect name) s)) ->
                      contract c0 (logged (CInspect name) s)
                        (map (fun c => CDisconnect c name) (container_names_in_network n))
                        (map msg_disconnected (container_names_in_network n))
                        (same_network s)) by (intros c0 H; exact H).
           apply Hsame. apply loop_result_contract; [reflexivity|].
           assert (Hfe : for_each (container_names_in_network n)
                           (disconnect_container api) (logged (CInspect name) s)
                         = disconnect_all_containers api s).
           { unfold disconnect_all_containers.
             rewrite bind_self, bind_run, client_read_run. fold name. rewrite Hi.
             rewrite container_names_cases.
             destruct (Containers n) as [[|c cs]|]; reflexivity. }
           rewrite Hfe. exact D.
      * intros s1 Hs1 Hnet1.
        assert (Ha1 : has_actions s1).
        { destruct D as [_ [[_ E]|[e [dn [x [rest [Ho _]]]]]]].
          - rewrite Hs1 in E. simpl in E.
            eapply effect_has_actions; [exact E|].
            destruct Ha as [l Hl]. exists l. exact Hl.
          - rewrite Hs1 in Ho. discriminate. }
        assert (Hp1 : parameters (mgr s1) = parameters (mgr s)).
        { destruct D as [_ [[_ E]|[e [dn [x [rest [Ho _]]]]]]].
          - rewrite Hs1 in E. simpl in E. exact (eff_parameters E).
          - rewrite Hs1 in Ho. discriminate. }
        assert (Hc1 : check_mode (mgr s1) = check_mode (mgr s)).
        { destruct D as [_ [[_ E]|[e [dn [x [rest [Ho _]]]]]]].
          - rewrite Hs1 in E. simpl in E. exact (eff_check_mode E).
          - rewrite Hs1 in Ho. discriminate. }
        assert (C : contract
                      (bind (when (negb (check_mode (mgr s)))
                               (client_write (CRemove name)
                                  (fun w => unit_call (remove_network_call api w name))))
                         (fun _ => bind (append_action ("Removed network " ++ name))
                                     (fun _ => mark_changed)))
                      s1 [CRemove name] [msg_removed name] (same_network s1)).
        { apply step_result_contract; [reflexivity|].
          destruct Ha1 as [l Hl]. rewrite <- Hc1. clear - Hl.
          open_state s1. simpl in Hl. subst ac.
          unfold step_result, same_network, bind, self, when,
            client_write, unit_call, append_action, mark_changed, update, ret, raise.
          simpl. destruct chk; simpl.
          - split; auto. left. split; auto. effect_by_computation.
          - destruct (remove_network_call api w name) as [e|w'];
              simpl; split; auto.
            + right. exists e. split; [auto|split; [auto|effect_by_computation]].
            + left. split; auto. effect_by_computation. }
        destruct C as [evs [acts [E [W HP]]]].
        exists evs, acts. split; [exact E|]. split; [exact W|].
        intros Hok. eapply same_network_trans; [exact Hnet1|]. now apply HP.
  - apply contract_silent; [|reflexivity]. rewrite Hrun. reflexivity.
Qed.

Lemma create_network_contract s :
  has_actions s ->
  contract (create_network api) s (create_plan s) (create_log s) (fun _ => True).
Proof.
  intros [l Hl]. unfold create_plan, create_log.
  destruct (existing_network (mgr s)) as [nn|] eqn:Hen.
  - apply contract_silent; auto.
    unfold create_network. rewrite bind_self, Hen. reflexivity.
  - open_state s. simpl in Hl, Hen. subst ac en.
    unfold contract, create_network, bind, self, when, client_write, client_read,
      append_action, mark_changed, update, ret, raise.
    simpl. destruct chk; simpl.
    + exists [], [msg_created (network_name p) (driver p)].
      split; [effect_by_computation|]. split; [|auto].
      unfold within. simpl. repeat split; auto; try discriminate.
      exists []. reflexivity.
    + destruct (create_network_call api w (network_name p) (build_create_params p))
        as [e|[id w']]; simpl.
      * exists [CCreate (network_name p) (build_create_params p)], [].
        split; [effect_by_computation|]. split; [|discriminate].
        unfold within. simpl. repeat split; try discriminate.
        -- exists []. reflexivity.
        -- eexists. reflexivity.
      * destruct (inspect_network api w' id) as [e|n]; simpl.
        -- exists [CCreate (network_name p) (build_create_params p); CInspect id], [].
           split; [effect_by_computation|]. split; [|discriminate].
           unfold within. simpl. repeat split; try discriminate.
           ++ exists []. reflexivity.
           ++ eexists. reflexivity.
        -- exists [CCreate (network_name p) (build_create_params p); CInspect id],
                  [msg_created (network_name p) (driver p)].
           split; [effect_by_computation|]. split; [|auto].
           unfold within. simpl. repeat split; auto.
           ++ exists []. reflexivity.
           ++ exists []. reflexivity.
Qed.

Lemma connect_containers_contract s :
  has_actions s ->
  contract (connect_containers api) s
    (map (fun c => CConnect c (network_name (parameters (mgr s)))) (connect_plan s))
    (map msg_connected (connect_plan s))
    (same_network s).
Proof.
  intros Ha. unfold connect_plan.
  destruct (existing_network (mgr s)) as [net|] eqn:Hen.
  - apply loop_result_contract; [reflexivity|].
    now apply connect_containers_loop.
  - open_state s. simpl in Hen. subst en. destruct (connected p) as [|x l] eqn:Hc.
    + apply contract_silent; [|reflexivity].
      unfold connect_containers. rewrite bind_self. simpl. rewrite Hc. reflexivity.
    + apply contract_stuck with (e := TypeError "'NoneType' object is not subscriptable").
      unfold connect_containers. rewrite bind_self. simpl. rewrite Hc. reflexivity.
Qed.

Lemma disconnect_missing_contract s :
  has_actions s ->
  contract (disconnect_missing api) s
    (map (fun c => CDisconnect c (network_name (parameters (mgr s)))) (disconnect_plan s))
    (map msg_disconnected (disconnect_plan s))
    (same_network s).
Proof.
  intros Ha. unfold disconnect_plan.
  destruct (existing_network (mgr s)) as [net|] eqn:Hen.
  - apply loop_result_contract; [reflexivity|].
    now apply disconnect_missing_loop.
  - apply contract_silent; [|reflexivity].
    unfold disconnect_missing. rewrite bind_self, Hen. reflexivity.
Qed.

(** What a contract says about the state a returning run ends in. *)
Lemma contract_frame (c : M world unit) s ideal ideal_acts (P : st world -> Prop) :
  has_actions s ->
  contract c s ideal ideal_acts P ->
  contract c s ideal ideal_acts
    (fun s' => P s' /\ has_actions s' /\
               parameters (mgr s') = parameters (mgr s) /\
               check_mode (mgr s') = check_mode (mgr s)).
Proof.
  intros Ha [evs [acts [E [W HP]]]]. exists evs, acts.
  split; [exact E|]. split; [exact W|]. intros Hok.
  split; [auto|]. split; [eapply effect_has_actions; eauto|].
  split; [apply (eff_parameters E)|apply (eff_check_mode E)].
Qed.

Lemma contract_weaken (c : M world unit) s ideal ideal_acts (P Q : st world -> Prop) :
  (forall s', P s' -> Q s') ->
  contract c s ideal ideal_acts P -> contract c s ideal ideal_acts Q.
Proof.
  intros HPQ [evs [acts [E [W HP]]]]. exists evs, acts. auto.
Qed.

(** Sequencing when the plan of the second part is only known once the
    first part has returned. *)
Lemma contract_seq_ex (c1 c2 : M world unit) s
  (i1 : list call) (a1 : list string) (P Q : st world -> Prop)
  (R : list call -> list string -> Prop) :
  contract c1 s i1 a1 P ->
  (exists i2 a2, R i2 a2) ->
  (forall s1, c1 s = (Ok tt, s1) -> P s1 ->
              exists i2 a2, R i2 a2 /\ contract c2 s1 i2 a2 Q) ->
  exists i2 a2, R i2 a2 /\
    contract (bind c1 (fun _ => c2)) s (i1 ++ i2) (a1 ++ a2) Q.
Proof.
  intros C1 [i0 [a0 R0]] H2.
  destruct (c1 s) as [[[]|m|e] s1] eqn:Hc1.
  - destruct C1 as [evs [acts [E [W HP]]]].
    assert (HP1 : P s1) by (rewrite Hc1 in HP; now apply HP).
    destruct (H2 s1 eq_refl HP1) as [i2 [a2 [HR C2]]].
    exists i2, a2. split; [exact HR|].
    apply contract_seq with (P := P).
    + exists evs, acts. auto.
    + intros s1' Heq _. rewrite Hc1 in Heq. inversion Heq; subst. exact C2.
  - exists i0, a0. split; [exact R0|].
    apply contract_seq with (P := P); [exact C1|].
    intros s1' Heq. rewrite Hc1 in Heq. discriminate.
  - exists i0, a0. split; [exact R0|].
    apply contract_seq with (P := P); [exact C1|].
    intros s1' Heq. rewrite Hc1 in Heq. discriminate.
Qed.

(** The membership statements: some connections, then some
    disconnections. *)
Lemma sync_contract s (m : manager) :
  has_actions s -> parameters (mgr s) = parameters m ->
  let name := network_name (parameters m) in
  exists cs ds,
    contract (bind (connect_containers api) (fun _ =>
              when (negb (appends (parameters m))) (disconnect_missing api))) s
      (map (fun c => CConnect c name) cs ++ map (fun c => CDisconnect c name) ds)
      (map msg_connected cs ++ map msg_disconnected ds)
      (fun _ => True).
Proof.
  intros Ha Hp name.
  pose proof (contract_frame Ha (connect_containers_contract Ha)) as C1.
  rewrite Hp in C1. fold name in C1.
  destruct (@contract_seq_ex _
              (when (negb (appends (parameters m))) (disconnect_missing api)) s _ _ _
              (fun _ => True)
              (fun i a => exists ds, i = map (fun c => CDisconnect c name) ds /\
                                     a = map msg_disconnected ds) C1)
    as [i2 [a2 [[ds [Hi Hacts]] C]]].
  - exists [], [], []. split; reflexivity.
  - intros s1 _ [_ [Ha1 [Hp1 _]]].
    destruct (appends (parameters m)).
    + exists [], []. split; [exists []; split; reflexivity|].
      apply contract_silent; auto.
    + exists (map (fun c => CDisconnect c name) (disconnect_plan s1)),
             (map msg_disconnected (disconnect_plan s1)).
      split; [eexists; split; reflexivity|].
      pose proof (disconnect_missing_contract Ha1) as C2.
      rewrite Hp1 in C2. fold name in C2.
      eapply contract_weaken; [|exact C2]. auto.
  - subst i2 a2. exists (connect_plan s), ds. exact C.
Qed.

(** The recreation statements: when they run, the network is removed and
    forgotten. *)
Lemma recreate_contract s (b : bool) :
  has_actions s ->
  let name := network_name (parameters (mgr s)) in
  contract (when b (bind (remove_network api)
                      (fun _ => update (set_existing_network None)))) s
    (if b then map (fun c => CDisconnect c name) (remove_plan api s) ++
               (if removes api s then [CRemove name] else [])
     else [])
    (if b then map msg_disconnected (remove_plan api s) ++
               (if removes api s then [msg_removed name] else [])
     else [])
    (fun s1 => existing_network (mgr s1) =
               if b then None else existing_network (mgr s)).
Proof.
  intros Ha name. destruct b.
  - rewrite <- (app_nil_r (map _ (remove_plan api s) ++ _)).
    rewrite <- (app_nil_r (map msg_disconnected (remove_plan api s) ++ _)).
    unfold when.
    apply contract_seq with (P := same_network s).
    + now apply remove_network_contract.
    + intros s1 _ _. exists [], []. split; [|split].
      * open_state s1. constructor; simpl; auto.
        -- now rewrite app_nil_r.
        -- intros l Hl. now rewrite app_nil_r.
        -- now rewrite orb_false_r.
      * unfold within. destruct (check_mode (mgr s1)); repeat split; auto;
          apply prefix_refl.
      * reflexivity.
  - apply contract_silent; reflexivity.
Qed.

(** The plan of [reconcile]: the recreation when it is called for, the
    creation when no network is left, then connections and
    disconnections. *)
Lemma reconcile_contract s (different : bool) :
  has_actions s ->
  let p := parameters (mgr s) in
  let name := network_name p in
  let recreate := force p || different in
  let creates := recreate || negb (is_some (existing_network (mgr s))) in
  exists cs ds,
    contract (reconcile api (mgr s) different) s
      ((if recreate then map (fun c => CDisconnect c name) (remove_plan api s) ++
                         (if removes api s then [CRemove name] else [])
        else []) ++
       (if creates then [CCreate name (build_create_params p)] else []) ++
       map (fun c => CConnect c name) cs ++ map (fun c => CDisconnect c name) ds)
      ((if recreate then map msg_disconnected (remove_plan api s) ++
                         (if removes api s then [msg_removed name] else [])
        else []) ++
       (if creates then [msg_created name (driver p)] else []) ++
       map msg_connected cs ++ map msg_disconnected ds)
      (fun _ => True).
Proof.
  intros Ha p name recreate creates. unfold reconcile. fold p recreate.
  pose proof (contract_frame Ha (recreate_contract recreate Ha)) as C1.
  fold p name in C1.
  destruct (@contract_seq_ex _
              (bind (create_network api) (fun _ =>
               bind (connect_containers api) (fun _ =>
               when (negb (appends p)) (disconnect_missing api)))) s _ _ _
              (fun _ => True)
              (fun i a => exists cs ds,
                   i = (if creates then [CCreate name (build_create_params p)] else []) ++
                       map (fun c => CConnect c name) cs ++
                       map (fun c => CDisconnect c name) ds /\
                   a = (if creates then [msg_created name (driver p)] else []) ++
                       map msg_connected cs ++ map msg_disconnected ds) C1)
    as [i2 [a2 [[cs [ds [Hi Hacts]]] C]]].
  - eexists; eexists. exists [], []. split; reflexivity.
  - intros s1 _ [Hen1 [Ha1 [Hp1 Hc1]]].
    pose proof (contract_frame Ha1 (create_network_contract Ha1)) as C2.
    assert (Hplan : create_plan s1 =
                    if creates then [CCreate name (build_create_params p)] else []).
    { unfold create_plan, creates. rewrite Hen1, Hp1. fold p name.
      destruct recreate; simpl; auto.
      destruct (existing_network (mgr s)); reflexivity. }
    assert (Hlog : create_log s1 =
                   if creates then [msg_created name (driver p)] else []).
    { unfold create_log, creates. rewrite Hen1, Hp1. fold p name.
      destruct recreate; simpl; auto.
      destruct (existing_network (mgr s)); reflexivity. }
    rewrite Hplan, Hlog in C2.
    destruct (@contract_seq_ex _
                (bind (connect_containers api) (fun _ =>
                 when (negb (appends p)) (disconnect_missing api))) s1 _ _ _
                (fun _ => True)
                (fun i a => exists cs ds,
                     i = map (fun c => CConnect c name) cs ++
                         map (fun c => CDisconnect c name) ds /\
                     a = map msg_connected cs ++ map msg_disconnected ds) C2)
      as [i3 [a3 [[cs [ds [Hi Hacts]]] C3]]].
    + exists [], [], [], []. split; reflexivity.
    + intros s2 _ [_ [Ha2 [Hp2 _]]].
      assert (Hpm : parameters (mgr s2) = parameters (mgr s))
        by (rewrite Hp2, Hp1; reflexivity).
      destruct (sync_contract (mgr s) Ha2 Hpm) as [cs [ds C4]].
      eexists; eexists. split; [exists cs, ds; split; reflexivity|exact C4].
    + subst i3 a3. eexists; eexists.
      split; [exists cs, ds; split; reflexivity|exact C3].
  - subst i2 a2. exists cs, ds. exact C.
Qed.

End MethodContracts.

(* ===================================================================== *)
(** ** The stages of a pass *)
(* ===================================================================== *)

Section Pass.
Variable world : Type.
Variable api : DockerAPI world.

Implicit Types s : st world.

Lemma init_prologue_run (client : AnsibleDockerClient) (w : world)
  (e : option network) :
  _get_minimal_versions client = Ok tt ->
  found (inspect_network api w (p_network_name (params client))) = Ok e ->
  init_prologue api client (mk_st (new_manager client) w [])
  = (Ok tt, ready_state client w e false).
Proof.
  intros Hv Hf. destruct client as [mp chk df pv av avs dv]. simpl in Hf.
  unfold init_prologue. rewrite bind_run. unfold lift at 1. rewrite Hv.
  rewrite bind_run. unfold get_existing_network.
  rewrite bind_self, client_read_run.
  change (remote (mk_st (new_manager (mk_client mp chk df pv av avs dv)) w [])) with w.
  change (network_name (parameters (mgr (mk_st
            (new_manager (mk_client mp chk df pv av avs dv)) w []))))
    with (p_network_name mp).
  destruct (inspect_network api w (p_network_name mp)) as [ex|n]; simpl in Hf.
  - destruct ex; try discriminate. inversion Hf; subst e.
    destruct mp as [nm [|c cs] ? ? ? ? ? ? ? ? ? ? ? ? ?]; reflexivity.
  - inversion Hf; subst e.
    destruct mp as [nm [|c cs] ? ? ? ? ? ? ? ? ? ? ? ? ?]; reflexivity.
Qed.

Lemma init_dispatch_run (client : AnsibleDockerClient) (w : world)
  (e : option network) (legacy : bool) :
  ipam_options_used (p_ipam_options (params client)) = Ok legacy ->
  init_dispatch api (ready_state client w e false)
  = bind (match p_state (params client) with
          | StPresent => present api
          | StAbsent => absent api
          end) (fun _ => assemble_diff) (ready_state client w e legacy).
Proof.
  intros Hl. unfold init_dispatch. rewrite bind_self, bind_run.
  change (ipam_options (parameters (mgr (ready_state client w e false))))
    with (p_ipam_options (params client)).
  unfold lift. rewrite Hl. rewrite bind_run.
  assert (Hs : when legacy
                 (update (fun m =>
                    set_parameters
                      (set_ipam_config (Some [ipam_options (parameters m)])
                         (parameters m)) m)) (ready_state client w e false)
               = (Ok tt, ready_state client w e legacy))
    by (destruct legacy; reflexivity).
  rewrite Hs. rewrite bind_self.
  assert (Hst : state (parameters (mgr (ready_state client w e legacy)))
                = p_state (params client)) by (destruct legacy; reflexivity).
  rewrite Hst. apply bind_ext. intros _ s1. reflexivity.
Qed.

(** A pass whose version check, first inspection and legacy IPAM test go
    through runs [present] or [absent] from the ready state. *)
Lemma main_ready (client : AnsibleDockerClient) (w : world)
  (e : option network) (legacy : bool) :
  _get_minimal_versions client = Ok tt ->
  found (inspect_network api w (p_network_name (params client))) = Ok e ->
  ipam_options_used (p_ipam_options (params client)) = Ok legacy ->
  main api client w =
  finish (match p_state (params client) with
          | StPresent => present api
          | StAbsent => absent api
          end (ready_state client w e legacy)).
Proof.
  intros Hv Hf Hl. unfold main, init_body.
  rewrite bind_assoc, bind_run, (init_prologue_run client w Hv Hf).
  rewrite bind_run, (init_dispatch_run client w e Hl), bind_run.
  unfold finish.
  destruct (match p_state (params client) with
            | StPresent => present api
            | StAbsent => absent api
            end (ready_state client w e legacy)) as [[[]|m|ex] s1]; reflexivity.
Qed.

(** A pass that does not get that far made no mutating call and does not
    return. *)
Lemma main_not_ready (client : AnsibleDockerClient) (w : world) :
  (forall e legacy,
      _get_minimal_versions client = Ok tt ->
      found (inspect_network api w (p_network_name (params client))) = Ok e ->
      ipam_options_used (p_ipam_options (params client)) = Ok legacy -> False) ->
  mutations (calls (snd (main api client w))) = [] /\
  forall res, fst (main api client w) <> Ok res.
Proof.
  intros Hnot.
  assert (H : exists o s',
             main api client w = (o, s') /\
             mutations (calls s') = [] /\ forall res, o <> Ok res).
  { unfold main, init_body.
    rewrite bind_assoc, bind_run.
    destruct (_get_minimal_versions client) as [[]|m|ex] eqn:Hv.
    - destruct (found (inspect_network api w (p_network_name (params client))))
        as [e|m|ex] eqn:Hf.
      + rewrite (init_prologue_run client w Hv Hf).
        rewrite bind_run.
        destruct (ipam_options_used (p_ipam_options (params client)))
          as [legacy|m|ex] eqn:Hl.
        * exfalso. eapply (Hnot e legacy); eauto.
        * unfold init_dispatch. rewrite bind_self, bind_run.
          change (ipam_options (parameters (mgr (ready_state client w e false))))
            with (p_ipam_options (params client)).
          unfold lift. rewrite Hl. eexists; eexists.
          split; [reflexivity|]. split; [reflexivity|discriminate].
        * unfold init_dispatch. rewrite bind_self, bind_run.
          change (ipam_options (parameters (mgr (ready_state client w e false))))
            with (p_ipam_options (params client)).
          unfold lift. rewrite Hl. eexists; eexists.
          split; [reflexivity|]. split; [reflexivity|discriminate].
      + destruct (inspect_network api w (p_network_name (params client))) as [[]|n];
          simpl in Hf; discriminate.
      + unfold init_prologue. rewrite bind_run. unfold lift at 1. rewrite Hv.
        rewrite bind_run. unfold get_existing_network.
        rewrite bind_self, client_read_run.
        change (remote (mk_st (new_manager client) w [])) with w.
        change (network_name (parameters (mgr (mk_st (new_manager client) w []))))
          with (p_network_name (params client)).
        destruct (inspect_network api w (p_network_name (params client))) as [ex'|n];
          [|discriminate].
        destruct ex'; simpl in Hf; try discriminate;
          (eexists; eexists; split; [reflexivity|];
           split; [reflexivity|discriminate]).
    - unfold init_prologue. rewrite bind_run. unfold lift at 1. rewrite Hv.
      eexists; eexists. split; [reflexivity|]. split; [reflexivity|discriminate].
    - unfold init_prologue. rewrite bind_run. unfold lift at 1. rewrite Hv.
      eexists; eexists. split; [reflexivity|]. split; [reflexivity|discriminate]. }
  destruct H as [o [s' [Hm [Hc Ho]]]]. rewrite Hm. simpl. auto.
Qed.

Lemma main_cases (client : AnsibleDockerClient) (w : world) :
  (exists e legacy,
      _get_minimal_versions client = Ok tt /\
      found (inspect_network api w (p_network_name (params client))) = Ok e /\
      ipam_options_used (p_ipam_options (params client)) = Ok legacy) \/
  (forall e legacy,
      _get_minimal_versions client = Ok tt ->
      found (inspect_network api w (p_network_name (params client))) = Ok e ->
      ipam_options_used (p_ipam_options (params client)) = Ok legacy -> False).
Proof.
  destruct (_get_minimal_versions client) as [[]|m|ex];
    try (right; intros; discriminate).
  destruct (found (inspect_network api w (p_network_name (params client))))
    as [e|m|ex]; try (right; intros; discriminate).
  destruct (ipam_options_used (p_ipam_options (params client)))
    as [legacy|m|ex]; try (right; intros; discriminate).
  left. exists e, legacy. auto.
Qed.

(** The end of [__init__] only assembles the diff. *)
Lemma finish_run (r : outcome unit * st world) :
  calls (snd (finish r)) = calls (snd r) /\
  forall res, fst (finish r) = Ok res ->
    fst r = Ok tt /\
    actions res = actions (results (mgr (snd r))) /\
    changed res = changed (results (mgr (snd r))) /\
    ansible_facts res = ansible_facts (results (mgr (snd r))).
Proof.
  destruct r as [[[]|m|e] s]; simpl; try (split; [reflexivity|discriminate]).
  destruct s as [[p chk [ch ac fa rd] df tr dr en] w cl].
  unfold assemble_diff, bind, self, when, update, ret. simpl.
  destruct (df || chk || debug p); destruct df; simpl;
    (split; [reflexivity|]); intros res H; inversion H; subst; auto.
Qed.

(** The last statements of [present]: one inspection, and the action log
    stays exactly when check or debug mode is on. *)
Lemma report_run (m : manager) (differences : DifferenceTracker.t) s :
  has_actions s ->
  let r := report api m differences s in
  calls (snd r) = calls s ++ [CInspect (network_name (parameters (mgr s)))] /\
  match found (inspect_network api (remote s) (network_name (parameters (mgr s)))) with
  | Ok facts =>
      fst r = Ok tt /\
      is_some (actions (results (mgr (snd r)))) =
        (check_mode m || debug (parameters m)) /\
      changed (results (mgr (snd r))) = changed (results (mgr s)) /\
      ansible_facts (results (mgr (snd r))) = Some facts
  | _ => fst r <> Ok tt
  end.
Proof.
  intros [l Hl]. destruct s as [[p chk [ch ac fa rd] df tr dr en] w cl].
  simpl in Hl. subst ac.
  unfold report, get_existing_network, bind, self, when, update, ret, raise,
    client_read. simpl.
  destruct (diff m || check_mode m || debug (parameters m));
    destruct (check_mode m); destruct (debug (parameters m)); simpl;
    destruct (inspect_network api w (network_name p)) as [[]|n]; simpl;
    (split; [reflexivity|]); try discriminate; repeat split; reflexivity.
Qed.

Lemma tracked_exists_has_actions desired s :
  has_actions s -> has_actions (tracked_exists desired s).
Proof. intros [l Hl]. exists l. exact Hl. Qed.

(** [present] once the comparison has returned. *)
Lemma present_reconciles s (different : bool) (differences : DifferenceTracker.t) :
  compare_existing (mgr s) = Ok (different, differences) ->
  present api s =
  match reconcile api (mgr (tracked_exists true s)) different (tracked_exists true s) with
  | (Ok _, s4) => report api (mgr s) differences s4
  | (Fail msg, s4) => (Fail msg, s4)
  | (Raise e, s4) => (Raise e, s4)
  end.
Proof.
  intros Hc. rewrite present_stages, Hc. rewrite bind_run.
  change (track "exists" (DBool true) (DBool (is_some (existing_network (mgr s)))) s)
    with (Ok tt, tracked_exists true s).
  cbv iota beta. rewrite bind_run. reflexivity.
Qed.

(** [present] when the comparison does not return. *)
Lemma present_stops s :
  (forall r, compare_existing (mgr s) <> Ok r) ->
  snd (present api s) = s /\ fst (present api s) <> Ok tt.
Proof.
  intros Hc. rewrite present_stages.
  destruct (compare_existing (mgr s)) as [[d ds]|m|e].
  - exfalso. now apply (Hc (d, ds)).
  - split; [reflexivity|discriminate].
  - split; [reflexivity|discriminate].
Qed.

End Pass.

(* ===================================================================== *)
(** ** The action log in the results *)
(* ===================================================================== *)

Section ActionLog.
Variable world : Type.
Variable api : DockerAPI world.

(** C6, as the code has it.  A pass with [state=present] that returns
    hands the action log to the caller exactly when check mode or the
    [debug] option is on; diff mode alone does not keep it. *)
Theorem present_keeps_actions_iff_check_or_debug
  (client : AnsibleDockerClient) (w : world) (res : results_t) (s' : st world) :
  p_state (params client) = StPresent ->
  main api client w = (Ok res, s') ->
  is_some (actions res) = client_check_mode client || p_debug (params client).
Proof.
  intros Hst Hmain.
  destruct (main_cases api client w) as [[e [legacy [Hv [Hf Hl]]]]|Hnot].
  - rewrite (main_ready api client w Hv Hf Hl), Hst in Hmain.
    set (s2 := ready_state client w e legacy) in *.
    destruct (finish_run (present api s2)) as [_ Hfin].
    rewrite Hmain in Hfin. destruct (Hfin res eq_refl) as [Hok [Hact _]].
    rewrite Hact.
    assert (Ha2 : has_actions s2) by (exists []; reflexivity).
    destruct (compare_existing (mgr s2)) as [[different differences]|m|ex] eqn:Hc.
    + rewrite (present_reconciles api s2 Hc) in Hok |- *.
      pose proof (tracked_exists_has_actions true Ha2) as Hat.
      destruct (reconcile_contract api different Hat) as [cs [ds C]].
      destruct C as [evs [acts [E _]]].
      destruct (reconcile api (mgr (tracked_exists true s2)) different
                  (tracked_exists true s2)) as [[[]|m|ex] s4];
        try (simpl in Hok; discriminate).
      simpl in E.
      assert (Ha4 : has_actions s4) by (eapply effect_has_actions; eauto).
      destruct (report_run api (mgr s2) differences Ha4) as [_ Hrep].
      destruct (found (inspect_network api (remote s4)
                         (network_name (parameters (mgr s4)))))
        as [facts|m|ex]; try contradiction.
      destruct Hrep as [_ [Hres _]]. rewrite Hres.
      unfold s2, ready_state, ready_parameters. simpl.
      destruct legacy; reflexivity.
    + destruct (present_stops api s2) as [_ Hno].
      * intros r. rewrite Hc. discriminate.
      * contradiction.
    + destruct (present_stops api s2) as [_ Hno].
      * intros r. rewrite Hc. discriminate.
      * contradiction.
  - destruct (main_not_ready api client w Hnot) as [_ Hno].
    rewrite Hmain in Hno. exfalso. now apply (Hno res).
Qed.

End ActionLog.

(* ===================================================================== *)
(** ** Seeding of the desired members *)
(* ===================================================================== *)

Section Seeding.
Variable world : Type.
Variable api : DockerAPI world.

Implicit Types s : st world.

Lemma for_each_skip {A : Type} (l : list A) (body : A -> M world unit) s :
  (forall x, In x l -> body x s = (Ok tt, s)) ->
  for_each l body s = (Ok tt, s).
Proof.
  induction l as [|x l IH]; intros H; [reflexivity|].
  rewrite for_each_cons, (H x (or_introl eq_refl)).
  apply IH. intros y Hy. apply H. now right.
Qed.

(** With the desired members equal to the observed ones and no recreation
    the reconciliation statements leave the state as it is. *)
Lemma reconcile_noop s (net : network) :
  existing_network (mgr s) = Some net ->
  connected (parameters (mgr s)) = container_names_in_network net ->
  force (parameters (mgr s)) = false ->
  reconcile api (mgr s) false s = (Ok tt, s).
Proof.
  intros Hen Hc Hf. unfold reconcile. rewrite Hf. simpl orb. unfold when at 1.
  rewrite bind_run. change (ret tt s) with (Ok tt, s). cbv iota beta.
  rewrite bind_run.
  assert (Hcreate : create_network api s = (Ok tt, s)).
  { unfold create_network. rewrite bind_self, Hen. reflexivity. }
  rewrite Hcreate. cbv iota beta. rewrite bind_run.
  assert (Hconnect : connect_containers api s = (Ok tt, s)).
  { unfold connect_containers. rewrite bind_self. apply for_each_skip.
    intros x Hx. rewrite bind_run. unfold is_container_connected.
    rewrite bind_self, Hen. change (ret ?b s) with (Ok b, s). cbv iota beta.
    rewrite Hc in Hx. apply existsb_eqb_In in Hx. rewrite Hx. reflexivity. }
  rewrite Hconnect. cbv iota beta.
  destruct (appends (parameters (mgr s))); [reflexivity|].
  unfold negb, when. unfold disconnect_missing. rewrite bind_self, Hen.
  assert (Hloop : for_each (container_names_in_network net)
                    (fun name =>
                       bind self (fun m =>
                       when (negb (existsb (String.eqb name) (connected (parameters m))))
                         (disconnect_container api name))) s = (Ok tt, s)).
  { apply for_each_skip. intros x Hx. rewrite bind_self, Hc.
    apply existsb_eqb_In in Hx. rewrite Hx. reflexivity. }
  rewrite container_names_cases in Hloop.
  destruct (Containers net) as [[|c cs]|]; auto.
Qed.

(** C7.  When [connected] is empty and the network exists, [__init__]
    sets the desired members to the network's current containers right
    after the first inspection, before any comparison or action; a
    [present] pass that neither forces nor finds a difference then
    connects and disconnects nothing and reports no change. *)
Theorem connected_seeded_from_existing
  (client : AnsibleDockerClient) (w : world) (net : network) :
  p_connected (params client) = [] ->
  inspect_network api w (p_network_name (params client)) = inr net ->
  _get_minimal_versions client = Ok tt ->
  let name := p_network_name (params client) in
  (exists s1,
      init_prologue api client (mk_st (new_manager client) w []) = (Ok tt, s1) /\
      connected (parameters (mgr s1)) = container_names_in_network net /\
      existing_network (mgr s1) = Some net /\
      calls s1 = [CInspect name] /\ remote s1 = w /\
      actions (results (mgr s1)) = Some [] /\
      changed (results (mgr s1)) = false /\
      diff_tracker (mgr s1) = DifferenceTracker.new) /\
  (forall legacy differences,
      p_state (params client) = StPresent ->
      p_force (params client) = false ->
      ipam_options_used (p_ipam_options (params client)) = Ok legacy ->
      has_different_config (ready_parameters (params client) (Some net) legacy) net
      = Ok (false, differences) ->
      exists res s',
        main api client w = (Ok res, s') /\
        changed res = false /\
        calls s' = [CInspect name; CInspect name] /\
        ansible_facts res = Some (Some net)).
Proof.
  intros Hconn Hi Hv name.
  assert (Hf : found (inspect_network api w (p_network_name (params client)))
               = Ok (Some net)) by (rewrite Hi; reflexivity).
  split.
  - exists (ready_state client w (Some net) false).
    split; [now apply init_prologue_run|].
    unfold ready_state, ready_parameters, seeded_connected. simpl.
    rewrite Hconn. repeat split; reflexivity.
  - intros legacy differences Hst Hforce Hl Hcmp.
    rewrite (main_ready api client w Hv Hf Hl), Hst.
    set (s2 := ready_state client w (Some net) legacy).
    assert (Hc : compare_existing (mgr s2) = Ok (false, differences)) by exact Hcmp.
    rewrite (present_reconciles api s2 Hc).
    assert (Hnoop : reconcile api (mgr (tracked_exists true s2)) false
                      (tracked_exists true s2) = (Ok tt, tracked_exists true s2)).
    { apply reconcile_noop with (net := net).
      - reflexivity.
      - unfold s2, ready_state, ready_parameters, seeded_connected. simpl.
        rewrite Hconn. destruct legacy; reflexivity.
      - unfold s2, ready_state, ready_parameters. simpl.
        destruct legacy; exact Hforce. }
    rewrite Hnoop.
    assert (Hat : has_actions (tracked_exists true s2)) by (exists []; reflexivity).
    destruct (report_run api (mgr s2) differences Hat) as [Hcalls Hrep].
    assert (Hname : network_name (parameters (mgr (tracked_exists true s2))) = name)
      by (unfold s2, ready_state, ready_parameters; simpl;
          destruct legacy; reflexivity).
    rewrite Hname in Hcalls, Hrep.
    change (remote (tracked_exists true s2)) with w in Hrep.
    fold name in Hi. rewrite Hi in Hrep. simpl found in Hrep.
    destruct Hrep as [Hok [_ [Hch Hfacts]]].
    destruct (report api (mgr s2) differences (tracked_exists true s2))
      as [o5 s5] eqn:Hr.
    simpl in Hok, Hch, Hfacts, Hcalls. subst o5.
    destruct (finish_run (Ok tt, s5)) as [Hfc Hfin].
    destruct (finish (Ok tt, s5)) as [[res|m|ex] s6] eqn:Hfs.
    + exists res, s6. split; [reflexivity|].
      destruct (Hfin res eq_refl) as [_ [_ [Hc6 Hf6]]].
      simpl in Hfc, Hc6, Hf6.
      split; [rewrite Hc6, Hch; reflexivity|].
      split; [rewrite Hfc, Hcalls; reflexivity|].
      rewrite Hf6. exact Hfacts.
    + exfalso. revert Hfs. unfold finish, assemble_diff, bind, self, when, update, ret.
      destruct (diff (mgr s5) || check_mode (mgr s5) || debug (parameters (mgr s5)));
        destruct (diff (mgr s5)); discriminate.
    + exfalso. revert Hfs. unfold finish, assemble_diff, bind, self, when, update, ret.
      destruct (diff (mgr s5) || check_mode (mgr s5) || debug (parameters (mgr s5)));
        destruct (diff (mgr s5)); discriminate.
Qed.

End Seeding.

(* ===================================================================== *)
(** ** Ordering of the calls on recreation *)
(* ===================================================================== *)

Lemma split_after_prefix (Q : call -> Prop) (A : list call) :
  Forall (fun x => ~ Q x) A ->
  forall l1 y rest B,
    l1 ++ y :: rest = A ++ B -> Q y -> exists l1', l1 = A ++ l1'.
Proof.
  induction 1 as [|a A Ha _ IH]; intros l1 y rest B Heq Hy.
  - now exists l1.
  - destruct l1 as [|x l1]; simpl in Heq; inversion Heq; subst.
    + contradiction.
    + destruct (IH l1 y rest B H1 Hy) as [l1' ->]. now exists l1'.
Qed.

Lemma mutations_split (l l1 l2 : list call) (y : call) :
  l = l1 ++ y :: l2 -> is_mutation y = true ->
  mutations l = mutations l1 ++ y :: mutations l2.
Proof.
  intros -> Hy. rewrite mutations_app. simpl. now rewrite Hy.
Qed.

Lemma in_mutations (x : call) (l : list call) : In x (mutations l) -> In x l.
Proof. unfold mutations. rewrite filter_In. tauto. Qed.

Lemma Forall_map_disconnect (Q : call -> Prop) (name : string) (l : list string) :
  (forall c, ~ Q (CDisconnect c name)) ->
  Forall (fun x => ~ Q x) (map (fun c => CDisconnect c name) l).
Proof.
  intros H. apply Forall_forall. intros x Hx.
  apply in_map_iff in Hx. destruct Hx as [c [<- _]]. apply H.
Qed.

(** A log whose mutating calls are a prefix of a recreation plan respects
    the three orderings. *)
Lemma recreation_plan_order (name : string) (members : list string)
  (cp : create_params) (cs ds : list string) (l k : list call) :
  mutations l ++ k = recreation_plan name members cp cs ds ->
  recreation_order name members l.
Proof.
  intros Hplan. unfold recreation_plan in Hplan.
  assert (Hgen : forall (Q : call -> Prop) (A B : list call),
             (forall y, Q y -> is_mutation y = true) ->
             mutations l ++ k = A ++ B ->
             Forall (fun x => ~ Q x) A ->
             forall l1 y l2, l = l1 ++ y :: l2 -> Q y ->
                             forall x, In x A -> In x l1).
  { intros Q A B HQ Heq HA l1 y l2 Hl Hy x Hx.
    rewrite (@mutations_split l l1 l2 y Hl (HQ y Hy)) in Heq.
    rewrite <- app_assoc in Heq. simpl in Heq.
    assert (Hpre : exists l1', mutations l1 = A ++ l1')
      by (eapply split_after_prefix; eauto).
    destruct Hpre as [l1' Hl1].
    apply in_mutations. rewrite Hl1. apply in_or_app. now left. }
  split; [|split].
  - intros c Hc l1 y l2 Hl Hy. exists (CDisconnect c name). split; auto.
    apply (Hgen removes_network _ _
             (fun y => match y with CRemove _ => fun _ => eq_refl
                               | _ => fun H => match H with end end)
             Hplan) with (y := y) (l2 := l2); auto.
    + apply Forall_map_disconnect. intros c0 H. exact H.
    + apply in_map_iff. eauto.
  - intros l1 y l2 Hl Hy. exists (CRemove name). split; auto.
    rewrite app_assoc in Hplan.
    apply (Hgen creates_network _ _
             (fun y => match y with CCreate _ _ => fun _ => eq_refl
                               | _ => fun H => match H with end end)
             Hplan) with (y := y) (l2 := l2); auto.
    + apply Forall_app. split.
      * apply Forall_map_disconnect. intros c0 H. exact H.
      * constructor; [intros H; exact H|constructor].
    + apply in_or_app. right. now left.
  - intros l1 y l2 Hl Hy. exists (CCreate name cp). split; [|exact I].
    rewrite 2!app_assoc in Hplan.
    apply (Hgen connects_member _ _
             (fun y => match y with CConnect _ _ => fun _ => eq_refl
                               | _ => fun H => match H with end end)
             Hplan) with (y := y) (l2 := l2); auto.
    + apply Forall_app. split; [apply Forall_app; split|].
      * apply Forall_map_disconnect. intros c0 H. exact H.
      * constructor; [intros H; exact H|constructor].
      * constructor; [intros H; exact H|constructor].
    + apply in_or_app. right. now left.
Qed.

Section Recreation.
Variable world : Type.
Variable api : DockerAPI world.

(** The mutating calls of a [present] pass that recreates stay within a
    recreation plan, and are the whole plan when the pass returns outside
    check mode. *)
Lemma recreation_within_plan (client : AnsibleDockerClient) (w : world)
  (net : network) :
  p_state (params client) = StPresent ->
  inspect_network api w (p_network_name (params client)) = inr net ->
  recreation_requested client net ->
  let name := p_network_name (params client) in
  let r := main api client w in
  exists cp cs ds k,
    mutations (calls (snd r)) ++ k
    = recreation_plan name (container_names_in_network net) cp cs ds /\
    (client_check_mode client = false ->
     (exists res, fst r = Ok res) -> k = []).
Proof.
  intros Hst Hi Hreq name r.
  assert (Hfound : found (inspect_network api w (p_network_name (params client)))
                   = Ok (Some net)) by (rewrite Hi; reflexivity).
  assert (Hstop : mutations (calls (snd r)) = [] ->
                  (forall res, fst r <> Ok res) ->
                  exists cp cs ds k,
                    mutations (calls (snd r)) ++ k
                    = recreation_plan name (container_names_in_network net) cp cs ds /\
                    (client_check_mode client = false ->
                     (exists res, fst r = Ok res) -> k = [])).
  { intros Hm Hno. rewrite Hm.
    exists (build_create_params (TaskParameters_init (params client))), [], [].
    eexists. split; [reflexivity|].
    intros _ [res Hres]. exfalso. now apply (Hno res). }
  destruct (main_cases api client w) as [[e [legacy [Hv [Hf Hl]]]]|Hnot];
    [|destruct (main_not_ready api client w Hnot); now apply Hstop].
  rewrite Hfound in Hf. inversion Hf; subst e. clear Hf.
  pose proof (main_ready api client w Hv Hfound Hl) as Hmain.
  rewrite Hst in Hmain.
  set (s2 := ready_state client w (Some net) legacy) in *.
  destruct (finish_run (present api s2)) as [Hfc Hfin].
  fold r in Hmain. rewrite <- Hmain in Hfc, Hfin.
  destruct (compare_existing (mgr s2)) as [[different differences]|m|ex] eqn:Hc.
  - (* the comparison returned: the pass reconciles *)
    assert (Hrec : force (parameters (mgr (tracked_exists true s2))) || different = true).
    { assert (Hforce : force (parameters (mgr (tracked_exists true s2)))
                       = p_force (params client))
        by (unfold s2, ready_state, ready_parameters; simpl; destruct legacy; reflexivity).
      rewrite Hforce. destruct Hreq as [Hf|[legacy' [differences' [Hl' Hd]]]].
      - now rewrite Hf.
      - rewrite Hl in Hl'. inversion Hl'; subst legacy'.
        assert (Hc' : compare_existing (mgr s2)
                      = has_different_config
                          (ready_parameters (params client) (Some net) legacy) net)
          by reflexivity.
        rewrite Hc', Hd in Hc. inversion Hc; subst. apply orb_true_r. }
    assert (Hat : has_actions (tracked_exists true s2)) by (exists []; reflexivity).
    destruct (reconcile_contract api different Hat) as [cs [ds C]].
    cbv zeta in C. rewrite Hrec in C. simpl orb in C. cbv iota in C.
    assert (Hname : network_name (parameters (mgr (tracked_exists true s2))) = name)
      by (unfold s2, ready_state, ready_parameters; simpl; destruct legacy; reflexivity).
    assert (Hplan : remove_plan api (tracked_exists true s2)
                    = container_names_in_network net).
    { unfold remove_plan. rewrite Hname.
      change (existing_network (mgr (tracked_exists true s2))) with (Some net).
      change (remote (tracked_exists true s2)) with w.
      unfold name. now rewrite Hi. }
    assert (Hrem : removes api (tracked_exists true s2) = true).
    { unfold removes. rewrite Hname.
      change (existing_network (mgr (tracked_exists true s2))) with (Some net).
      change (remote (tracked_exists true s2)) with w.
      unfold name. now rewrite Hi. }
    rewrite Hplan, Hrem, Hname in C.
    destruct C as [evs [acts [E [[Hm [_ Hok]] _]]]].
    assert (Hchk : check_mode (mgr (tracked_exists true s2)) = client_check_mode client)
      by reflexivity.
    rewrite Hchk in Hm, Hok.
    pose proof (present_reconciles api s2 Hc) as Hp.
    exists (build_create_params (parameters (mgr (tracked_exists true s2)))), cs, ds.
    unfold recreation_plan.
    destruct (reconcile api (mgr (tracked_exists true s2)) different
                (tracked_exists true s2)) as [o4 s4] eqn:Hr4.
    cbn [fst snd] in E, Hok.
    assert (Hcalls4 : mutations (calls s4) = mutations evs).
    { rewrite (eff_calls E), mutations_app. reflexivity. }
    assert (Ha4 : has_actions s4) by (eapply effect_has_actions; eauto).
    assert (Hfinal : mutations (calls (snd r)) = mutations evs /\
                     ((exists res, fst r = Ok res) -> o4 = Ok tt)).
    { rewrite Hfc, Hp. destruct o4 as [[]|m|ex].
      - destruct (report_run api (mgr s2) differences Ha4) as [Hcr _].
        rewrite Hcr, mutations_app, Hcalls4. simpl. rewrite app_nil_r. auto.
      - cbn [fst snd]. split; [exact Hcalls4|].
        intros [res Hres]. destruct (Hfin res Hres) as [Habs _].
        rewrite Hp in Habs. discriminate.
      - cbn [fst snd]. split; [exact Hcalls4|].
        intros [res Hres]. destruct (Hfin res Hres) as [Habs _].
        rewrite Hp in Habs. discriminate. }
    destruct Hfinal as [Hmut Hret]. rewrite Hmut.
    destruct (client_check_mode client) eqn:Hcm.
    + rewrite Hm. eexists. split; [reflexivity|]. discriminate.
    + destruct Hm as [k Hk]. exists k.
      split; [rewrite <- Hk, <- app_assoc; reflexivity|].
      intros _ Hres. destruct (Hok (Hret Hres)) as [Hev _].
      rewrite (Hev eq_refl) in Hk.
      rewrite <- (app_nil_r (_ ++ _)) in Hk at 1.
      now apply app_inv_head in Hk.
  - destruct (present_stops api s2) as [Hs Hno];
      [intros r0; rewrite Hc; discriminate|].
    apply Hstop.
    + rewrite Hfc, Hs. reflexivity.
    + intros res Hres. destruct (Hfin res Hres) as [Habs _]. contradiction.
  - destruct (present_stops api s2) as [Hs Hno];
      [intros r0; rewrite Hc; discriminate|].
    apply Hstop.
    + rewrite Hfc, Hs. reflexivity.
    + intros res Hres. destruct (Hfin res Hres) as [Habs _]. contradiction.
Qed.

Implicit Types s : st world.

(** A run that returns outside check mode has carried its plan out. *)
Lemma contract_returned (c : M world unit) s s1
  (ideal : list call) (ideal_acts : list string) (P : st world -> Prop) :
  has_actions s ->
  contract c s ideal ideal_acts P ->
  check_mode (mgr s) = false ->
  c s = (Ok tt, s1) ->
  exists evs,
    calls s1 = calls s ++ evs /\ mutations evs = ideal /\
    has_actions s1 /\ parameters (mgr s1) = parameters (mgr s) /\
    check_mode (mgr s1) = false /\ P s1.
Proof.
  intros Ha [evs [acts [E [[_ [_ Hok]] HP]]]] Hchk Hrun.
  rewrite Hrun in E, Hok, HP. cbn [fst snd] in E, Hok, HP.
  destruct (Hok eq_refl) as [Hev _].
  exists evs. split; [exact (eff_calls E)|]. split; [exact (Hev Hchk)|].
  split; [eapply effect_has_actions; eauto|].
  split; [exact (eff_parameters E)|].
  split; [rewrite (eff_check_mode E); exact Hchk|].
  exact (HP eq_refl).
Qed.

(** Outside check mode a creation that returns leaves the inspection of
    the new network in [self.existing_network]. *)
Lemma create_network_returned s s1 :
  existing_network (mgr s) = None ->
  check_mode (mgr s) = false ->
  create_network api s = (Ok tt, s1) ->
  exists n, existing_network (mgr s1) = Some n.
Proof.
  open_state s. cbn [mgr existing_network check_mode]. intros -> ->.
  unfold create_network, append_action, mark_changed, bind, self, when, update,
    ret, raise, client_write, client_read.
  cbn.
  destruct (create_network_call api w (network_name p) (build_create_params p))
    as [e|[resp_id w1]]; [discriminate|].
  cbn.
  destruct (inspect_network api w1 resp_id) as [e|n]; [discriminate|].
  cbn. destruct ac as [l|]; cbn; [|discriminate].
  intros [= <-]. exists n. reflexivity.
Qed.

(** The reconciliation statements of a recreation that returns outside
    check mode: every container of the network is disconnected, the
    network is removed and created with the parameters built from the
    options, and the membership is then synchronized against the
    inspection of the new network. *)
Lemma reconcile_recreates s s4 (net : network) (different : bool) :
  has_actions s ->
  check_mode (mgr s) = false ->
  existing_network (mgr s) = Some net ->
  inspect_network api (remote s) (network_name (parameters (mgr s))) = inr net ->
  force (parameters (mgr s)) || different = true ->
  reconcile api (mgr s) different s = (Ok tt, s4) ->
  let p := parameters (mgr s) in
  exists created evs,
    calls s4 = calls s ++ evs /\
    existing_network (mgr s4) = Some created /\
    has_actions s4 /\ parameters (mgr s4) = p /\
    let plan := planMembership (connected p) (container_names_in_network created)
                  (appends p) in
    mutations evs
    = recreation_plan (network_name p) (container_names_in_network net)
        (build_create_params p) (fst plan) (snd plan).
Proof.
  intros Ha Hchk Hen Hi Hrec Hrun p.
  unfold reconcile in Hrun. rewrite Hrec in Hrun. rewrite bind_run in Hrun.
  (* the removal *)
  pose proof (@recreate_contract world api s true Ha) as C1. cbv zeta in C1.
  assert (Hplan : remove_plan api s = container_names_in_network net)
    by (unfold remove_plan; rewrite Hen, Hi; reflexivity).
  assert (Hrem : removes api s = true)
    by (unfold removes; rewrite Hen, Hi; reflexivity).
  rewrite Hplan, Hrem in C1.
  destruct (when true (bind (remove_network api)
                         (fun _ => update (set_existing_network None))) s)
    as [[[]|m|e] s1] eqn:H1; try discriminate.
  destruct (contract_returned Ha C1 Hchk H1)
    as [evs1 [Hc1 [Hm1 [Ha1 [Hp1 [Hk1 Hn1]]]]]].
  cbv beta iota in Hn1.
  (* the creation *)
  rewrite bind_run in Hrun.
  pose proof (@create_network_contract world api s1 Ha1) as C2.
  assert (Hcp : create_plan s1
                = [CCreate (network_name p) (build_create_params p)])
    by (unfold create_plan; rewrite Hn1, Hp1; reflexivity).
  rewrite Hcp in C2.
  destruct (create_network api s1) as [[[]|m|e] s2] eqn:H2; try discriminate.
  destruct (contract_returned Ha1 C2 Hk1 H2)
    as [evs2 [Hc2 [Hm2 [Ha2 [Hp2 [Hk2 _]]]]]].
  destruct (@create_network_returned s1 s2 Hn1 Hk1 H2) as [created Hn2].
  rewrite Hp1 in Hp2.
  (* the connections *)
  rewrite bind_run in Hrun.
  pose proof (@connect_containers_contract world api s2 Ha2) as C3.
  assert (Hcs : connect_plan s2
                = fst (planMembership (connected p)
                         (container_names_in_network created) (appends p)))
    by (unfold connect_plan; rewrite Hn2, Hp2; reflexivity).
  rewrite Hcs, Hp2 in C3.
  destruct (connect_containers api s2) as [[[]|m|e] s3] eqn:H3; try discriminate.
  destruct (contract_returned Ha2 C3 Hk2 H3)
    as [evs3 [Hc3 [Hm3 [Ha3 [Hp3 [Hk3 Hn3]]]]]].
  unfold same_network in Hn3. rewrite Hn2 in Hn3. rewrite Hp2 in Hp3.
  (* the disconnections *)
  fold p in Hrun.
  assert (H4 : exists evs4,
             calls s4 = calls s3 ++ evs4 /\
             mutations evs4
             = map (fun c => CDisconnect c (network_name p))
                   (snd (planMembership (connected p)
                           (container_names_in_network created) (appends p))) /\
             has_actions s4 /\ parameters (mgr s4) = p /\
             existing_network (mgr s4) = Some created).
  { destruct (appends p) eqn:Happ.
    - cbn [negb when] in Hrun. injection Hrun as <-.
      exists []. rewrite app_nil_r. repeat split; auto.
    - cbn [negb when] in Hrun.
      pose proof (@disconnect_missing_contract world api s3 Ha3) as C4.
      assert (Hds : disconnect_plan s3
                    = snd (planMembership (connected p)
                             (container_names_in_network created) false))
        by (unfold disconnect_plan; rewrite Hn3, Hp3; reflexivity).
      rewrite Hds, Hp3 in C4.
      destruct (contract_returned Ha3 C4 Hk3 Hrun)
        as [evs4 [Hc4 [Hm4 [Ha4 [Hp4 [_ Hn4]]]]]].
      unfold same_network in Hn4. rewrite Hn3 in Hn4. rewrite Hp3 in Hp4.
      exists evs4. repeat split; auto. }
  destruct H4 as [evs4 [Hc4 [Hm4 [Ha4 [Hp4 Hn4]]]]].
  exists created, (evs1 ++ evs2 ++ evs3 ++ evs4).
  split; [rewrite Hc4, Hc3, Hc2, Hc1, <- !app_assoc; reflexivity|].
  split; [exact Hn4|]. split; [exact Ha4|]. split; [exact Hp4|].
  cbv zeta. rewrite !mutations_app, Hm1, Hm2, Hm3, Hm4.
  unfold recreation_plan. rewrite <- !app_assoc. reflexivity.
Qed.


Lemma report_keeps_network (m : manager) (differences : DifferenceTracker.t) s :
  existing_network (mgr (snd (report api m differences s)))
  = existing_network (mgr s).
Proof.
  open_state s.
  unfold report, get_existing_network, bind, self, when, update, ret, raise,
    client_read. cbn.
  destruct (diff m || check_mode m || debug (parameters m));
    destruct (negb (check_mode m) && negb (debug (parameters m))); cbn;
    try (destruct ac; cbn);
    destruct (inspect_network api w (network_name p)) as [[]|n]; reflexivity.
Qed.

Lemma finish_keeps_network (r : outcome unit * st world) :
  existing_network (mgr (snd (finish r))) = existing_network (mgr (snd r)).
Proof.
  destruct r as [[[]|m|e] s]; try reflexivity.
  open_state s.
  unfold finish, assemble_diff, bind, self, when, update, ret. cbn.
  destruct (df || chk || debug p); destruct df; reflexivity.
Qed.

(** A recreating pass that returns outside check mode carried the whole
    recreation out: the members to connect and to disconnect are those of
    the membership plan against the inspection of the new network, which
    the manager holds at the end. *)
Lemma recreation_returned (client : AnsibleDockerClient) (w : world)
  (net : network) (res : results_t) :
  p_state (params client) = StPresent ->
  inspect_network api w (p_network_name (params client)) = inr net ->
  recreation_requested client net ->
  client_check_mode client = false ->
  fst (main api client w) = Ok res ->
  exists legacy created,
    ipam_options_used (p_ipam_options (params client)) = Ok legacy /\
    existing_network (mgr (snd (main api client w))) = Some created /\
    let p := ready_parameters (params client) (Some net) legacy in
    let plan := planMembership (connected p) (container_names_in_network created)
                  (appends p) in
    mutations (calls (snd (main api client w)))
    = recreation_plan (p_network_name (params client))
        (container_names_in_network net) (build_create_params p)
        (fst plan) (snd plan).
Proof.
  intros Hst Hi Hreq Hchk Hres.
  assert (Hfound : found (inspect_network api w (p_network_name (params client)))
                   = Ok (Some net)) by (rewrite Hi; reflexivity).
  destruct (main_cases api client w) as [[e [legacy [Hv [Hf Hl]]]]|Hnot];
    [|destruct (main_not_ready api client w Hnot) as [_ Hno];
      exfalso; exact (Hno res Hres)].
  rewrite Hfound in Hf. inversion Hf; subst e. clear Hf.
  exists legacy.
  rewrite (main_ready api client w Hv Hfound Hl), Hst in Hres |- *.
  set (s2 := ready_state client w (Some net) legacy) in *.
  destruct (finish_run (present api s2)) as [Hfc Hfin].
  destruct (Hfin res Hres) as [Hok _]. clear Hfin.
  rewrite finish_keeps_network, Hfc. clear Hfc.
  destruct (compare_existing (mgr s2)) as [[different differences]|m|ex] eqn:Hc;
    [|destruct (present_stops api s2) as [_ Hno];
      [intros r0; rewrite Hc; discriminate|contradiction]..].
  assert (Hforce : force (parameters (mgr (tracked_exists true s2)))
                   = p_force (params client))
    by (unfold s2, ready_state, ready_parameters; simpl; destruct legacy; reflexivity).
  assert (Hrec : force (parameters (mgr (tracked_exists true s2))) || different = true).
  { rewrite Hforce. destruct Hreq as [Hf|[legacy' [differences' [Hl' Hd]]]].
    - now rewrite Hf.
    - rewrite Hl in Hl'. inversion Hl'; subst legacy'.
      assert (Hc' : compare_existing (mgr s2)
                    = has_different_config
                        (ready_parameters (params client) (Some net) legacy) net)
        by reflexivity.
      rewrite Hc', Hd in Hc. inversion Hc; subst. apply orb_true_r. }
  rewrite (present_reconciles api s2 Hc) in Hok |- *.
  set (s3 := tracked_exists true s2) in *.
  assert (Ha3 : has_actions s3) by (exists []; reflexivity).
  assert (Hp3 : parameters (mgr s3)
                = ready_parameters (params client) (Some net) legacy) by reflexivity.
  assert (Hname : network_name (parameters (mgr s3)) = p_network_name (params client))
    by (unfold s3, s2, ready_state, ready_parameters; simpl; destruct legacy; reflexivity).
  assert (Hi3 : inspect_network api (remote s3) (network_name (parameters (mgr s3)))
                = inr net) by (rewrite Hname; exact Hi).
  destruct (reconcile api (mgr s3) different s3) as [[[]|m|ex] s4] eqn:Hr;
    try discriminate Hok.
  destruct (@reconcile_recreates s3 s4 net different Ha3 Hchk eq_refl Hi3 Hrec Hr)
    as [created [evs [Hcalls [Hn4 [Ha4 [_ Hplan]]]]]].
  cbv zeta in Hplan. rewrite Hp3 in Hplan.
  exists created. split; [exact Hl|].
  rewrite report_keeps_network. split; [exact Hn4|].
  cbv zeta.
  rewrite (proj1 (report_run api (mgr s2) differences Ha4)).
  rewrite mutations_app, Hcalls, mutations_app. cbn [mutations filter is_mutation calls].
  rewrite app_nil_r.
  change (mutations (calls s3)) with (@nil call). cbn [app].
  rewrite Hplan.
  change (network_name (ready_parameters (params client) (Some net) legacy))
    with (network_name (parameters (mgr s3))).
  rewrite Hname. reflexivity.
Qed.

(** C1.  In a [present] pass on an existing network that forces the
    recreation or finds a difference, the calls on the client are ordered:
    the removal comes after the disconnection of every container the
    network had, the creation after the removal, and every connection
    after the creation.  Outside check mode a pass that returns has made
    exactly the calls of the recreation, in this order: one disconnection
    for each container the network had, the removal, the creation with the
    parameters built from the options, one connection for each desired
    member that the new network does not hold and, unless the mode is
    additive, one disconnection for each container of the new network that
    is not desired.  The new network is the one the manager inspected
    right after the creation and holds at the end. *)
Theorem recreation_respects_order (client : AnsibleDockerClient) (w : world)
  (net : network) :
  p_state (params client) = StPresent ->
  inspect_network api w (p_network_name (params client)) = inr net ->
  recreation_requested client net ->
  let name := p_network_name (params client) in
  let l := calls (snd (main api client w)) in
  recreation_order name (container_names_in_network net) l /\
  (client_check_mode client = false ->
   (exists res, fst (main api client w) = Ok res) ->
   exists legacy created,
     ipam_options_used (p_ipam_options (params client)) = Ok legacy /\
     existing_network (mgr (snd (main api client w))) = Some created /\
     let p := ready_parameters (params client) (Some net) legacy in
     let plan := planMembership (connected p)
                   (container_names_in_network created) (appends p) in
     mutations l
     = recreation_plan name (container_names_in_network net)
         (build_create_params p) (fst plan) (snd plan) /\
     (forall c, In c (container_names_in_network net) -> In (CDisconnect c name) l) /\
     In (CRemove name) l /\
     In (CCreate name (build_create_params p)) l /\
     (forall c, In c (connected p) ->
                ~ In c (container_names_in_network created) ->
                In (CConnect c name) l)).
Proof.
  intros Hst Hi Hreq name l. split.
  - destruct (@recreation_within_plan client w net Hst Hi Hreq)
      as [cp [cs [ds [k [Hplan _]]]]].
    fold name l in Hplan.
    eapply recreation_plan_order. exact Hplan.
  - intros Hchk [res Hres].
    destruct (@recreation_returned client w net res Hst Hi Hreq Hchk Hres)
      as [legacy [created [Hl [Hn Hplan]]]].
    exists legacy, created. split; [exact Hl|]. split; [exact Hn|].
    cbv zeta in Hplan |- *. fold name l in Hplan.
    split; [exact Hplan|].
    assert (Hin : forall x, In x (mutations l) -> In x l)
      by (intros x; apply in_mutations).
    rewrite Hplan in Hin. unfold recreation_plan in Hin.
    split; [|split; [|split]].
    + intros c Hc. apply Hin. apply in_or_app. left. apply in_map_iff. eauto.
    + apply Hin. apply in_or_app. right. now left.
    + apply Hin. apply in_or_app. right. right. now left.
    + intros c Hc Hnew. apply Hin.
      apply in_or_app. right. cbn [app]. right. right. apply in_or_app. left.
      apply in_map_iff. exists c. split; [reflexivity|].
      unfold planMembership. cbn [fst]. apply filter_In. split; [exact Hc|].
      apply negb_true_iff. now apply existsb_eqb_not_In.
Qed.

End Recreation.

(* ===================================================================== *)
(** ** Check mode on a network that does not exist *)
(* ===================================================================== *)

Section CheckMode.
Variable world : Type.
Variable api : DockerAPI world.

(** Whatever the collaborator, a [present] pass in check mode for a network
    that does not exist and at least one container to connect makes no
    mutating call and ends in [TypeError]: [create_network] does not set
    [self.existing_network] in check mode, and [is_container_connected]
    subscripts it. *)
Lemma check_mode_stops_at_first_connection
  (client : AnsibleDockerClient) (w : world) (what c : string)
  (cs : list string) (legacy : bool) :
  p_state (params client) = StPresent ->
  client_check_mode client = true ->
  p_connected (params client) = c :: cs ->
  _get_minimal_versions client = Ok tt ->
  ipam_options_used (p_ipam_options (params client)) = Ok legacy ->
  inspect_network api w (p_network_name (params client)) = inl (NotFound what) ->
  main api client w
  = (Raise (TypeError "'NoneType' object is not subscriptable"),
     snd (main api client w)) /\
  mutations (calls (snd (main api client w))) = [].
Proof.
  intros Hst Hchk Hconn Hv Hl Hi.
  assert (Hf : found (inspect_network api w (p_network_name (params client))) = Ok None)
    by (rewrite Hi; reflexivity).
  rewrite (main_ready api client w Hv Hf Hl), Hst.
  set (s2 := ready_state client w None legacy).
  assert (Hc : compare_existing (mgr s2) = Ok (false, DifferenceTracker.new))
    by reflexivity.
  rewrite (present_reconciles api s2 Hc).
  destruct client as [mp chk df pv av avs dv]. simpl in *. subst chk.
  destruct mp. simpl in *. subst.
  unfold s2, ready_state, ready_parameters, seeded_connected, tracked_exists.
  destruct legacy, p_force0; simpl; split; reflexivity.
Qed.

End CheckMode.

(* ===================================================================== *)
(** ** The passes on the reference daemon *)
(* ===================================================================== *)

Lemma recreation_respects_order_witness :
  let client :=
    Daemon.client
      (Daemon.with_force true
         (Daemon.with_connected ["a"; "c"] (Daemon.defaults "net1")))
      false false in
  let l := calls (snd (main Daemon.api client [Daemon.net1])) in
  recreation_order "net1" ["a"; "b"] l /\
  mutations l
  = [CDisconnect "a" "net1"; CDisconnect "b" "net1"; CRemove "net1";
     CCreate "net1"
       (build_create_params
          (ready_parameters (params client) (Some Daemon.net1) false));
     CConnect "a" "net1"; CConnect "c" "net1"].
Proof.
  intros client l.
  destruct (@recreation_respects_order _ Daemon.api client [Daemon.net1]
              Daemon.net1 eq_refl eq_refl (or_introl eq_refl)) as [Horder Hfull].
  split; [exact Horder|].
  destruct (Hfull eq_refl) as [legacy [created [Hl [Hn [Hplan _]]]]].
  - eexists. vm_compute. reflexivity.
  - vm_compute in Hl. injection Hl as <-.
    vm_compute in Hn. injection Hn as <-.
    fold l in Hplan. rewrite Hplan. vm_compute. reflexivity.
Defined.

Lemma membership_follows_plan_witness :
  snd (planMembership ["a"; "c"] ["a"; "b"] true) = [].
Proof.
  exact (proj1 (proj2 (proj2
           (@membership_follows_plan _ Daemon.api Daemon.sync_state Daemon.net1
              (ex_intro _ [] eq_refl) eq_refl))) eq_refl).
Defined.

Lemma present_keeps_actions_iff_check_or_debug_witness :
  is_some (actions (Daemon.results_of
                      (main Daemon.api
                         (Daemon.client (Daemon.defaults "net1") false true) [])))
  = false.
Proof.
  apply (@present_keeps_actions_iff_check_or_debug _ Daemon.api
           (Daemon.client (Daemon.defaults "net1") false true) []
           (Daemon.results_of
              (main Daemon.api (Daemon.client (Daemon.defaults "net1") false true) []))
           (snd (main Daemon.api (Daemon.client (Daemon.defaults "net1") false true) []))).
  - reflexivity.
  - vm_compute. reflexivity.
Defined.

Lemma connected_seeded_from_existing_witness :
  exists res s',
    main Daemon.api (Daemon.client (Daemon.defaults "net1") false false) [Daemon.net1]
    = (Ok res, s') /\
    changed res = false /\
    calls s' = [CInspect "net1"; CInspect "net1"] /\
    ansible_facts res = Some (Some Daemon.net1).
Proof.
  apply (proj2 (@connected_seeded_from_existing _ Daemon.api
                  (Daemon.client (Daemon.defaults "net1") false false)
                  [Daemon.net1] Daemon.net1 eq_refl eq_refl eq_refl)
           false []); reflexivity.
Defined.

(** The claim of C6 as it is stated fails on the code: a [present] pass in
    diff mode alone (no check mode, no [debug]) returns without the action
    log, and an [absent] pass with none of the three modes returns with
    it. *)
Lemma actions_not_kept_by_diff_mode :
  (module_diff (Daemon.client (Daemon.defaults "net1") false true) = true /\
   exists res s',
     main Daemon.api (Daemon.client (Daemon.defaults "net1") false true) []
     = (Ok res, s') /\ actions res = None) /\
  (exists res s',
     main Daemon.api
       (Daemon.client (Daemon.with_state StAbsent (Daemon.defaults "net1"))
          false false) [Daemon.net1]
     = (Ok res, s') /\
     actions res = Some ["Disconnected container a"; "Disconnected container b";
                         "Removed network net1"]).
Proof.
  split; [split; [reflexivity|]|]; eexists; eexists; split;
    try (vm_compute; reflexivity).
Qed.

(** C3 does not hold of the code.  For a network that does not exist yet
    and one container to connect, the pass in check mode stops with a
    [TypeError] ([create_network] leaves [existing_network] unset in check
    mode and [is_container_connected] subscripts it), whereas the pass
    without check mode creates the network and connects the container. *)
Theorem check_mode_raises_where_real_run_connects :
  fst (main Daemon.api
         (Daemon.client
            (Daemon.with_debug true
               (Daemon.with_connected ["c1"] (Daemon.defaults "net1")))
            true false) [])
  = Raise (TypeError "'NoneType' object is not subscriptable") /\
  exists res s',
    main Daemon.api
      (Daemon.client
         (Daemon.with_debug true
            (Daemon.with_connected ["c1"] (Daemon.defaults "net1")))
         false false) []
    = (Ok res, s') /\
    changed res = true /\
    actions res = Some ["Created network net1 with driver bridge";
                        "Connected container c1"].
Proof.
  split; [vm_compute; reflexivity|].
  eexists; eexists. split; [vm_compute; reflexivity|]. split; reflexivity.
Qed.

(* ===================================================================== *)
(** ** CIDR classification against the specification's reading *)
(* ===================================================================== *)


(** C4 does not hold of the code.  The three examples classify as stated,
    but [get_ip_version] also answers [ipv6] for the prefix length 129
    (the pattern's last alternative [1[0-2][0-9]] runs up to 129) and
    [ipv4] for a CIDR followed by a line feed (which [$] lets through),
    neither of which is a CIDR in the specification's reading. *)
Theorem get_ip_version_accepts_prefix_129 :
  (get_ip_version (PyStr "10.0.0.0/24") = Ok ipv4 /\
   CidrSpec.classifyCidr "10.0.0.0/24" = Some ipv4) /\
  (get_ip_version (PyStr "fdd1:ac8c:0557:7ce1::/64") = Ok ipv6 /\
   CidrSpec.classifyCidr "fdd1:ac8c:0557:7ce1::/64" = Some ipv6) /\
  (get_ip_version (PyStr "not-a-cidr")
   = Raise (ValueError (dquote ++ "not-a-cidr" ++ dquote ++ " is not a valid CIDR")) /\
   CidrSpec.classifyCidr "not-a-cidr" = None) /\
  (get_ip_version (PyStr "::/129") = Ok ipv6 /\
   CidrSpec.classifyCidr "::/129" = None) /\
  (get_ip_version (PyStr (String.append "10.0.0.0/24" (String LF EmptyString))) = Ok ipv4 /\
   CidrSpec.classifyCidr (String.append "10.0.0.0/24" (String LF EmptyString)) = None).
Proof.
  repeat split; vm_compute; reflexivity.
Qed.

(* ===================================================================== *)
(** ** The scenarios of the specification, on the reference daemon *)
(* ===================================================================== *)

(** No network yet: one creation, and the final state has the driver. *)
Example scenario_create :
  Daemon.summary (main Daemon.api
             (Daemon.client (Daemon.with_debug true (Daemon.defaults "net1"))
                false false) [])
  = Ok (true, Some ["Created network net1 with driver bridge"],
        Some ("bridge", [])).
Proof. vm_compute. reflexivity. Qed.

(** A different driver: the network is removed, then created anew. *)
Example scenario_driver_change :
  Daemon.summary (main Daemon.api
             (Daemon.client
                (Daemon.with_debug true
                   (Daemon.with_driver (Some "overlay") (Daemon.defaults "net1")))
                false false) [Daemon.net1])
  = Ok (true,
        Some ["Disconnected container a"; "Disconnected container b";
              "Removed network net1";
              "Created network net1 with driver overlay";
              "Connected container a"; "Connected container b"],
        Some ("overlay", ["a"; "b"])).
Proof. vm_compute. reflexivity. Qed.

(** Members [a] and [b], desired [a] and [c]: [c] is connected, [b] is
    disconnected. *)
Example scenario_membership :
  Daemon.summary (main Daemon.api
             (Daemon.client
                (Daemon.with_debug true
                   (Daemon.with_connected ["a"; "c"] (Daemon.defaults "net1")))
                false false) [Daemon.net1])
  = Ok (true, Some ["Connected container c"; "Disconnected container b"],
        Some ("bridge", ["a"; "c"])).
Proof. vm_compute. reflexivity. Qed.

(** [state=absent] on a network with members: every member is
    disconnected before the network is removed. *)
Example scenario_absent :
  mutations
    (calls (snd (main Daemon.api
                   (Daemon.client
                      (Daemon.with_state StAbsent (Daemon.defaults "net1"))
                      false false) [Daemon.net1])))
  = [CDisconnect "a" "net1"; CDisconnect "b" "net1"; CRemove "net1"].
Proof. vm_compute. reflexivity. Qed.

(* ===================================================================== *)
(** ** Regular expressions: the matcher decides the language *)
(* ===================================================================== *)

Lemma append_nil_r (s : string) : (s ++ "")%string = s.
Proof. induction s; simpl; congruence. Qed.

Lemma append_assoc (a b c : string) : ((a ++ b) ++ c)%string = (a ++ (b ++ c))%string.
Proof. induction a; simpl; congruence. Qed.

Lemma append_eq_nil (a b : string) : (a ++ b)%string = "" -> a = "" /\ b = "".
Proof. destruct a; simpl; intros H; [auto|discriminate]. Qed.

Lemma nullable_matches (r : Re.regex) :
  Re.nullable r = true <-> matches r "".
Proof.
  split.
  - induction r; simpl; intros H; try discriminate.
    + constructor.
    + apply andb_true_iff in H. destruct H.
      change "" with ("" ++ "")%string. constructor; auto.
    + apply orb_true_iff in H. destruct H; [apply m_alt_l|apply m_alt_r]; auto.
    + constructor.
  - intros H. remember "" as s eqn:Hs. induction H; simpl; auto; try discriminate.
    + apply append_eq_nil in Hs. destruct Hs. rewrite IHmatches1, IHmatches2; auto.
    + rewrite IHmatches; auto.
    + rewrite IHmatches; auto. apply orb_true_r.
Qed.

Lemma void_inv (s : string) : ~ matches Re.Void s.
Proof. intros H. inversion H. Qed.

Lemma eps_inv (s : string) : matches Re.Eps s -> s = "".
Proof. intros H. now inversion H. Qed.

Lemma cls_inv (ranges : list (ascii * ascii)) (s : string) :
  matches (Re.Cls ranges) s ->
  exists c, s = String c "" /\ Re.in_class c ranges = true.
Proof. intros H. inversion H; subst. eauto. Qed.

Lemma cat_inv (r1 r2 : Re.regex) (s : string) :
  matches (Re.Cat r1 r2) s ->
  exists a b, s = (a ++ b)%string /\ matches r1 a /\ matches r2 b.
Proof. intros H. inversion H; subst. eauto. Qed.

Lemma alt_inv (r1 r2 : Re.regex) (s : string) :
  matches (Re.Alt r1 r2) s -> matches r1 s \/ matches r2 s.
Proof. intros H. inversion H; subst; auto. Qed.

Lemma deriv_sound (c : ascii) (r : Re.regex) :
  forall s, matches (Re.deriv c r) s -> matches r (String c s).
Proof.
  induction r; simpl; intros s H.
  - now apply void_inv in H.
  - now apply void_inv in H.
  - destruct (Re.in_class c ranges) eqn:E.
    + apply eps_inv in H. subst. now constructor.
    + now apply void_inv in H.
  - assert (L : matches (Re.Cat (Re.deriv c r1) r2) s ->
                matches (Re.Cat r1 r2) (String c s)).
    { intros M. apply cat_inv in M. destruct M as [a [b [-> [Ma Mb]]]].
      change (String c (a ++ b)) with (String c a ++ b)%string.
      constructor; auto. }
    destruct (Re.nullable r1) eqn:N; [|now apply L].
    apply alt_inv in H. destruct H as [H|H]; [now apply L|].
    change (String c s) with ("" ++ String c s)%string.
    constructor; auto. now apply nullable_matches.
  - apply alt_inv in H. destruct H; [apply m_alt_l|apply m_alt_r]; auto.
  - apply cat_inv in H. destruct H as [a [b [-> [Ma Mb]]]].
    change (String c (a ++ b)) with (String c a ++ b)%string.
    constructor; auto.
Qed.

Lemma deriv_complete (c : ascii) (r : Re.regex) (t : string) :
  matches r t -> forall s, t = String c s -> matches (Re.deriv c r) s.
Proof.
  induction 1; intros s Hs; simpl; try discriminate.
  - inversion Hs; subst. rewrite H. constructor.
  - destruct a as [|c' a'].
    + simpl in Hs. subst b.
      assert (N : Re.nullable r1 = true) by now apply nullable_matches.
      rewrite N. apply m_alt_r. now apply IHmatches2.
    + simpl in Hs. inversion Hs; subst.
      assert (M : matches (Re.Cat (Re.deriv c r1) r2) (a' ++ b))
        by (constructor; auto).
      destruct (Re.nullable r1); [now apply m_alt_l|exact M].
  - apply m_alt_l. now apply IHmatches.
  - apply m_alt_r. now apply IHmatches.
  - destruct a as [|c' a'].
    + simpl in Hs. subst b. now apply IHmatches2.
    + simpl in Hs. inversion Hs; subst. constructor; auto.
Qed.

Lemma fullmatch_matches (s : string) :
  forall r, Re.fullmatch r s = true <-> matches r s.
Proof.
  induction s as [|c s IH]; intros r; simpl.
  - apply nullable_matches.
  - rewrite IH. split.
    + apply deriv_sound.
    + intros H. eapply deriv_complete; eauto.
Qed.



(* ===================================================================== *)
(** ** The languages of the two CIDR patterns *)
(* ===================================================================== *)

Lemma in_class_digit (c : ascii) :
  Re.in_class c [("0"%char, "9"%char)] = CidrSpec.is_digit c.
Proof. each_ascii c; reflexivity. Qed.

Lemma in_class_hex (c : ascii) :
  Re.in_class c [("0"%char, "9"%char); ("a"%char, "f"%char);
                 ("A"%char, "F"%char); (":"%char, ":"%char)]
  = CidrSpec.is_hex_or_colon c.
Proof. each_ascii c; reflexivity. Qed.

Lemma digit_cases (c : ascii) :
  CidrSpec.is_digit c = true ->
  In c ["0"; "1"; "2"; "3"; "4"; "5"; "6"; "7"; "8"; "9"]%char.
Proof.
  each_ascii c; intros H; try discriminate H; simpl; tauto.
Qed.

Lemma chr_inv (x : ascii) (s : string) :
  matches (Re.chr x) s -> s = String x "".
Proof.
  intros H. apply cls_inv in H. destruct H as [c [-> Hc]].
  unfold Re.in_class, Re.in_range in Hc. simpl in Hc.
  rewrite orb_false_r in Hc. apply andb_true_iff in Hc. destruct Hc as [H1 H2].
  apply Nat.leb_le in H1, H2.
  assert (E : nat_of_ascii c = nat_of_ascii x) by lia.
  rewrite <- (ascii_nat_embedding c), E, ascii_nat_embedding. reflexivity.
Qed.

Lemma chr_match (x : ascii) : matches (Re.chr x) (String x "").
Proof.
  constructor. unfold Re.in_class, Re.in_range. simpl.
  rewrite Nat.leb_refl. reflexivity.
Qed.


Lemma digit_inv (s : string) :
  matches digit s -> exists c, s = String c "" /\ CidrSpec.is_digit c = true.
Proof.
  intros H. apply cls_inv in H. destruct H as [c [-> Hc]].
  rewrite in_class_digit in Hc. eauto.
Qed.

Lemma rng_digit (lo hi c : ascii) :
  Nat.leb 48 (nat_of_ascii lo) = true -> Nat.leb (nat_of_ascii hi) 57 = true ->
  Re.in_class c [(lo, hi)] = true -> CidrSpec.is_digit c = true.
Proof.
  unfold Re.in_class, Re.in_range, CidrSpec.is_digit. cbn [existsb fst snd].
  rewrite orb_false_r, !andb_true_iff, !Nat.leb_le. intros; lia.
Qed.

Lemma rng_inv (lo hi : ascii) (s : string) :
  Nat.leb 48 (nat_of_ascii lo) = true -> Nat.leb (nat_of_ascii hi) 57 = true ->
  matches (Re.rng lo hi) s ->
  exists c, s = String c "" /\ Re.in_class c [(lo, hi)] = true /\
            In c ["0"; "1"; "2"; "3"; "4"; "5"; "6"; "7"; "8"; "9"]%char.
Proof.
  intros Hlo Hhi H. apply cls_inv in H. destruct H as [c [-> Hc]].
  exists c. repeat split; trivial.
  apply digit_cases. eapply rng_digit; eauto.
Qed.

Opaque Re.in_class.

(** [[0-9]{1,3}] *)
Lemma digit_group_matches (a : string) :
  matches (Re.rep_range 1 3 digit) a <-> CidrSpec.digit_group a = true.
Proof.
  split.
  - intros H. apply cat_inv in H. destruct H as [x [y [-> [Hx Hy]]]].
    apply cat_inv in Hx. destruct Hx as [x1 [x2 [-> [Hx1 Hx2]]]].
    apply eps_inv in Hx2. subst x2.
    apply digit_inv in Hx1. destruct Hx1 as [c1 [-> D1]].
    simpl in Hy. unfold Re.opt in Hy.
    apply alt_inv in Hy. destruct Hy as [Hy | Hy].
    + apply cat_inv in Hy. destruct Hy as [y1 [y2 [-> [Hy1 Hy2]]]].
      apply digit_inv in Hy1. destruct Hy1 as [c2 [-> D2]].
      apply alt_inv in Hy2. destruct Hy2 as [Hy2 | Hy2].
      * apply cat_inv in Hy2. destruct Hy2 as [z1 [z2 [-> [Hz1 Hz2]]]].
        apply eps_inv in Hz2. subst z2.
        apply digit_inv in Hz1. destruct Hz1 as [c3 [-> D3]].
        unfold CidrSpec.digit_group. simpl. rewrite D1, D2, D3. reflexivity.
      * apply eps_inv in Hy2. subst y2.
        unfold CidrSpec.digit_group. simpl. rewrite D1, D2. reflexivity.
    + apply eps_inv in Hy. subst y.
      unfold CidrSpec.digit_group. simpl. rewrite D1. reflexivity.
  - unfold CidrSpec.digit_group. intros H.
    apply andb_true_iff in H. destruct H as [H H3].
    apply andb_true_iff in H. destruct H as [H H1].
    apply fullmatch_matches.
    destruct a as [|c1 [|c2 [|c3 [|c4 r]]]]; simpl in H, H1, H3; try discriminate;
      repeat match goal with
             | H : _ && _ = true |- _ => apply andb_true_iff in H; destruct H
             end;
      rewrite <- in_class_digit in *;
      unfold Re.rep_range, digit, Re.rng; simpl;
      repeat match goal with
             | H : Re.in_class _ _ = true |- _ => rewrite H; clear H; simpl
             end;
      reflexivity.
Qed.

Transparent Re.in_class.

Lemma digits_of_group (p : string) :
  CidrSpec.digit_group p = true ->
  let ds := ["0"; "1"; "2"; "3"; "4"; "5"; "6"; "7"; "8"; "9"]%char in
  (exists c1, p = String c1 "" /\ In c1 ds) \/
  (exists c1 c2, p = String c1 (String c2 "") /\ In c1 ds /\ In c2 ds) \/
  (exists c1 c2 c3, p = String c1 (String c2 (String c3 "")) /\
                    In c1 ds /\ In c2 ds /\ In c3 ds).
Proof.
  unfold CidrSpec.digit_group. intros H.
  apply andb_true_iff in H. destruct H as [H H3].
  apply andb_true_iff in H. destruct H as [H H1].
  destruct p as [|c1 [|c2 [|c3 [|c4 r]]]]; simpl in H, H1, H3; try discriminate;
    repeat match goal with
           | H : _ && _ = true |- _ => apply andb_true_iff in H; destruct H
           end;
    repeat match goal with
           | H : CidrSpec.is_digit _ = true |- _ => apply digit_cases in H
           end.
  - left. eauto.
  - right. left. eauto 6.
  - right. right. eauto 8.
Qed.

Lemma prefix_32_matches (p : string) :
  matches prefix_32 p <-> CidrSpec.prefix_length_upto 32 p = true.
Proof.
  split.
  - intros H. unfold prefix_32 in H.
    apply alt_inv in H. destruct H as [H | H].
    + apply digit_inv in H. destruct H as [c [-> D]].
      apply digit_cases in D. each_digit; vm_compute; reflexivity.
    + apply alt_inv in H. destruct H as [H | H].
      * apply cat_inv in H. destruct H as [x [y [-> [Hx Hy]]]].
        apply rng_inv in Hx; try reflexivity. destruct Hx as [c1 [-> [C1 D1]]].
        apply digit_inv in Hy. destruct Hy as [c2 [-> D2]].
        apply digit_cases in D2.
        each_digit; first [ vm_compute in C1; discriminate C1 | vm_compute; reflexivity ].
      * apply cat_inv in H. destruct H as [x [y [-> [Hx Hy]]]].
        apply chr_inv in Hx. subst x.
        apply rng_inv in Hy; try reflexivity. destruct Hy as [c2 [-> [C2 D2]]].
        each_digit; first [ vm_compute in C2; discriminate C2 | vm_compute; reflexivity ].
  - intros H. pose proof H as G. unfold CidrSpec.prefix_length_upto in G.
    apply andb_true_iff in G. destruct G as [G _].
    apply andb_true_iff in G. destruct G as [G _].
    apply digits_of_group in G. cbv zeta in G.
    apply fullmatch_matches.
    destruct G as [[c1 [-> D1]] | [[c1 [c2 [-> [D1 D2]]]] | [c1 [c2 [c3 [-> [D1 [D2 D3]]]]]]]];
      each_digit; first [ vm_compute in H; discriminate H | vm_compute; reflexivity ].
Qed.

Lemma prefix_129_matches (p : string) :
  matches prefix_129 p <-> CidrSpec.prefix_length_upto 129 p = true.
Proof.
  split.
  - intros H. unfold prefix_129 in H.
    apply alt_inv in H. destruct H as [H | H].
    + apply digit_inv in H. destruct H as [c [-> D]].
      apply digit_cases in D. each_digit; vm_compute; reflexivity.
    + apply alt_inv in H. destruct H as [H | H].
      * apply cat_inv in H. destruct H as [x [y [-> [Hx Hy]]]].
        apply rng_inv in Hx; try reflexivity. destruct Hx as [c1 [-> [C1 D1]]].
        apply digit_inv in Hy. destruct Hy as [c2 [-> D2]].
        apply digit_cases in D2.
        each_digit; first [ vm_compute in C1; discriminate C1 | vm_compute; reflexivity ].
      * apply cat_inv in H. destruct H as [x [y [-> [Hx Hy]]]].
        apply chr_inv in Hx. subst x.
        apply cat_inv in Hy. destruct Hy as [y1 [y2 [-> [Hy1 Hy2]]]].
        apply rng_inv in Hy1; try reflexivity. destruct Hy1 as [c2 [-> [C2 D2]]].
        apply digit_inv in Hy2. destruct Hy2 as [c3 [-> D3]].
        apply digit_cases in D3.
        each_digit; first [ vm_compute in C2; discriminate C2 | vm_compute; reflexivity ].
  - intros H. pose proof H as G. unfold CidrSpec.prefix_length_upto in G.
    apply andb_true_iff in G. destruct G as [G _].
    apply andb_true_iff in G. destruct G as [G _].
    apply digits_of_group in G. cbv zeta in G.
    apply fullmatch_matches.
    destruct G as [[c1 [-> D1]] | [[c1 [c2 [-> [D1 D2]]]] | [c1 [c2 [c3 [-> [D1 [D2 D3]]]]]]]];
      each_digit; first [ vm_compute in H; discriminate H | vm_compute; reflexivity ].
Qed.


(** [[...]*] *)
Lemma star_class_matches (ranges : list (ascii * ascii)) (a : string) :
  matches (Re.Star (Re.Cls ranges)) a <->
  CidrSpec.all_chars (fun c => Re.in_class c ranges) a = true.
Proof.
  split.
  - intros H. remember (Re.Star (Re.Cls ranges)) as r eqn:E.
    induction H; try discriminate E.
    + reflexivity.
    + injection E as ->. apply cls_inv in H. destruct H as [c [-> Hc]].
      simpl. rewrite Hc. simpl. apply IHmatches2. reflexivity.
  - induction a as [|c a IH]; simpl; intros H.
    + constructor.
    + apply andb_true_iff in H. destruct H as [Hc Ha].
      change (String c a) with (String c "" ++ a)%string.
      constructor; [constructor; exact Hc | apply IH; exact Ha].
Qed.

Lemma all_chars_ext (f g : ascii -> bool) (s : string) :
  (forall c, f c = g c) -> CidrSpec.all_chars f s = CidrSpec.all_chars g s.
Proof. intros E. induction s as [|c s IH]; simpl; [reflexivity|]. rewrite E, IH. reflexivity. Qed.

(** [[0-9a-fA-F:]+] *)
Lemma hex_address_matches (a : string) :
  matches (Re.plus (Re.Cls [("0"%char, "9"%char); ("a"%char, "f"%char);
                            ("A"%char, "F"%char); (":"%char, ":"%char)])) a <->
  a <> "" /\ CidrSpec.all_chars CidrSpec.is_hex_or_colon a = true.
Proof.
  unfold Re.plus. split.
  - intros H. apply cat_inv in H. destruct H as [x [y [-> [Hx Hy]]]].
    apply cls_inv in Hx. destruct Hx as [c [-> Hc]].
    apply star_class_matches in Hy.
    split; [discriminate|].
    simpl. rewrite <- in_class_hex, Hc. simpl.
    erewrite all_chars_ext; [exact Hy|].
    intros c'. symmetry. apply in_class_hex.
  - intros [Hne H]. destruct a as [|c a]; [congruence|].
    simpl in H. apply andb_true_iff in H. destruct H as [Hc Ha].
    change (String c a) with (String c "" ++ a)%string.
    constructor.
    + constructor. rewrite in_class_hex. exact Hc.
    + apply star_class_matches.
      erewrite all_chars_ext; [exact Ha|]. apply in_class_hex.
Qed.

(** The language of [CIDR_IPV4]. *)
Lemma CIDR_IPV4_matches (t : string) :
  matches CIDR_IPV4 t <-> ipv4_cidr t.
Proof.
  unfold CIDR_IPV4. fold prefix_32. split.
  - intros H.
    apply cat_inv in H. destruct H as [x [y [-> [Hx Hy]]]].
    cbn [Re.rep] in Hx.
    apply cat_inv in Hx. destruct Hx as [x1 [r1 [-> [Hx1 Hx]]]].
    apply cat_inv in Hx. destruct Hx as [x2 [r2 [-> [Hx2 Hx]]]].
    apply cat_inv in Hx. destruct Hx as [x3 [r3 [-> [Hx3 Hx]]]].
    apply eps_inv in Hx. subst r3.
    apply cat_inv in Hx1. destruct Hx1 as [a [dot1 [-> [Ha Hdot]]]].
    apply chr_inv in Hdot. subst dot1.
    apply cat_inv in Hx2. destruct Hx2 as [b [dot2 [-> [Hb Hdot]]]].
    apply chr_inv in Hdot. subst dot2.
    apply cat_inv in Hx3. destruct Hx3 as [c [dot3 [-> [Hc Hdot]]]].
    apply chr_inv in Hdot. subst dot3.
    apply cat_inv in Hy. destruct Hy as [d [y' [-> [Hd Hy]]]].
    apply cat_inv in Hy. destruct Hy as [slash [p [-> [Hslash Hp]]]].
    apply chr_inv in Hslash. subst slash.
    apply digit_group_matches in Ha, Hb, Hc, Hd.
    apply prefix_32_matches in Hp.
    exists a, b, c, d, p. repeat split; trivial.
    rewrite append_nil_r, !append_assoc. reflexivity.
  - intros [a [b [c [d [p [-> [Ha [Hb [Hc [Hd Hp]]]]]]]]]].
    apply digit_group_matches in Ha, Hb, Hc, Hd.
    apply prefix_32_matches in Hp.
    replace (a ++ "." ++ b ++ "." ++ c ++ "." ++ d ++ "/" ++ p)%string
      with (((a ++ ".") ++ ((b ++ ".") ++ ((c ++ ".") ++ ""))) ++ (d ++ ("/" ++ p)))%string
      by (rewrite append_nil_r, !append_assoc; reflexivity).
    cbn [Re.rep].
    repeat first [ apply m_cat | apply chr_match | apply m_eps | assumption ].
Qed.

(** The language of [CIDR_IPV6]. *)
Lemma CIDR_IPV6_matches (t : string) :
  matches CIDR_IPV6 t <-> ipv6_cidr_upto 129 t.
Proof.
  unfold CIDR_IPV6. fold prefix_129. split.
  - intros H.
    apply cat_inv in H. destruct H as [address [y [-> [Ha Hy]]]].
    apply cat_inv in Hy. destruct Hy as [slash [p [-> [Hslash Hp]]]].
    apply chr_inv in Hslash. subst slash.
    apply hex_address_matches in Ha. destruct Ha as [Hne Ha].
    apply prefix_129_matches in Hp.
    exists address, p. repeat split; trivial.
  - intros [address [p [-> [Hne [Ha Hp]]]]].
    apply prefix_129_matches in Hp.
    apply m_cat; [apply hex_address_matches; split; assumption|].
    apply m_cat; [apply chr_match | exact Hp].
Qed.

Lemma chop_final_newline_spec (s t : string) :
  Re.chop_final_newline s = Some t <-> s = (t ++ String LF "")%string.
Proof.
  revert t. induction s as [|c s IH]; intros t.
  - simpl. split; [discriminate|]. destruct t; discriminate.
  - destruct s as [|c' s'].
    + simpl. split.
      * destruct (Ascii.eqb c LF) eqn:E; [|discriminate].
        apply Ascii.eqb_eq in E. subst c. intros [= <-]. reflexivity.
      * destruct t as [|d t]; simpl.
        -- intros [= ->]. reflexivity.
        -- intros [= -> Ht]. destruct t; discriminate Ht.
    + change (Re.chop_final_newline (String c (String c' s')))
        with (match Re.chop_final_newline (String c' s') with
              | Some t => Some (String c t)
              | None => None
              end).
      split.
      * destruct (Re.chop_final_newline (String c' s')) as [u|] eqn:E; [|discriminate].
        intros [= <-]. simpl. rewrite <- (proj1 (IH u) eq_refl). reflexivity.
      * destruct t as [|d t]; intros H; simpl in H.
        -- discriminate H.
        -- injection H as -> Ht. apply IH in Ht. rewrite Ht. reflexivity.
Qed.

(** [^r$] accepts the strings of [r] and those followed by a line feed. *)
Lemma py_match_spec (r : Re.regex) (s : string) :
  Re.py_match r s = true <-> maybe_with_line_feed (matches r) s.
Proof.
  unfold Re.py_match, maybe_with_line_feed. rewrite orb_true_iff. split.
  - intros [H | H].
    + left. apply fullmatch_matches. exact H.
    + destruct (Re.chop_final_newline s) as [t|] eqn:E; [|discriminate].
      right. exists t. split; [apply chop_final_newline_spec; exact E|].
      apply fullmatch_matches. exact H.
  - intros [H | [t [E H]]].
    + left. apply fullmatch_matches. exact H.
    + right. apply chop_final_newline_spec in E. rewrite E.
      apply fullmatch_matches. exact H.
Qed.

Lemma maybe_with_line_feed_iff (P Q : string -> Prop) (s : string) :
  (forall t, P t <-> Q t) ->
  maybe_with_line_feed P s <-> maybe_with_line_feed Q s.
Proof.
  intros E. unfold maybe_with_line_feed. split.
  - intros [H | [t [-> H]]]; [left; apply E; exact H | right; exists t; split; [reflexivity | apply E; exact H]].
  - intros [H | [t [-> H]]]; [left; apply E; exact H | right; exists t; split; [reflexivity | apply E; exact H]].
Qed.

Lemma contains_app (c : ascii) (a b : string) :
  contains c (a ++ b) = contains c a || contains c b.
Proof.
  induction a as [|x a IH]; simpl; [reflexivity|].
  rewrite IH. apply orb_assoc.
Qed.

Lemma contains_all_chars (x : ascii) (f : ascii -> bool) (s : string) :
  f x = false -> CidrSpec.all_chars f s = true -> contains x s = false.
Proof.
  intros Hx. induction s as [|c s IH]; simpl; [reflexivity|].
  intros H. apply andb_true_iff in H. destruct H as [Hc Hs].
  rewrite (IH Hs), orb_false_r.
  destruct (Ascii.eqb x c) eqn:E; [|reflexivity].
  apply Ascii.eqb_eq in E. subst c. congruence.
Qed.

Lemma ipv4_cidr_has_dot (t : string) : ipv4_cidr t -> contains "." t = true.
Proof.
  intros [a [b [c [d [p [-> _]]]]]].
  rewrite contains_app. simpl. apply orb_true_r.
Qed.

Lemma digit_group_all_digits (s : string) :
  CidrSpec.digit_group s = true -> CidrSpec.all_chars CidrSpec.is_digit s = true.
Proof.
  unfold CidrSpec.digit_group. intros H.
  apply andb_true_iff in H. destruct H as [H _].
  apply andb_true_iff in H. destruct H as [H _]. exact H.
Qed.

Lemma ipv6_cidr_has_no_dot (bound : nat) (t : string) :
  ipv6_cidr_upto bound t -> contains "." t = false.
Proof.
  intros [address [p [-> [_ [Ha Hp]]]]].
  rewrite contains_app.
  rewrite (contains_all_chars "." CidrSpec.is_hex_or_colon address eq_refl Ha).
  simpl.
  unfold CidrSpec.prefix_length_upto in Hp.
  apply andb_true_iff in Hp. destruct Hp as [Hp _].
  apply andb_true_iff in Hp. destruct Hp as [Hp _].
  apply digit_group_all_digits in Hp.
  apply (contains_all_chars "." CidrSpec.is_digit p eq_refl Hp).
Qed.

Lemma contains_line_feed (t : string) :
  contains "." (t ++ String LF "") = contains "." t.
Proof. rewrite contains_app. simpl. apply orb_false_r. Qed.

(** No string is accepted by both patterns. *)
Lemma patterns_disjoint (s : string) :
  maybe_with_line_feed ipv4_cidr s ->
  maybe_with_line_feed (ipv6_cidr_upto 129) s -> False.
Proof.
  intros H4 H6.
  assert (D4 : contains "." s = true).
  { destruct H4 as [H | [t [-> H]]];
      [|rewrite contains_line_feed]; apply ipv4_cidr_has_dot; exact H. }
  assert (D6 : contains "." s = false).
  { destruct H6 as [H | [t [-> H]]];
      [|rewrite contains_line_feed]; eapply ipv6_cidr_has_no_dot; exact H. }
  congruence.
Qed.

Lemma py_match_ipv4 (s : string) :
  Re.py_match CIDR_IPV4 s = true <-> maybe_with_line_feed ipv4_cidr s.
Proof.
  rewrite py_match_spec. apply maybe_with_line_feed_iff. apply CIDR_IPV4_matches.
Qed.

Lemma py_match_ipv6 (s : string) :
  Re.py_match CIDR_IPV6 s = true <-> maybe_with_line_feed (ipv6_cidr_upto 129) s.
Proof.
  rewrite py_match_spec. apply maybe_with_line_feed_iff. apply CIDR_IPV6_matches.
Qed.

(** X1. [get_ip_version] answers [ipv4] exactly on the strings
    [a.b.c.d/p] with four groups of one to three decimal digits and a prefix
    length [p] from 0 to 32 written without leading zero, each optionally
    followed by one line feed.  The groups are not range-checked:
    [999.999.999.999/32] is accepted. *)
Theorem get_ip_version_ipv4_iff (s : string) :
  get_ip_version (PyStr s) = Ok ipv4 <-> maybe_with_line_feed ipv4_cidr s.
Proof.
  rewrite <- py_match_ipv4. unfold get_ip_version.
  destruct (Re.py_match CIDR_IPV4 s).
  - split; reflexivity.
  - destruct (Re.py_match CIDR_IPV6 s); split; discriminate.
Qed.

(** X2. [get_ip_version] answers [ipv6] exactly on the strings
    [address/p] whose address is a non-empty string of hexadecimal digits
    and colons and whose prefix length [p] is from 0 to 129 written without
    leading zero, each optionally followed by one line feed.  The address
    is not checked any further: [:/0] is accepted. *)
Theorem get_ip_version_ipv6_iff (s : string) :
  get_ip_version (PyStr s) = Ok ipv6 <->
  maybe_with_line_feed (ipv6_cidr_upto 129) s.
Proof.
  split.
  - intros H. apply py_match_ipv6. unfold get_ip_version in H.
    destruct (Re.py_match CIDR_IPV4 s); [discriminate|].
    destruct (Re.py_match CIDR_IPV6 s); [reflexivity|discriminate].
  - intros H. unfold get_ip_version.
    destruct (Re.py_match CIDR_IPV4 s) eqn:E4.
    + exfalso. apply py_match_ipv4 in E4. exact (patterns_disjoint E4 H).
    + apply py_match_ipv6 in H. rewrite H. reflexivity.
Qed.

(** X3. On a string that is of neither form, [get_ip_version] raises
    [ValueError] with the message ["<cidr>" is not a valid CIDR], naming the
    string; it raises nothing else on a string and never on one of the two
    forms. *)
Theorem get_ip_version_invalid_iff (s : string) (e : exn) :
  get_ip_version (PyStr s) = Raise e <->
  e = ValueError (dquote ++ s ++ dquote ++ " is not a valid CIDR") /\
  ~ maybe_with_line_feed ipv4_cidr s /\
  ~ maybe_with_line_feed (ipv6_cidr_upto 129) s.
Proof.
  rewrite <- py_match_ipv4, <- py_match_ipv6. unfold get_ip_version.
  destruct (Re.py_match CIDR_IPV4 s).
  - split; [discriminate|]. intros [_ [H _]]. exfalso. apply H. reflexivity.
  - destruct (Re.py_match CIDR_IPV6 s).
    + split; [discriminate|]. intros [_ [_ H]]. exfalso. apply H. reflexivity.
    + split.
      * intros [= <-]. repeat split; discriminate.
      * intros [-> _]. reflexivity.
Qed.

(* ===================================================================== *)
(** ** The version check *)
(* ===================================================================== *)

Lemma version_geb_260_200 (v : version) :
  version_geb v [2; 6; 0] = true -> version_geb v [2; 0; 0] = true.
Proof.
  unfold version_geb. rewrite !negb_true_iff.
  destruct v as [|a [|b [|c v]]]; by_components.
Qed.

Lemma version_geb_130_126 (v : version) :
  version_geb v [1; 30] = true -> version_geb v [1; 26] = true.
Proof.
  unfold version_geb. rewrite !negb_true_iff.
  destruct v as [|a [|b v]]; by_components.
Qed.

Lemma minimal_version_check_ok (client : AnsibleDockerClient) (name : string)
  (used : bool) (py_min api_min : version) :
  minimal_version_check client name used py_min api_min = Ok tt <->
  used = false \/ supports client py_min api_min = true.
Proof.
  unfold minimal_version_check, supports.
  destruct (version_geb (docker_py_version client) py_min);
    destruct (version_geb (docker_api_version client) api_min);
    destruct used; simpl; try tauto;
    repeat match goal with
           | |- context [if ?b then _ else _] => destruct b
           end;
    split; try discriminate; intros [H|H]; discriminate H.
Qed.

Lemma minimal_version_check_never_raises (client : AnsibleDockerClient)
  (name : string) (used : bool) (py_min api_min : version) (e : exn) :
  minimal_version_check client name used py_min api_min <> Raise e.
Proof.
  unfold minimal_version_check.
  repeat match goal with
         | |- context [if ?b then _ else _] => destruct b
         end; discriminate.
Qed.

Lemma minimal_versions_ok (client : AnsibleDockerClient) :
  _get_minimal_versions client = Ok tt <->
  (p_scope (params client) = None \/
   supports client [2; 6; 0] [1; 30] = true) /\
  (p_attachable (params client) = None \/
   supports client [2; 0; 0] [1; 26] = true).
Proof.
  unfold _get_minimal_versions.
  pose proof (minimal_version_check_ok client "scope"
                (is_some (p_scope (params client))) [2; 6; 0] [1; 30]) as Hs.
  pose proof (minimal_version_check_ok client "attachable"
                (is_some (p_attachable (params client))) [2; 0; 0] [1; 26]) as Ha.
  assert (Es : is_some (p_scope (params client)) = false <->
               p_scope (params client) = None)
    by (destruct (p_scope (params client)); simpl; split; congruence).
  assert (Ea : is_some (p_attachable (params client)) = false <->
               p_attachable (params client) = None)
    by (destruct (p_attachable (params client)); simpl; split; congruence).
  rewrite <- Es, <- Ea, <- Hs, <- Ha.
  destruct (minimal_version_check client "scope" _ _ _) as [[]|m|e]; simpl.
  - tauto.
  - split; [discriminate|]. intros [H _]. discriminate H.
  - split; [discriminate|]. intros [H _]. discriminate H.
Qed.

Lemma minimal_versions_never_raise (client : AnsibleDockerClient) (e : exn) :
  _get_minimal_versions client <> Raise e.
Proof.
  unfold _get_minimal_versions.
  pose proof (@minimal_version_check_never_raises client "scope"
                (is_some (p_scope (params client))) [2; 6; 0] [1; 30]) as Hs.
  destruct (minimal_version_check client "scope" _ _ _) as [[]|m|e']; simpl.
  - apply minimal_version_check_never_raises.
  - discriminate.
  - exfalso. apply (Hs e'). reflexivity.
Qed.

(** X4.  The version check lets a pass through exactly when every one of
    [scope] and [attachable] that is set is supported: [scope] needs the SDK
    at 2.6.0 and the API at 1.30, [attachable] the SDK at 2.0.0 and the API
    at 1.26.  No other option is version-checked, and the check never
    raises: it passes or fails cleanly. *)
Theorem minimal_versions_pass_iff (client : AnsibleDockerClient) :
  (_get_minimal_versions client = Ok tt <->
   (p_scope (params client) = None \/
    supports client [2; 6; 0] [1; 30] = true) /\
   (p_attachable (params client) = None \/
    supports client [2; 0; 0] [1; 26] = true)) /\
  (forall e, _get_minimal_versions client <> Raise e).
Proof.
  split; [apply minimal_versions_ok | apply minimal_versions_never_raise].
Qed.

(** X5.  The requirements are nested: an installation that supports
    [scope] passes the version check whatever options are set. *)
Theorem scope_support_suffices (client : AnsibleDockerClient) :
  supports client [2; 6; 0] [1; 30] = true ->
  _get_minimal_versions client = Ok tt.
Proof.
  intros H. unfold supports in H. apply andb_true_iff in H. destruct H as [Hp Ha].
  assert (H2 : supports client [2; 0; 0] [1; 26] = true).
  { unfold supports. rewrite (version_geb_260_200 _ Hp), (version_geb_130_126 _ Ha).
    reflexivity. }
  unfold _get_minimal_versions.
  rewrite (proj2 (minimal_version_check_ok client "scope" _ [2; 6; 0] [1; 30]))
    by (right; unfold supports; rewrite Hp, Ha; reflexivity).
  simpl.
  apply minimal_version_check_ok. right. exact H2.
Qed.

Lemma scope_support_suffices_witness :
  _get_minimal_versions
    (mk_client
       (mk_params "net1" [] StPresent (Some "bridge") (Some []) false false None
          Daemon.no_ipam_options None None None false (Some "swarm") (Some true))
       false false [2; 6; 0] [1; 30] "1.30" "2.6.0") = Ok tt.
Proof. apply scope_support_suffices. reflexivity. Defined.

(* ===================================================================== *)
(** ** Passes that stop before they act *)
(* ===================================================================== *)

Section EarlyExit.
Variable world : Type.
Variable api : DockerAPI world.

Lemma main_version_failure (client : AnsibleDockerClient) (w : world) (msg : string) :
  _get_minimal_versions client = Fail msg ->
  main api client w = (Fail msg, initial_state client w).
Proof.
  intros Hv. unfold main, init_body, initial_state.
  rewrite bind_assoc, bind_run.
  unfold init_prologue. rewrite bind_run. unfold lift at 1. rewrite Hv.
  reflexivity.
Qed.

(** X6.  A pass that sets [scope] on an installation that does not
    support it fails cleanly before it makes any client call, not even the
    first inspection: the world is untouched and nothing is logged. *)
Theorem unsupported_scope_fails_before_any_call
  (client : AnsibleDockerClient) (w : world) (sc : string) :
  p_scope (params client) = Some sc ->
  supports client [2; 6; 0] [1; 30] = false ->
  exists msg, main api client w = (Fail msg, initial_state client w).
Proof.
  intros Hs Hsup.
  destruct (_get_minimal_versions client) as [[]|msg|e] eqn:Hv.
  - exfalso. apply minimal_versions_ok in Hv.
    destruct Hv as [[H|H] _]; congruence.
  - exists msg. exact (main_version_failure client w Hv).
  - exfalso. exact (@minimal_versions_never_raise client e Hv).
Qed.

(** X7.  Only [NotFound] is taken as the answer that the network does
    not exist.  Any other exception of the first inspection leaves
    [__init__] uncaught: the pass raises it after that one call, without
    having changed anything. *)
Theorem inspection_error_propagates
  (client : AnsibleDockerClient) (w : world) (e : exn) :
  _get_minimal_versions client = Ok tt ->
  inspect_network api w (p_network_name (params client)) = inl e ->
  (forall what, e <> NotFound what) ->
  main api client w =
  (Raise e, logged (CInspect (p_network_name (params client)))
              (initial_state client w)).
Proof.
  intros Hv Hi Hne. unfold main, init_body, initial_state.
  rewrite bind_assoc, bind_run.
  unfold init_prologue. rewrite bind_run. unfold lift at 1. rewrite Hv.
  rewrite bind_run. unfold get_existing_network.
  rewrite bind_self, client_read_run.
  change (remote (mk_st (new_manager client) w [])) with w.
  change (network_name (parameters (mgr (mk_st (new_manager client) w []))))
    with (p_network_name (params client)).
  rewrite Hi.
  destruct e; try reflexivity.
  exfalso. exact (Hne what eq_refl).
Qed.

End EarlyExit.

(* ===================================================================== *)
(** ** What a pass calls *)
(* ===================================================================== *)

Section PassCalls.
Variable world : Type.
Variable api : DockerAPI world.

Implicit Types s : st world.

Lemma absent_run s : absent api s = remove_network api (tracked_exists false s).
Proof. reflexivity. Qed.

Lemma ready_state_has_actions (client : AnsibleDockerClient) (w : world)
  (e : option network) (legacy : bool) :
  has_actions (ready_state client w e legacy).
Proof. exists []. reflexivity. Qed.

(** The calls of [present] are those of the reconciliation followed, when
    that returns, by the inspection for the facts. *)
Lemma present_calls s :
  has_actions s ->
  exists evs acts (o : outcome unit) s4,
    effect (tracked_exists true s) s4 evs acts /\
    (exists ideal ideal_acts,
        within (check_mode (mgr s)) o evs acts ideal ideal_acts) /\
    (calls (snd (present api s)) = calls s ++ evs \/
     calls (snd (present api s)) =
       calls s ++ evs ++ [CInspect (network_name (parameters (mgr s)))]).
Proof.
  intros Ha.
  destruct (compare_existing (mgr s)) as [[different differences]|m|ex] eqn:Hc.
  - rewrite (present_reconciles api s Hc).
    pose proof (tracked_exists_has_actions true Ha) as Hat.
    destruct (reconcile_contract api different Hat) as [cs [ds C]].
    destruct C as [evs [acts [E [W _]]]].
    destruct (reconcile api (mgr (tracked_exists true s)) different
                (tracked_exists true s)) as [o s4] eqn:Hr.
    simpl in E, W.
    exists evs, acts, o, s4. split; [exact E|]. split.
    + eexists. eexists. exact W.
    + destruct o as [[]|m|ex].
      * right.
        assert (Ha4 : has_actions s4) by (eapply effect_has_actions; eauto).
        destruct (report_run api (mgr s) differences Ha4) as [Hcalls _].
        rewrite Hcalls, (eff_calls E), (eff_parameters E). simpl.
        rewrite <- app_assoc. reflexivity.
      * left. exact (eff_calls E).
      * left. exact (eff_calls E).
  - destruct (present_stops api s) as [Hs _].
    { intros r. rewrite Hc. discriminate. }
    exists [], [], (Fail m), (tracked_exists true s).
    split; [apply effect_refl|]. split.
    + exists [], []. unfold within.
      destruct (check_mode (mgr s)); repeat split; try discriminate;
        try reflexivity; exists []; reflexivity.
    + left. rewrite Hs, app_nil_r. reflexivity.
  - destruct (present_stops api s) as [Hs _].
    { intros r. rewrite Hc. discriminate. }
    exists [], [], (Raise ex), (tracked_exists true s).
    split; [apply effect_refl|]. split.
    + exists [], []. unfold within.
      destruct (check_mode (mgr s)); repeat split; try discriminate;
        try reflexivity; exists []; reflexivity.
    + left. rewrite Hs, app_nil_r. reflexivity.
Qed.

Lemma mutations_inspect (l : list call) (name : string) :
  mutations (l ++ [CInspect name]) = mutations l.
Proof. rewrite mutations_app. simpl. apply app_nil_r. Qed.

(** X8.  In check mode no pass makes a mutating call, whatever the
    state asked for, the options, the world, and whether the pass returns,
    fails or raises: the only calls are inspections. *)
Theorem check_mode_never_mutates (client : AnsibleDockerClient) (w : world) :
  client_check_mode client = true ->
  mutations (calls (snd (main api client w))) = [].
Proof.
  intros Hchk.
  destruct (main_cases api client w) as [[e [legacy [Hv [Hf Hl]]]]|Hnot].
  - rewrite (main_ready api client w Hv Hf Hl).
    set (s2 := ready_state client w e legacy).
    pose proof (ready_state_has_actions client w e legacy) as Ha2. fold s2 in Ha2.
    assert (Hc2 : check_mode (mgr s2) = true) by exact Hchk.
    assert (Hm2 : mutations (calls s2) = []) by reflexivity.
    destruct (p_state (params client)).
    + destruct (finish_run (present api s2)) as [Hfc _]. rewrite Hfc.
      destruct (present_calls Ha2) as [evs [acts [o [s4 [_ [[i [ia W]] Hcalls]]]]]].
      rewrite Hc2 in W. destruct W as [Hm _].
      destruct Hcalls as [-> | ->].
      * rewrite mutations_app, Hm2, Hm. reflexivity.
      * rewrite app_assoc, mutations_inspect, mutations_app, Hm2, Hm. reflexivity.
    + destruct (finish_run (absent api s2)) as [Hfc _]. rewrite Hfc.
      rewrite absent_run.
      pose proof (tracked_exists_has_actions false Ha2) as Hat.
      destruct (remove_network_contract api Hat) as [evs [acts [E [W _]]]].
      change (check_mode (mgr (tracked_exists false s2))) with (check_mode (mgr s2)) in W.
      rewrite Hc2 in W. destruct W as [Hm _].
      rewrite (eff_calls E). change (calls (tracked_exists false s2)) with (calls s2).
      rewrite mutations_app, Hm2, Hm. reflexivity.
  - exact (proj1 (main_not_ready api client w Hnot)).
Qed.

End PassCalls.


(* ===================================================================== *)
(** ** Invariants of the manager object *)
(* ===================================================================== *)

Section Invariants.
Variable world : Type.
Variable api : DockerAPI world.
Variable I : manager -> Prop.

Lemma preserves_bind {A B : Type} (c : M world A) (f : A -> M world B) :
  preserves I c -> (forall a, preserves I (f a)) -> preserves I (bind c f).
Proof.
  intros Hc Hf s Hs. rewrite bind_run. specialize (Hc s Hs).
  destruct (c s) as [[a|m|e] s1]; simpl in *; auto.
  now apply Hf.
Qed.

Lemma preserves_ret {A : Type} (a : A) : preserves I (@ret world A a).
Proof. intros s Hs. exact Hs. Qed.

Lemma preserves_raise {A : Type} (e : exn) : preserves I (@raise world A e).
Proof. intros s Hs. exact Hs. Qed.

Lemma preserves_lift {A : Type} (o : outcome A) : preserves I (@lift world A o).
Proof. intros s Hs. exact Hs. Qed.

Lemma preserves_self : preserves I (@self world).
Proof. intros s Hs. exact Hs. Qed.

Lemma preserves_update (f : manager -> manager) :
  (forall m, I m -> I (f m)) -> preserves I (@update world f).
Proof. intros Hf s Hs. simpl. now apply Hf. Qed.

Lemma preserves_when (b : bool) (c : M world unit) :
  preserves I c -> preserves I (when b c).
Proof. intros Hc. destruct b; [exact Hc | apply preserves_ret]. Qed.

Lemma preserves_for_each {A : Type} (l : list A) (body : A -> M world unit) :
  (forall x, preserves I (body x)) -> preserves I (for_each l body).
Proof.
  intros Hb. induction l as [|x l IH]; [apply preserves_ret|].
  apply (@preserves_bind unit unit (body x) (fun _ => for_each l body)); auto.
Qed.

Lemma preserves_client_read (c : call) (f : world -> exn + network) :
  preserves I (client_read c f).
Proof.
  intros s Hs. unfold client_read. destruct (f (remote s)); exact Hs.
Qed.

Lemma preserves_client_write {A : Type} (c : call) (f : world -> exn + (A * world)) :
  preserves I (client_write c f).
Proof.
  intros s Hs. unfold client_write. destruct (f (remote s)) as [e|[a w]]; exact Hs.
Qed.

End Invariants.


Lemma unsupported_scope_fails_before_any_call_witness :
  exists msg,
    main Daemon.api (old_client (swarm_scoped "net1")) [Daemon.net1]
    = (Fail msg, initial_state (old_client (swarm_scoped "net1")) [Daemon.net1]).
Proof.
  apply (@unsupported_scope_fails_before_any_call _ Daemon.api
           (old_client (swarm_scoped "net1")) [Daemon.net1] "swarm");
    reflexivity.
Defined.

Lemma inspection_error_propagates_witness :
  main Outage.api (Daemon.client (Daemon.defaults "net1") false false) tt
  = (Raise Outage.error,
     logged (CInspect "net1")
       (initial_state (Daemon.client (Daemon.defaults "net1") false false) tt)).
Proof.
  apply (@inspection_error_propagates _ Outage.api
           (Daemon.client (Daemon.defaults "net1") false false) tt Outage.error).
  - reflexivity.
  - reflexivity.
  - discriminate.
Defined.

Lemma check_mode_never_mutates_witness :
  mutations
    (calls (snd (main Daemon.api
                   (Daemon.client
                      (Daemon.with_force true
                         (Daemon.with_connected ["a"; "c"] (Daemon.defaults "net1")))
                      true false)
                   [Daemon.net1]))) = [].
Proof.
  apply (@check_mode_never_mutates _ Daemon.api). reflexivity.
Defined.

(* ===================================================================== *)
(** ** Passes with [state=absent] *)
(* ===================================================================== *)

Section Absent.
Variable world : Type.
Variable api : DockerAPI world.

Implicit Types s : st world.

(** [finish] runs [assemble_diff], which returns and touches neither the
    calls nor the world. *)
Lemma finish_returns (s : st world) :
  exists res s',
    finish (Ok tt, s) = (Ok res, s') /\
    calls s' = calls s /\ remote s' = remote s /\
    actions res = actions (results (mgr s)) /\
    changed res = changed (results (mgr s)) /\
    ansible_facts res = ansible_facts (results (mgr s)).
Proof.
  destruct s as [[p chk [ch ac fa rd] df tr dr en] w cl].
  unfold finish, assemble_diff, bind, self, when, update, ret. simpl.
  destruct (df || chk || debug p); destruct df; simpl;
    eexists; eexists; (split; [reflexivity|]); repeat split; reflexivity.
Qed.

Lemma finish_stops (o : outcome unit) (s : st world) :
  o <> Ok tt -> forall res, fst (finish (o, s)) <> Ok res.
Proof.
  intros Ho res. destruct o as [[]|m|e]; simpl; try discriminate.
  now elim Ho.
Qed.

(** X9.  [state=absent] on a network that does not exist is a no-op:
    the pass returns unchanged with an empty action log and no facts, and
    its only call is the first inspection. *)
Theorem absent_of_missing_network_is_noop
  (client : AnsibleDockerClient) (w : world) (what : string) (legacy : bool) :
  p_state (params client) = StAbsent ->
  _get_minimal_versions client = Ok tt ->
  inspect_network api w (p_network_name (params client)) = inl (NotFound what) ->
  ipam_options_used (p_ipam_options (params client)) = Ok legacy ->
  exists res s',
    main api client w = (Ok res, s') /\
    changed res = false /\ actions res = Some [] /\ ansible_facts res = None /\
    calls s' = [CInspect (p_network_name (params client))] /\ remote s' = w.
Proof.
  intros Hst Hv Hi Hl.
  assert (Hf : found (inspect_network api w (p_network_name (params client))) = Ok None)
    by (rewrite Hi; reflexivity).
  rewrite (main_ready api client w Hv Hf Hl), Hst.
  set (s2 := ready_state client w None legacy).
  assert (Hrun : absent api s2 = (Ok tt, tracked_exists false s2)) by reflexivity.
  rewrite Hrun.
  destruct (finish_returns (tracked_exists false s2))
    as [res [s' [Hfin [Hc [Hr [Ha [Hch Hfa]]]]]]].
  exists res, s'. split; [exact Hfin|].
  rewrite Hch, Ha, Hfa, Hc, Hr. repeat split; reflexivity.
Qed.

(** X10.  [state=absent] on a network that exists: the mutating calls
    are, in this order, one disconnection for each container the network
    has and then the removal; a pass that stops early made a prefix of
    them.  A pass that returns reports a change, hands back the full action
    log whatever the mode, sets no facts, and outside check mode made
    exactly these calls. *)
Theorem absent_disconnects_then_removes
  (client : AnsibleDockerClient) (w : world) (net : network) (legacy : bool) :
  p_state (params client) = StAbsent ->
  _get_minimal_versions client = Ok tt ->
  inspect_network api w (p_network_name (params client)) = inr net ->
  ipam_options_used (p_ipam_options (params client)) = Ok legacy ->
  let name := p_network_name (params client) in
  let members := container_names_in_network net in
  (exists k, removal_plan name members
             = mutations (calls (snd (main api client w))) ++ k) /\
  (forall res s',
      main api client w = (Ok res, s') ->
      changed res = true /\
      actions res = Some (removal_log name members) /\
      ansible_facts res = None /\
      mutations (calls s') =
        if client_check_mode client then [] else removal_plan name members).
Proof.
  intros Hst Hv Hi Hl name members.
  assert (Hf : found (inspect_network api w (p_network_name (params client)))
               = Ok (Some net)) by (rewrite Hi; reflexivity).
  rewrite (main_ready api client w Hv Hf Hl), Hst.
  set (s2 := ready_state client w (Some net) legacy).
  rewrite absent_run.
  set (s3 := tracked_exists false s2).
  assert (Ha3 : has_actions s3) by (exists []; reflexivity).
  assert (Hname : network_name (parameters (mgr s3)) = name)
    by (unfold s3, s2, ready_state, ready_parameters; simpl;
        destruct legacy; reflexivity).
  pose proof (remove_network_contract api Ha3) as C. cbv zeta in C.
  assert (Hplan : remove_plan api s3 = members).
  { unfold remove_plan. rewrite Hname. change (remote s3) with w.
    unfold name. rewrite Hi. reflexivity. }
  assert (Hrem : removes api s3 = true).
  { unfold removes. rewrite Hname. change (remote s3) with w.
    unfold name. rewrite Hi. reflexivity. }
  rewrite Hplan, Hrem, Hname in C.
  fold (removal_plan name members) in C. fold (removal_log name members) in C.
  destruct C as [evs [acts [E [[Hm [Hp Hok]] _]]]].
  change (check_mode (mgr s3)) with (client_check_mode client) in Hm, Hok.
  destruct (remove_network api s3) as [o s4] eqn:Hr. simpl in E, Hm, Hp, Hok.
  assert (Hcalls : mutations (calls s4) = mutations evs).
  { rewrite (eff_calls E). reflexivity. }
  split.
  - assert (Hfc : calls (snd (finish (o, s4))) = calls s4)
      by exact (proj1 (finish_run (o, s4))).
    rewrite Hfc, Hcalls.
    destruct (client_check_mode client).
    + rewrite Hm. exists (removal_plan name members). reflexivity.
    + exact Hm.
  - intros res s' Hmain.
    destruct (finish_run (o, s4)) as [Hfc Hfin].
    rewrite Hmain in Hfc, Hfin. simpl in Hfc, Hfin.
    destruct (Hfin res eq_refl) as [Ho [Hact [Hch Hfa]]].
    destruct (Hok Ho) as [Hev Hac]. subst acts.
    rewrite Hch, Hact, Hfa, Hfc, Hcalls.
    rewrite (eff_changed E), (eff_facts E), (eff_actions E (l:=[]) eq_refl).
    split; [|split; [|split]].
    + unfold removal_log. destruct (map msg_disconnected members); reflexivity.
    + reflexivity.
    + reflexivity.
    + destruct (client_check_mode client); [exact Hm | apply Hev; reflexivity].
Qed.

End Absent.

(* ===================================================================== *)
(** ** Passes with [state=present] *)
(* ===================================================================== *)

Section Present.
Variable world : Type.
Variable api : DockerAPI world.

Implicit Types s : st world.

Lemma Forall_prefix {A : Type} (P : A -> Prop) (l l1 k : list A) :
  l = l1 ++ k -> Forall P l -> Forall P l1.
Proof. intros ->. intros H. apply Forall_app in H. tauto. Qed.

Lemma membership_calls (name : string) (cs ds : list string) :
  Forall (membership_call name)
    (map (fun c => CConnect c name) cs ++ map (fun c => CDisconnect c name) ds).
Proof.
  apply Forall_app. split; apply Forall_forall; intros c Hc;
    apply in_map_iff in Hc; destruct Hc as [x [<- _]]; exists x; auto.
Qed.

(** The last statements of [present], when they return. *)
Lemma report_result (m : manager) (differences : DifferenceTracker.t) s s5
  (l : list string) :
  actions (results (mgr s)) = Some l ->
  report api m differences s = (Ok tt, s5) ->
  actions (results (mgr s5)) =
    (if check_mode m || debug (parameters m) then Some l else None) /\
  changed (results (mgr s5)) = changed (results (mgr s)) /\
  remote s5 = remote s /\
  exists facts,
    ansible_facts (results (mgr s5)) = Some facts /\
    found (inspect_network api (remote s) (network_name (parameters (mgr s))))
    = Ok facts.
Proof.
  destruct s as [[p chk [ch ac fa rd] df tr dr en] w cl].
  simpl. intros ->.
  unfold report, get_existing_network, bind, self, when, update, ret, raise,
    client_read. simpl.
  destruct (diff m || check_mode m || debug (parameters m));
    destruct (check_mode m); destruct (debug (parameters m)); simpl;
    destruct (inspect_network api w (network_name p)) as [[]|n]; simpl;
    intros H; inversion H; subst; simpl;
    repeat split; eexists; split; reflexivity.
Qed.

(** The calls of a [present] pass that got to the reconciliation. *)
Lemma present_pass_calls s (different : bool) (differences : DifferenceTracker.t)
  (o : outcome unit) s4 evs acts :
  compare_existing (mgr s) = Ok (different, differences) ->
  reconcile api (mgr (tracked_exists true s)) different (tracked_exists true s)
  = (o, s4) ->
  effect (tracked_exists true s) s4 evs acts ->
  has_actions s ->
  mutations (calls (snd (finish (present api s)))) = mutations (calls s) ++ mutations evs.
Proof.
  intros Hc Hr E Ha.
  rewrite (proj1 (finish_run (present api s))).
  rewrite (present_reconciles api s Hc), Hr.
  assert (Hc4 : mutations (calls s4) = mutations (calls s) ++ mutations evs).
  { rewrite (eff_calls E), mutations_app. reflexivity. }
  destruct o as [[]|m|ex]; try exact Hc4.
  assert (Ha4 : has_actions s4).
  { eapply effect_has_actions; [exact E|]. now apply tracked_exists_has_actions. }
  rewrite (proj1 (report_run api (mgr s) differences Ha4)).
  rewrite mutations_inspect. exact Hc4.
Qed.

(** X11.  A [present] pass on a network that exists, with [force] off
    and no difference found, leaves the network itself alone: it never
    removes or creates it, its only mutating calls connect or disconnect
    containers of that network. *)
Theorem present_without_difference_keeps_network
  (client : AnsibleDockerClient) (w : world) (net : network) (legacy : bool)
  (differences : DifferenceTracker.t) :
  p_state (params client) = StPresent ->
  _get_minimal_versions client = Ok tt ->
  inspect_network api w (p_network_name (params client)) = inr net ->
  ipam_options_used (p_ipam_options (params client)) = Ok legacy ->
  p_force (params client) = false ->
  has_different_config (ready_parameters (params client) (Some net) legacy) net
  = Ok (false, differences) ->
  Forall (membership_call (p_network_name (params client)))
    (mutations (calls (snd (main api client w)))).
Proof.
  intros Hst Hv Hi Hl Hforce Hcmp.
  assert (Hf : found (inspect_network api w (p_network_name (params client)))
               = Ok (Some net)) by (rewrite Hi; reflexivity).
  rewrite (main_ready api client w Hv Hf Hl), Hst.
  set (s2 := ready_state client w (Some net) legacy).
  assert (Ha2 : has_actions s2) by (exists []; reflexivity).
  assert (Hc : compare_existing (mgr s2) = Ok (false, differences)) by exact Hcmp.
  pose proof (tracked_exists_has_actions true Ha2) as Hat.
  destruct (reconcile_contract api false Hat) as [cs [ds C]]. cbv zeta in C.
  assert (Hfo : force (parameters (mgr (tracked_exists true s2))) = false)
    by (unfold s2, ready_state, ready_parameters; simpl; destruct legacy; exact Hforce).
  assert (Hname : network_name (parameters (mgr (tracked_exists true s2)))
                  = p_network_name (params client))
    by (unfold s2, ready_state, ready_parameters; simpl; destruct legacy; reflexivity).
  rewrite Hfo, Hname in C.
  change (existing_network (mgr (tracked_exists true s2))) with (Some net) in C.
  simpl orb in C. simpl negb in C. cbv iota in C. simpl app in C.
  destruct C as [evs [acts [E [[Hm _] _]]]].
  destruct (reconcile api (mgr (tracked_exists true s2)) false
              (tracked_exists true s2)) as [o s4] eqn:Hr.
  simpl in E, Hm.
  rewrite (present_pass_calls Hc Hr E Ha2).
  change (mutations (calls s2)) with (@nil call). simpl app.
  change (check_mode (mgr (tracked_exists true s2)))
    with (client_check_mode client) in Hm.
  destruct (client_check_mode client).
  - rewrite Hm. constructor.
  - destruct Hm as [k Hk].
    eapply Forall_prefix; [exact Hk|]. apply membership_calls.
Qed.

(** X12.  A [present] pass on a network that does not exist removes and
    disconnects nothing before it creates: its first mutating call, if it
    makes any, is the creation with the parameters built from the options,
    and what follows only connects or disconnects containers.  This holds
    with [force] set as well.  Outside check mode a pass that returns did
    create the network, and every pass that returns reports a change. *)
Theorem present_on_missing_network_creates_first
  (client : AnsibleDockerClient) (w : world) (what : string) (legacy : bool) :
  p_state (params client) = StPresent ->
  _get_minimal_versions client = Ok tt ->
  inspect_network api w (p_network_name (params client)) = inl (NotFound what) ->
  ipam_options_used (p_ipam_options (params client)) = Ok legacy ->
  let name := p_network_name (params client) in
  let creation :=
    CCreate name (build_create_params (ready_parameters (params client) None legacy)) in
  (mutations (calls (snd (main api client w))) = [] \/
   exists k, mutations (calls (snd (main api client w))) = creation :: k /\
             Forall (membership_call name) k) /\
  (forall res s',
      main api client w = (Ok res, s') ->
      changed res = true /\
      (client_check_mode client = false ->
       exists k, mutations (calls s') = creation :: k)).
Proof.
  intros Hst Hv Hi Hl name creation.
  assert (Hf : found (inspect_network api w (p_network_name (params client))) = Ok None)
    by (rewrite Hi; reflexivity).
  rewrite (main_ready api client w Hv Hf Hl), Hst.
  set (s2 := ready_state client w None legacy).
  assert (Ha2 : has_actions s2) by (exists []; reflexivity).
  assert (Hc : compare_existing (mgr s2) = Ok (false, DifferenceTracker.new))
    by reflexivity.
  pose proof (tracked_exists_has_actions true Ha2) as Hat.
  destruct (reconcile_contract api false Hat) as [cs [ds C]]. cbv zeta in C.
  assert (Hname : network_name (parameters (mgr (tracked_exists true s2))) = name)
    by (unfold s2, ready_state, ready_parameters; simpl; destruct legacy; reflexivity).
  assert (Hplan : remove_plan api (tracked_exists true s2) = []) by reflexivity.
  assert (Hrem : removes api (tracked_exists true s2) = false) by reflexivity.
  rewrite Hname, Hplan, Hrem in C.
  change (existing_network (mgr (tracked_exists true s2))) with (@None network) in C.
  change (parameters (mgr (tracked_exists true s2)))
    with (ready_parameters (params client) None legacy) in C.
  rewrite orb_false_r in C. simpl negb in C. rewrite orb_true_r in C.
  fold creation in C.
  assert (Hnil : (if force (ready_parameters (params client) None legacy)
                  then map (fun c => CDisconnect c name) [] ++ []
                  else []) = @nil call) by (destruct (force _); reflexivity).
  assert (Hnil' : (if force (ready_parameters (params client) None legacy)
                   then map msg_disconnected [] ++ []
                   else []) = @nil string) by (destruct (force _); reflexivity).
  rewrite Hnil, Hnil' in C. simpl app in C.
  destruct C as [evs [acts [E [[Hm [Hp Hok]] _]]]].
  destruct (reconcile api (mgr (tracked_exists true s2)) false
              (tracked_exists true s2)) as [o s4] eqn:Hr.
  simpl in E, Hm, Hp, Hok.
  change (check_mode (mgr (tracked_exists true s2)))
    with (client_check_mode client) in Hm, Hok.
  pose proof (present_pass_calls Hc Hr E Ha2) as Hcalls.
  change (mutations (calls s2)) with (@nil call) in Hcalls. simpl app in Hcalls.
  split.
  - rewrite Hcalls. destruct (client_check_mode client).
    + left. exact Hm.
    + destruct Hm as [k Hk].
      destruct (mutations evs) as [|c l]; [left; reflexivity|].
      right. simpl in Hk. injection Hk as Hc1 Hk. subst c. exists l. split; [reflexivity|].
      eapply Forall_prefix; [exact Hk|]. apply membership_calls.
  - intros res s' Hmain.
    destruct (finish_run (present api s2)) as [_ Hfin].
    rewrite Hmain in Hfin. destruct (Hfin res eq_refl) as [Hpres [_ [Hch _]]].
    rewrite Hmain in Hcalls. simpl in Hcalls.
    rewrite (present_reconciles api s2 Hc), Hr in Hpres, Hch.
    destruct o as [[]|m|ex]; try (simpl in Hpres; discriminate).
    destruct (Hok eq_refl) as [Hev Hac].
    assert (Ha4 : has_actions s4) by (eapply effect_has_actions; eauto).
    destruct Ha4 as [l4 Hl4].
    destruct (report api (mgr s2) DifferenceTracker.new s4) as [o5 s5] eqn:Hrep.
    simpl in Hpres. subst o5.
    destruct (report_result _ _ _ Hl4 Hrep) as [_ [Hch5 _]].
    simpl in Hch. split.
    + rewrite Hch, Hch5, (eff_changed E), Hac. reflexivity.
    + intros Hchk. rewrite Hcalls, (Hev Hchk). eexists. reflexivity.
Qed.

End Present.

(* ===================================================================== *)
(** ** The results of a pass that returns *)
(* ===================================================================== *)

Section Results.
Variable world : Type.
Variable api : DockerAPI world.

Implicit Types s : st world.

(** A pass that returns went through [present] or [absent] from the ready
    state, and then through the end of [__init__]. *)
Lemma returned_pass (client : AnsibleDockerClient) (w : world)
  (res : results_t) (s' : st world) :
  main api client w = (Ok res, s') ->
  exists e legacy s5,
    found (inspect_network api w (p_network_name (params client))) = Ok e /\
    match p_state (params client) with
    | StPresent => present api
    | StAbsent => absent api
    end (ready_state client w e legacy) = (Ok tt, s5) /\
    finish (Ok tt, s5) = (Ok res, s').
Proof.
  intros Hmain.
  destruct (main_cases api client w) as [[e [legacy [Hv [Hf Hl]]]]|Hnot].
  - rewrite (main_ready api client w Hv Hf Hl) in Hmain.
    exists e, legacy.
    destruct (match p_state (params client) with
              | StPresent => present api
              | StAbsent => absent api
              end (ready_state client w e legacy)) as [o s5] eqn:Hrun.
    destruct (finish_run (o, s5)) as [_ Hfin]. rewrite Hmain in Hfin.
    destruct (Hfin res eq_refl) as [Ho _]. simpl in Ho. subst o.
    exists s5. auto.
  - destruct (main_not_ready api client w Hnot) as [_ Hno].
    rewrite Hmain in Hno. exfalso. now apply (Hno res).
Qed.

(** A run of [present] that returns went through the comparison, the
    reconciliation and the report. *)
Lemma present_returned s s5 :
  has_actions s ->
  present api s = (Ok tt, s5) ->
  exists different differences evs acts s4,
    compare_existing (mgr s) = Ok (different, differences) /\
    effect (tracked_exists true s) s4 evs acts /\
    report api (mgr s) differences s4 = (Ok tt, s5).
Proof.
  intros Ha Hp.
  destruct (compare_existing (mgr s)) as [[different differences]|m|ex] eqn:Hc.
  - rewrite (present_reconciles api s Hc) in Hp.
    pose proof (tracked_exists_has_actions true Ha) as Hat.
    destruct (reconcile_contract api different Hat) as [cs [ds C]].
    destruct C as [evs [acts [E _]]].
    destruct (reconcile api (mgr (tracked_exists true s)) different
                (tracked_exists true s)) as [[[]|m|ex] s4]; try discriminate.
    exists different, differences, evs, acts, s4. auto.
  - destruct (present_stops api s) as [_ Hno].
    + intros r. rewrite Hc. discriminate.
    + rewrite Hp in Hno. now elim Hno.
  - destruct (present_stops api s) as [_ Hno].
    + intros r. rewrite Hc. discriminate.
    + rewrite Hp in Hno. now elim Hno.
Qed.

Lemma finish_result (s5 s' : st world) (res : results_t) :
  finish (Ok tt, s5) = (Ok res, s') ->
  remote s' = remote s5 /\
  actions res = actions (results (mgr s5)) /\
  changed res = changed (results (mgr s5)) /\
  ansible_facts res = ansible_facts (results (mgr s5)).
Proof.
  intros H.
  destruct (finish_returns s5) as [res0 [s0 [H0 [_ [Hr [Ha [Hc Hf]]]]]]].
  rewrite H in H0. injection H0 as <- <-. auto.
Qed.

(** X13.  The [changed] flag and the action log agree: whenever a pass
    returns with the action log in its results, [changed] is true exactly
    when the log is not empty. *)
Theorem changed_iff_action_logged
  (client : AnsibleDockerClient) (w : world) (res : results_t) (s' : st world)
  (l : list string) :
  main api client w = (Ok res, s') ->
  actions res = Some l ->
  changed res = negb (is_nil l).
Proof.
  intros Hmain Hl.
  destruct (returned_pass client w Hmain) as [e [legacy [s5 [_ [Hrun Hfin]]]]].
  destruct (finish_result s5 Hfin) as [_ [Ha [Hc _]]].
  rewrite Hc. rewrite Ha in Hl. clear Ha Hc Hfin Hmain.
  set (s2 := ready_state client w e legacy) in *.
  assert (Ha2 : has_actions s2) by (exists []; reflexivity).
  destruct (p_state (params client)).
  - destruct (present_returned Ha2 Hrun)
      as [different [differences [evs [acts [s4 [_ [E Hrep]]]]]]].
    pose proof (eff_actions E (l:=[]) eq_refl) as Hl4. simpl in Hl4.
    destruct (report_result api _ _ _ Hl4 Hrep) as [Hl5 [Hc5 _]].
    rewrite Hc5, (eff_changed E). rewrite Hl5 in Hl.
    destruct (check_mode (mgr s2) || debug (parameters (mgr s2)));
      [|discriminate].
    injection Hl as <-. destruct acts; reflexivity.
  - rewrite absent_run in Hrun.
    pose proof (tracked_exists_has_actions false Ha2) as Hat.
    destruct (remove_network_contract api Hat) as [evs [acts [E _]]].
    rewrite Hrun in E. simpl in E.
    pose proof (eff_actions E (l:=[]) eq_refl) as Hl4. simpl in Hl4.
    rewrite Hl4 in Hl. injection Hl as <-.
    rewrite (eff_changed E). destruct acts; reflexivity.
Qed.

(** X15.  The facts of a [present] pass that returns are what the daemon
    says about the network at the end of the pass: the network as the last
    inspection finds it in the final world, or no network when it is not
    found there. *)
Theorem present_facts_are_final_inspection
  (client : AnsibleDockerClient) (w : world) (res : results_t) (s' : st world) :
  p_state (params client) = StPresent ->
  main api client w = (Ok res, s') ->
  exists facts,
    ansible_facts res = Some facts /\
    found (inspect_network api (remote s') (p_network_name (params client)))
    = Ok facts.
Proof.
  intros Hst Hmain.
  destruct (returned_pass client w Hmain) as [e [legacy [s5 [_ [Hrun Hfin]]]]].
  destruct (finish_result s5 Hfin) as [Hr [_ [_ Hf]]].
  rewrite Hst in Hrun.
  set (s2 := ready_state client w e legacy) in *.
  assert (Ha2 : has_actions s2) by (exists []; reflexivity).
  destruct (present_returned Ha2 Hrun)
    as [different [differences [evs [acts [s4 [_ [E Hrep]]]]]]].
  pose proof (eff_actions E (l:=[]) eq_refl) as Hl4.
  destruct (report_result api _ _ _ Hl4 Hrep) as [_ [_ [Hr5 [facts [Hfacts Hfound]]]]].
  exists facts. split; [rewrite Hf; exact Hfacts|].
  rewrite Hr, Hr5, <- Hfound, (eff_parameters E).
  unfold s2, ready_state, ready_parameters. simpl.
  destruct legacy; reflexivity.
Qed.

End Results.

(* ===================================================================== *)
(** ** The [diff] entry of the results *)
(* ===================================================================== *)

Section DiffEntry.
Variable world : Type.
Variable api : DockerAPI world.
Variables chk df dbg : bool.

Implicit Types s : st world.

Lemma preserves_bind_self {A : Type} (J : manager -> Prop) (f : manager -> M world A) :
  (forall m, J m -> preserves J (f m)) -> preserves J (bind self f).
Proof. intros H s Hs. rewrite bind_self. now apply H. Qed.

Lemma append_action_pending (a : string) : preserves (diff_pending chk df dbg) (@append_action world a).
Proof.
  unfold append_action. apply preserves_bind_self. intros m Hm.
  destruct (actions (results m)); [|apply preserves_raise].
  apply preserves_update. intros m' H'. by_fields.
Qed.

Lemma mark_changed_pending : preserves (diff_pending chk df dbg) (@mark_changed world).
Proof. unfold mark_changed. apply preserves_update. intros m' H'. by_fields. Qed.

Lemma track_pending (name : string) (p a : diffval) :
  preserves (diff_pending chk df dbg) (@track world name p a).
Proof. unfold track. apply preserves_update. intros m' H'. by_fields. Qed.

Lemma get_existing_network_pending : preserves (diff_pending chk df dbg) (get_existing_network api).
Proof.
  unfold get_existing_network. apply preserves_bind_self. intros m Hm s Hs.
  rewrite client_read_run.
  destruct (inspect_network api (remote s) (network_name (parameters m)))
    as [[]|n]; exact Hs.
Qed.

Lemma disconnect_container_pending (x : string) :
  preserves (diff_pending chk df dbg) (disconnect_container api x).
Proof.
  unfold disconnect_container. apply preserves_bind_self. intros m Hm.
  apply preserves_bind; [|intros _].
  { apply preserves_when. apply preserves_client_write. }
  apply preserves_bind; [apply append_action_pending|intros _].
  apply preserves_bind; [apply mark_changed_pending|intros _].
  apply track_pending.
Qed.

Lemma disconnect_all_containers_pending :
  preserves (diff_pending chk df dbg) (disconnect_all_containers api).
Proof.
  unfold disconnect_all_containers. apply preserves_bind_self. intros m Hm.
  apply preserves_bind; [apply preserves_client_read|intros n].
  destruct (Containers n) as [[|c cs]|]; try apply preserves_ret.
  apply preserves_for_each. intros x. apply disconnect_container_pending.
Qed.

Lemma remove_network_pending : preserves (diff_pending chk df dbg) (remove_network api).
Proof.
  unfold remove_network. apply preserves_bind_self. intros m Hm.
  apply preserves_when.
  apply preserves_bind; [apply disconnect_all_containers_pending|intros _].
  apply preserves_bind; [|intros _].
  { apply preserves_when. apply preserves_client_write. }
  apply preserves_bind; [apply append_action_pending|intros _].
  apply mark_changed_pending.
Qed.

Lemma create_network_pending : preserves (diff_pending chk df dbg) (create_network api).
Proof.
  unfold create_network. apply preserves_bind_self. intros m Hm.
  apply preserves_when. cbv zeta.
  apply preserves_bind; [|intros _].
  { apply preserves_when.
    apply preserves_bind; [apply preserves_client_write|intros resp_id].
    apply preserves_bind; [apply preserves_client_read|intros n].
    apply preserves_update. intros m' H'. by_fields. }
  apply preserves_bind; [apply append_action_pending|intros _].
  apply mark_changed_pending.
Qed.

Lemma connect_containers_pending : preserves (diff_pending chk df dbg) (connect_containers api).
Proof.
  unfold connect_containers. apply preserves_bind_self. intros m Hm.
  apply preserves_for_each. intros x.
  apply preserves_bind.
  - unfold is_container_connected. apply preserves_bind_self. intros m1 Hm1.
    destruct (existing_network m1); [apply preserves_ret | apply preserves_raise].
  - intros c. apply preserves_when. apply preserves_bind_self. intros m1 Hm1.
    apply preserves_bind; [|intros _].
    { apply preserves_when. apply preserves_client_write. }
    apply preserves_bind; [apply append_action_pending|intros _].
    apply preserves_bind; [apply mark_changed_pending|intros _].
    apply track_pending.
Qed.

Lemma disconnect_missing_pending : preserves (diff_pending chk df dbg) (disconnect_missing api).
Proof.
  unfold disconnect_missing. apply preserves_bind_self. intros m Hm.
  destruct (existing_network m) as [n|]; [|apply preserves_ret].
  destruct (Containers n) as [[|c cs]|]; try apply preserves_ret.
  apply preserves_for_each. intros x.
  apply preserves_bind_self. intros m1 Hm1.
  apply preserves_when. apply disconnect_container_pending.
Qed.

Lemma reconcile_pending (m : manager) (different : bool) :
  preserves (diff_pending chk df dbg) (reconcile api m different).
Proof.
  unfold reconcile.
  apply preserves_bind.
  { apply preserves_when.
    apply preserves_bind; [apply remove_network_pending|intros _].
    apply preserves_update. intros m' H'. by_fields. }
  intros _.
  apply preserves_bind; [apply create_network_pending|intros _].
  apply preserves_bind; [apply connect_containers_pending|intros _].
  apply preserves_when. apply disconnect_missing_pending.
Qed.

Lemma absent_pending : preserves (diff_pending chk df dbg) (absent api).
Proof.
  unfold absent. apply preserves_bind_self. intros m Hm.
  apply preserves_bind; [apply track_pending|intros _].
  apply remove_network_pending.
Qed.

(** The last statements of [present] record the differences, and only
    when diff, check or debug mode is on. *)
Lemma report_diff (m : manager) (differences : DifferenceTracker.t) s4 s5 :
  diff_pending chk df dbg (mgr s4) -> diff_pending chk df dbg m ->
  report api m differences s4 = (Ok tt, s5) ->
  check_mode (mgr s5) = chk /\ diff (mgr s5) = df /\
  debug (parameters (mgr s5)) = dbg /\ r_diff (results (mgr s5)) = None /\
  diff_result (mgr s5) =
    mk_diff_result None None
      (if df || chk || dbg
       then Some (DifferenceTracker.get_legacy_docker_diffs differences)
       else None).
Proof.
  destruct s4 as [[p c [ch ac fa rd] f tr dr en] w cl].
  unfold diff_pending. simpl.
  intros [-> [-> [Hd [-> ->]]]] [Hmc [Hmd [Hmg _]]].
  unfold report, get_existing_network, bind, self, when, update, ret, raise,
    client_read. simpl. rewrite Hmc, Hmd, Hmg.
  destruct df, chk, dbg; simpl; destruct ac; simpl;
    destruct (inspect_network api w (network_name p)) as [[]|n]; simpl;
    intros H; inversion H; subst; simpl; auto.
Qed.

(** The end of [__init__] on a manager whose [diff] entry is not set
    yet. *)
Lemma finish_diff (s5 s' : st world) (res : results_t)
  (ds : option (list Difference)) :
  check_mode (mgr s5) = chk -> diff (mgr s5) = df ->
  debug (parameters (mgr s5)) = dbg -> r_diff (results (mgr s5)) = None ->
  diff_result (mgr s5) = mk_diff_result None None ds ->
  finish (Ok tt, s5) = (Ok res, s') ->
  is_some (r_diff res) = (df || chk || dbg) /\
  forall d, r_diff res = Some d ->
    is_some (dr_before d) = df /\ is_some (dr_after d) = df /\
    dr_differences d = ds.
Proof.
  destruct s5 as [[p c [ch ac fa rd] f tr dr en] w cl].
  simpl. intros -> -> Hd -> ->.
  unfold finish, assemble_diff, bind, self, when, update, ret. simpl.
  rewrite Hd.
  destruct df, chk, dbg; simpl; intros H; inversion H; subst; simpl;
    (split; [reflexivity|]); intros d Hd'; inversion Hd'; subst; simpl; auto.
Qed.

End DiffEntry.

Section DiffEntryOfPass.
Variable world : Type.
Variable api : DockerAPI world.

Lemma ready_state_pending (client : AnsibleDockerClient) (w : world)
  (e : option network) (legacy : bool) :
  diff_pending (client_check_mode client) (module_diff client)
    (p_debug (params client)) (mgr (ready_state client w e legacy)).
Proof.
  unfold diff_pending, ready_state, ready_parameters. simpl.
  destruct legacy; repeat split; reflexivity.
Qed.

(** X14.  A pass that returns carries a [diff] entry in its results
    exactly when diff mode, check mode or the [debug] option is on.  The
    entry holds the before and after snapshots exactly in diff mode, and
    the list of differences exactly for [state=present]. *)
Theorem diff_entry_iff_diff_check_or_debug
  (client : AnsibleDockerClient) (w : world) (res : results_t) (s' : st world) :
  main api client w = (Ok res, s') ->
  is_some (r_diff res) =
    (module_diff client || client_check_mode client || p_debug (params client)) /\
  forall d, r_diff res = Some d ->
    is_some (dr_before d) = module_diff client /\
    is_some (dr_after d) = module_diff client /\
    is_some (dr_differences d) =
      match p_state (params client) with StPresent => true | StAbsent => false end.
Proof.
  intros Hmain.
  destruct (returned_pass api client w Hmain) as [e [legacy [s5 [_ [Hrun Hfin]]]]].
  set (s2 := ready_state client w e legacy) in *.
  pose proof (ready_state_pending client w e legacy) as P2. fold s2 in P2.
  set (chk := client_check_mode client) in *.
  set (df := module_diff client) in *.
  set (dbg := p_debug (params client)) in *.
  destruct (p_state (params client)).
  - assert (Ha2 : has_actions s2) by (exists []; reflexivity).
    destruct (compare_existing (mgr s2)) as [[different differences]|m|ex] eqn:Hc.
    + rewrite (present_reconciles api s2 Hc) in Hrun.
      assert (P3 : diff_pending chk df dbg (mgr (tracked_exists true s2))).
      { unfold diff_pending in *. simpl. exact P2. }
      pose proof (@reconcile_pending world api chk df dbg
                    (mgr (tracked_exists true s2)) different
                    (tracked_exists true s2) P3) as P4.
      destruct (reconcile api (mgr (tracked_exists true s2)) different
                  (tracked_exists true s2)) as [[[]|m|ex] s4]; try discriminate.
      simpl in P4.
      destruct (@report_diff _ api _ _ _ _ _ _ _ P4 P2 Hrun)
        as [H1 [H2 [H3 [H4 H5]]]].
      destruct (@finish_diff _ _ _ _ _ _ _ _ H1 H2 H3 H4 H5 Hfin) as [Hshown Hd].
      split; [exact Hshown|].
      intros d Hr. destruct (Hd d Hr) as [Hb [Ha Hds]].
      split; [exact Hb|]. split; [exact Ha|].
      rewrite Hds.
      rewrite Hr in Hshown. simpl in Hshown. rewrite <- Hshown. reflexivity.
    + destruct (present_stops api s2) as [_ Hno].
      * intros r. rewrite Hc. discriminate.
      * rewrite Hrun in Hno. now elim Hno.
    + destruct (present_stops api s2) as [_ Hno].
      * intros r. rewrite Hc. discriminate.
      * rewrite Hrun in Hno. now elim Hno.
  - pose proof (@absent_pending world api chk df dbg s2 P2) as P5.
    rewrite Hrun in P5. simpl in P5.
    destruct P5 as [H1 [H2 [H3 [H4 H5]]]].
    destruct (@finish_diff _ _ _ _ _ _ _ _ H1 H2 H3 H4 H5 Hfin) as [Hshown Hd].
    split; [exact Hshown|].
    intros d Hr. destruct (Hd d Hr) as [Hb [Ha Hds]].
    rewrite Hds. auto.
Qed.

End DiffEntryOfPass.


Lemma absent_of_missing_network_is_noop_witness :
  exists res s',
    main Daemon.api (absent_client false) [] = (Ok res, s') /\
    changed res = false /\ actions res = Some [] /\ ansible_facts res = None /\
    calls s' = [CInspect "net1"] /\ remote s' = [].
Proof.
  apply (@absent_of_missing_network_is_noop _ Daemon.api (absent_client false)
           [] "net1" false); reflexivity.
Defined.

Lemma absent_disconnects_then_removes_witness :
  exists k,
    removal_plan "net1" ["a"; "b"]
    = mutations (calls (snd (main Daemon.api (absent_client false) [Daemon.net1]))) ++ k.
Proof.
  refine (proj1 (@absent_disconnects_then_removes _ Daemon.api (absent_client false)
                   [Daemon.net1] Daemon.net1 false _ _ _ _)); reflexivity.
Defined.

Lemma present_without_difference_keeps_network_witness :
  Forall (membership_call "net1")
    (mutations (calls (snd (main Daemon.api (members_client false) [Daemon.net1])))).
Proof.
  refine (@present_without_difference_keeps_network _ Daemon.api
            (members_client false) [Daemon.net1] Daemon.net1 false [] _ _ _ _ _ _);
    reflexivity.
Defined.

Lemma present_on_missing_network_creates_first_witness :
  mutations (calls (snd (main Daemon.api (members_client false) []))) = [] \/
  exists k,
    mutations (calls (snd (main Daemon.api (members_client false) [])))
    = CCreate "net1"
        (build_create_params
           (ready_parameters (params (members_client false)) None false)) :: k /\
    Forall (membership_call "net1") k.
Proof.
  refine (proj1 (@present_on_missing_network_creates_first _ Daemon.api
                   (members_client false) [] "net1" false _ _ _ _)); reflexivity.
Defined.

Lemma changed_iff_action_logged_witness :
  changed (Daemon.results_of (main Daemon.api (absent_client false) [Daemon.net1]))
  = negb (is_nil ["Disconnected container a"; "Disconnected container b";
                  "Removed network net1"]).
Proof.
  refine (@changed_iff_action_logged _ Daemon.api (absent_client false) [Daemon.net1]
            (Daemon.results_of (main Daemon.api (absent_client false) [Daemon.net1]))
            (snd (main Daemon.api (absent_client false) [Daemon.net1]))
            _ _ _); vm_compute; reflexivity.
Defined.

Lemma present_facts_are_final_inspection_witness :
  exists facts,
    ansible_facts
      (Daemon.results_of (main Daemon.api (members_client false) [Daemon.net1]))
    = Some facts /\
    found (inspect_network Daemon.api
             (remote (snd (main Daemon.api (members_client false) [Daemon.net1])))
             "net1") = Ok facts.
Proof.
  refine (@present_facts_are_final_inspection _ Daemon.api (members_client false)
            [Daemon.net1]
            (Daemon.results_of (main Daemon.api (members_client false) [Daemon.net1]))
            (snd (main Daemon.api (members_client false) [Daemon.net1]))
            _ _); vm_compute; reflexivity.
Defined.

Lemma diff_entry_iff_diff_check_or_debug_witness :
  is_some (r_diff (Daemon.results_of
                     (main Daemon.api (members_client true) [Daemon.net1])))
  = (false || true || false).
Proof.
  refine (proj1 (@diff_entry_iff_diff_check_or_debug _ Daemon.api (members_client true)
                   [Daemon.net1]
                   (Daemon.results_of (main Daemon.api (members_client true) [Daemon.net1]))
                   (snd (main Daemon.api (members_client true) [Daemon.net1]))
                   _)); vm_compute; reflexivity.
Defined.

(* ===================================================================== *)
(** ** ConfigComparator: driver options *)
(* ===================================================================== *)

Lemma app_eq_self {A : Type} (d l : list A) : d ++ l = d <-> l = [].
Proof.
  split; [|intros ->; apply app_nil_r].
  intros H. apply (app_inv_head d). rewrite app_nil_r. exact H.
Qed.

(** The per-key loop adds one entry for each desired item that the
    observed options do not hold, in the order of the desired options. *)
Lemma driver_options_differences_spec (opts net_options : dict string)
  (differences : DifferenceTracker.t) :
  driver_options_differences opts net_options differences
  = differences ++
    map (fun kv => mk_diff ("driver_options." ++ fst kv) (DStr (snd kv))
                     (DOptStr (dict_get (fst kv) net_options)))
        (filter (fun kv => negb (option_matches net_options kv)) opts).
Proof.
  unfold driver_options_differences. revert differences.
  induction opts as [|[k v] opts IH]; intros differences.
  - symmetry. apply app_nil_r.
  - cbn [fold_left filter]. rewrite IH. clear IH.
    unfold option_matches at 2. unfold dict_mem. cbn [fst snd].
    destruct (dict_get k net_options) as [v'|] eqn:Hk; cbn [negb orb].
    + destruct (String.eqb v v'); cbn [negb]; [reflexivity|].
      unfold DifferenceTracker.add. rewrite <- app_assoc.
      cbn [map app fst snd]. rewrite Hk. reflexivity.
    + unfold DifferenceTracker.add. rewrite <- app_assoc.
      cbn [map app fst snd]. rewrite Hk. reflexivity.
Qed.

Lemma add_changes (name : string) (parameter active : diffval)
  (differences : DifferenceTracker.t) :
  DifferenceTracker.add name parameter active differences <> differences.
Proof.
  unfold DifferenceTracker.add. intros H. apply app_eq_self in H. discriminate H.
Qed.

Lemma filter_nil_iff {A : Type} (f : A -> bool) (l : list A) :
  filter f l = [] <-> forall x, In x l -> f x = false.
Proof.
  induction l as [|a l IH]; simpl.
  - split; [intros _ x []|reflexivity].
  - destruct (f a) eqn:Fa.
    + split; [discriminate|]. intros H. rewrite (H a (or_introl eq_refl)) in Fa.
      discriminate.
    + rewrite IH. split.
      * intros H x [<-|Hx]; auto.
      * intros H x Hx. apply H. now right.
Qed.

(** X16.  The driver options are compared as a subset: when options are
    desired, the comparison adds no difference exactly when the network
    reports options and every desired key is among them with an equal
    value.  Options the network has beyond the desired ones are ignored. *)
Theorem driver_options_compared_as_subset
  (p : TaskParameters) (net : network) (opts : dict string)
  (differences : DifferenceTracker.t) :
  driver_options p = Some opts -> opts <> [] ->
  (compare_driver_options p net differences = differences <->
   exists observed,
     Options net = Some observed /\
     forall k v, In (k, v) opts -> dict_get k observed = Some v).
Proof.
  intros Hp Hne. unfold compare_driver_options. rewrite Hp.
  destruct opts as [|o os]; [congruence|].
  destruct (Options net) as [[|n ns]|] eqn:Hn; cbn [list_truthy negb get_default].
  - split.
    + intros H. apply add_changes in H. contradiction.
    + intros [observed [[= <-] H]]. destruct o as [k v].
      specialize (H k v (or_introl eq_refl)). discriminate H.
  - rewrite driver_options_differences_spec.
    split.
    + intros H. apply app_eq_self in H.
      exists (n :: ns). split; [reflexivity|]. intros k v Hin.
      apply map_eq_nil in H.
      pose proof (proj1 (filter_nil_iff _ _) H (k, v) Hin) as Hk.
      apply negb_false_iff in Hk. unfold option_matches in Hk. simpl fst in Hk.
      simpl snd in Hk.
      destruct (dict_get k (n :: ns)) as [v'|]; [|discriminate].
      apply String.eqb_eq in Hk. now subst.
    + intros [observed [[= <-] H]]. apply app_eq_self.
      replace (filter (fun kv => negb (option_matches (n :: ns) kv)) (o :: os))
        with (@nil (string * string)); [reflexivity|].
      symmetry. apply filter_nil_iff. intros [k v] Hin.
      apply negb_false_iff. unfold option_matches. simpl fst. simpl snd.
      rewrite (H k v Hin). apply String.eqb_refl.
  - split.
    + intros H. apply add_changes in H. contradiction.
    + intros [observed [H _]]. discriminate H.
Qed.

Lemma driver_options_compared_as_subset_witness :
  compare_driver_options
    (TaskParameters_init
       (mk_params "net1" [] StPresent (Some "bridge")
          (Some [(SStr "com.docker.network.bridge.enable_icc", SBool true)])
          false false None Daemon.no_ipam_options None None None false None None))
    (mk_network "id-net1" "net1" "bridge"
       (Some [("com.docker.network.bridge.name", "br0");
              ("com.docker.network.bridge.enable_icc", "true")])
       None None None None None None)
    [] = [] <->
  exists observed,
    Some [("com.docker.network.bridge.name", "br0");
          ("com.docker.network.bridge.enable_icc", "true")] = Some observed /\
    forall k v,
      In (k, v) [("com.docker.network.bridge.enable_icc", "true")] ->
      dict_get k observed = Some v.
Proof.
  apply (@driver_options_compared_as_subset
           (TaskParameters_init
              (mk_params "net1" [] StPresent (Some "bridge")
                 (Some [(SStr "com.docker.network.bridge.enable_icc", SBool true)])
                 false false None Daemon.no_ipam_options None None None false None None))
           (mk_network "id-net1" "net1" "bridge"
              (Some [("com.docker.network.bridge.name", "br0");
                     ("com.docker.network.bridge.enable_icc", "true")])
              None None None None None None)
           [("com.docker.network.bridge.enable_icc", "true")] []).
  - reflexivity.
  - discriminate.
Defined.


(* ===================================================================== *)
(** ** ConfigComparator: IPAM pools *)
(* ===================================================================== *)

Lemma find_camelkey_aux_addresses (keys : list string) :
  incl keys docker_pool_keys -> find_camelkey "aux_addresses" keys = None.
Proof.
  induction keys as [|k keys IH]; intros Hincl; [reflexivity|].
  assert (Hk : In k docker_pool_keys) by (apply Hincl; now left).
  assert (Hrest : incl keys docker_pool_keys)
    by (intros x Hx; apply Hincl; now right).
  cbn [find_camelkey]. rewrite (IH Hrest).
  unfold docker_pool_keys in Hk. simpl in Hk.
  destruct Hk as [<-|[<-|[<-|[<-|[]]]]]; reflexivity.
Qed.

(** The loop over the fields of a pool only adds entries. *)
Lemma pool_differences_grows (idx : nat) (ipam_pool net_config : pool)
  (differences : DifferenceTracker.t) :
  length differences <= length (pool_differences idx ipam_pool net_config differences).
Proof.
  unfold pool_differences. revert differences.
  induction ipam_pool as [|[k v] items IH]; intros differences; cbn [fold_left].
  - apply Nat.le_refl.
  - eapply Nat.le_trans; [|apply IH].
    destruct v; try apply Nat.le_refl;
      match goal with |- _ <= length (if ?c then _ else _) => destruct c end;
      try apply Nat.le_refl;
      unfold DifferenceTracker.add; rewrite length_app; simpl; lia.
Qed.

(** It adds one for [aux_addresses] when the observed pool has no key of
    that name in lower case. *)
Lemma pool_differences_aux_addresses (idx : nat) (ipam_pool net_config : pool)
  (v : pyval) (differences : DifferenceTracker.t) :
  In ("aux_addresses", v) ipam_pool -> v <> PyNone ->
  find_camelkey "aux_addresses" (dict_keys net_config) = None ->
  length differences < length (pool_differences idx ipam_pool net_config differences).
Proof.
  intros Hin Hv Hcamel. unfold pool_differences. revert differences.
  induction ipam_pool as [|[k w] items IH]; intros differences; [destruct Hin|].
  cbn [fold_left]. destruct Hin as [[= -> ->]|Hin].
  - eapply Nat.lt_le_trans; [|apply pool_differences_grows].
    rewrite Hcamel. cbn [str_truthy negb orb].
    destruct v; try congruence;
      unfold DifferenceTracker.add; rewrite length_app; simpl; lia.
  - eapply Nat.le_lt_trans; [|apply (IH Hin)].
    destruct w; try apply Nat.le_refl;
      match goal with |- _ <= length (if ?c then _ else _) => destruct c end;
      try apply Nat.le_refl;
      unfold DifferenceTracker.add; rewrite length_app; simpl; lia.
Qed.

(** The scan hands back the initial dictionary or one of the observed
    pools. *)
Lemma scan_net_configs_member (ip : ip_version) (net_pools : list pool)
  (net_config r : pool) :
  scan_net_configs ip net_pools net_config = Ok r ->
  r = net_config \/ In r net_pools.
Proof.
  revert net_config. induction net_pools as [|np rest IH]; intros net_config; simpl.
  - intros [= <-]. now left.
  - destruct (dict_item "Subnet" np) as [subnet|m|e]; simpl; try discriminate.
    destruct (get_ip_version subnet) as [v|m|e]; simpl; try discriminate.
    intros H. apply IH in H. destruct H as [->|H]; [|now right; right].
    destruct (ip_version_eqb ip v); [right; now left | now left].
Qed.

Lemma find_net_config_member (ipam_pool : pool) (net_pools : list pool) (r : pool) :
  find_net_config ipam_pool net_pools = Ok r -> r = [] \/ In r net_pools.
Proof.
  unfold find_net_config.
  destruct (dict_item "subnet" ipam_pool) as [subnet|m|e]; simpl;
    try discriminate; [|destruct e; discriminate].
  destruct (get_ip_version subnet) as [ip|m|e]; simpl;
    try discriminate; [|destruct e; discriminate].
  intros H.
  destruct (scan_net_configs ip net_pools []) as [r'|m|e] eqn:Hs; simpl in H;
    try discriminate; [|destruct e; discriminate].
  injection H as <-. exact (scan_net_configs_member _ _ _ Hs).
Qed.

Lemma ipam_config_differences_grows (pools net_pools : list pool) :
  forall idx differences result,
    ipam_config_differences idx pools net_pools differences = Ok result ->
    length differences <= length result.
Proof.
  induction pools as [|q pools IH]; intros idx differences result; simpl.
  - intros [= <-]. apply Nat.le_refl.
  - destruct (find_net_config q net_pools) as [nc|m|e]; simpl; try discriminate.
    intros H. apply IH in H.
    eapply Nat.le_trans; [apply pool_differences_grows | exact H].
Qed.

Lemma ipam_config_differences_aux_addresses (pools net_pools : list pool)
  (i : nat) (ipam_pool : pool) (v : pyval) :
  nth_error pools i = Some ipam_pool ->
  In ("aux_addresses", v) ipam_pool -> v <> PyNone ->
  (forall np, In np net_pools -> incl (dict_keys np) docker_pool_keys) ->
  forall idx differences result,
    ipam_config_differences idx pools net_pools differences = Ok result ->
    length differences < length result.
Proof.
  intros Hn Hin Hv Hkeys. revert i Hn.
  induction pools as [|q pools IH]; intros i Hn idx differences result; simpl.
  - destruct i; discriminate Hn.
  - destruct (find_net_config q net_pools) as [nc|m|e] eqn:Hf; simpl; try discriminate.
    intros H. destruct i as [|i]; simpl in Hn.
    + injection Hn as ->.
      eapply Nat.lt_le_trans; [|eapply ipam_config_differences_grows; exact H].
      apply pool_differences_aux_addresses with (v := v); auto.
      apply find_camelkey_aux_addresses.
      destruct (find_net_config_member _ _ Hf) as [->|Hnc].
      * intros x [].
      * now apply Hkeys.
    + eapply Nat.le_lt_trans; [apply pool_differences_grows|].
      eapply IH; eauto.
Qed.

Lemma compare_flags_grows (p : TaskParameters) (net : network)
  (differences : DifferenceTracker.t) :
  length differences <= length (compare_flags p net differences).
Proof.
  unfold compare_flags, DifferenceTracker.add.
  repeat match goal with
         | |- context [if ?c then _ else _] => destruct c
         | |- context [match scope p with _ => _ end] => destruct (scope p)
         end;
    rewrite ?length_app; simpl; lia.
Qed.

(** X17.  A desired pool that sets [aux_addresses] never compares
    equal to a network whose pools carry the daemon's field names: the
    field is looked up by lower-casing the observed names, and
    [AuxiliaryAddresses] does not lower-case to [aux_addresses].  Whenever
    the comparison returns, it reports a difference, whatever addresses the
    network has. *)
Theorem aux_addresses_always_differ
  (p : TaskParameters) (net : network) (pools : list pool) (i : nat)
  (ipam_pool : pool) (v : pyval) :
  ipam_config p = Some pools ->
  nth_error pools i = Some ipam_pool ->
  In ("aux_addresses", v) ipam_pool -> v <> PyNone ->
  docker_pools net ->
  finds_equal (has_different_config p net) = false.
Proof.
  intros Hp Hn Hin Hv Hdocker.
  unfold has_different_config.
  set (d3 := compare_ipam_driver p net
               (compare_driver_options p net
                  (compare_driver p net DifferenceTracker.new))).
  destruct (compare_ipam_config p net d3) as [d4|m|e] eqn:Hc; try reflexivity.
  simpl obind.
  assert (H4 : length d3 < length d4).
  { unfold compare_ipam_config in Hc. rewrite Hp in Hc.
    destruct pools as [|c cs]; [destruct i; discriminate Hn|].
    destruct (IPAM net) as [[drv [[|n ns]|]]|] eqn:Hi.
    - injection Hc as <-. unfold DifferenceTracker.add. rewrite length_app. simpl. lia.
    - eapply ipam_config_differences_aux_addresses; eauto.
      intros np Hnp. apply (Hdocker _ (n :: ns) np Hi); [reflexivity | exact Hnp].
    - injection Hc as <-. unfold DifferenceTracker.add. rewrite length_app. simpl. lia.
    - injection Hc as <-. unfold DifferenceTracker.add. rewrite length_app. simpl. lia. }
  pose proof (compare_flags_grows p net d4) as H5.
  destruct (compare_flags p net d4) as [|x l]; [simpl in H5; lia|].
  reflexivity.
Qed.


Lemma aux_addresses_always_differ_witness :
  finds_equal
    (has_different_config
       (TaskParameters_init (with_ipam_config (Some [aux_pool]) (Daemon.defaults "net1")))
       aux_net) = false.
Proof.
  apply (@aux_addresses_always_differ
           (TaskParameters_init
              (with_ipam_config (Some [aux_pool]) (Daemon.defaults "net1")))
           aux_net [aux_pool] 0 aux_pool (PyDict [("host1", "10.0.0.5")])).
  - reflexivity.
  - reflexivity.
  - simpl. tauto.
  - discriminate.
  - intros i nps np Hi Hc Hin. injection Hi as <-. injection Hc as <-.
    destruct Hin as [<-|[]]. vm_compute. tauto.
Defined.

(* ===================================================================== *)
(** ** A malformed subnet *)
(* ===================================================================== *)

Section MalformedSubnet.
Variable world : Type.
Variable api : DockerAPI world.

Lemma find_net_config_malformed (ipam_pool : pool) (net_pools : list pool)
  (subnet msg : string) :
  dict_get "subnet" ipam_pool = Some (PyStr subnet) ->
  get_ip_version (PyStr subnet) = Raise (ValueError msg) ->
  find_net_config ipam_pool net_pools = Fail msg.
Proof.
  intros Hs Hg. unfold find_net_config, dict_item. rewrite Hs. cbn [obind].
  rewrite Hg. reflexivity.
Qed.

(** X18.  A [present] pass whose first desired pool has a subnet that
    is not a CIDR, on a network that has IPAM pools, fails cleanly with the
    message of [get_ip_version] as soon as the comparison reaches the pool:
    its only call is the first inspection and nothing is changed. *)
Theorem malformed_subnet_fails_before_any_change
  (client : AnsibleDockerClient) (w : world) (net : network)
  (ipam_pool : pool) (rest : list pool) (subnet msg : string)
  (drv : string) (np : pool) (nps : list pool) :
  p_state (params client) = StPresent ->
  _get_minimal_versions client = Ok tt ->
  inspect_network api w (p_network_name (params client)) = inr net ->
  ipam_options_used (p_ipam_options (params client)) = Ok false ->
  p_ipam_config (params client) = Some (ipam_pool :: rest) ->
  dict_get "subnet" ipam_pool = Some (PyStr subnet) ->
  get_ip_version (PyStr subnet) = Raise (ValueError msg) ->
  IPAM net = Some (mk_ipam drv (Some (np :: nps))) ->
  main api client w = (Fail msg, ready_state client w (Some net) false).
Proof.
  intros Hst Hv Hi Hl Hpools Hs Hg Hipam.
  assert (Hf : found (inspect_network api w (p_network_name (params client)))
               = Ok (Some net)) by (rewrite Hi; reflexivity).
  rewrite (main_ready api client w Hv Hf Hl), Hst.
  set (s2 := ready_state client w (Some net) false).
  rewrite present_stages.
  assert (Hc : compare_existing (mgr s2) = Fail msg).
  { unfold compare_existing.
    change (existing_network (mgr s2)) with (Some net).
    change (parameters (mgr s2))
      with (ready_parameters (params client) (Some net) false).
    unfold has_different_config.
    assert (Hcmp : forall d,
               compare_ipam_config
                 (ready_parameters (params client) (Some net) false) net d
               = Fail msg).
    { intros d. unfold compare_ipam_config.
      change (ipam_config (ready_parameters (params client) (Some net) false))
        with (p_ipam_config (params client)).
      rewrite Hpools, Hipam. cbn [ipam_config_differences].
      rewrite (find_net_config_malformed ipam_pool (np :: nps) Hs Hg).
      reflexivity. }
    rewrite Hcmp. reflexivity. }
  rewrite Hc. reflexivity.
Qed.

End MalformedSubnet.


Lemma malformed_subnet_fails_before_any_change_witness :
  main Daemon.api
    (Daemon.client (with_ipam_config (Some [malformed_pool]) (Daemon.defaults "net1"))
       false false)
    [Daemon.net1]
  = (Fail (dquote ++ "10.0.0.0" ++ dquote ++ " is not a valid CIDR"),
     ready_state
       (Daemon.client (with_ipam_config (Some [malformed_pool]) (Daemon.defaults "net1"))
          false false)
       [Daemon.net1] (Some Daemon.net1) false).
Proof.
  refine (@malformed_subnet_fails_before_any_change _ Daemon.api
            (Daemon.client
               (with_ipam_config (Some [malformed_pool]) (Daemon.defaults "net1"))
               false false)
            [Daemon.net1] Daemon.net1 malformed_pool [] "10.0.0.0"
            (dquote ++ "10.0.0.0" ++ dquote ++ " is not a valid CIDR")
            "default" _ [] _ _ _ _ _ _ _ _); reflexivity.
Defined.
